(** * py-gql: a shallow embedding of the core utilities, the AST, the SDL
    schema builder, the middleware combinators and the type-info visitor,
    with the properties of the specification stated over them. *)

From Stdlib Require Import ZArith Lia Bool List Ascii String.
From Stdlib Require DecimalString DecimalNat DecimalFacts.
From stdpp Require Import base list strings gmap.

Local Open Scope Z_scope.
Set Warnings "-register-all".

(** ** Python outcomes

    A Python call either returns a value or raises.  The exceptions that
    the embedded functions can raise are listed by class; [SDLError]
    carries its message. *)
Module Py.

Inductive exn : Type :=
| IndexError
| KeyError
| TypeError
| AttributeError
| RuntimeError
| RecursionError
| UserError (tag : string)
| SDLError (msg : string).

Inductive result (A : Type) : Type :=
| Ok (a : A)
| Raise (e : exn).
Arguments Ok {A} a.
Arguments Raise {A} e.

Definition bind {A B} (r : result A) (k : A -> result B) : result B :=
  match r with
  | Ok a => k a
  | Raise e => Raise e
  end.

Definition is_ok {A} (r : result A) : bool :=
  match r with Ok _ => true | Raise _ => false end.

Definition is_sdl_error {A} (r : result A) : bool :=
  match r with Raise (SDLError _) => true | _ => false end.

(** A list comprehension whose element expression can raise: the
    elements are computed in order, the first exception ends it. *)
Definition comprehension {X Y} (f : X -> result Y)
  : list X -> result (list Y) :=
  fix go (l : list X) : result (list Y) :=
    match l with
    | [] => Ok []
    | x :: rest =>
        bind (f x) (fun y => bind (go rest) (fun rest' => Ok (y :: rest')))
    end.

(** A Python [str] is a sequence of code points. *)
Definition str := list N.

Definition of_string (s : string) : str :=
  List.map N_of_ascii (list_ascii_of_string s).

(** A Python [dict] with string keys, kept in insertion order:
    [d[k] = v], [d.get(k)], [k in d], [d.values()]. *)
Fixpoint dict_set {B} (k : string) (v : B) (d : list (string * B))
  : list (string * B) :=
  match d with
  | [] => [(k, v)]
  | (k', v') :: rest =>
      if String.eqb k k' then (k, v) :: rest
      else (k', v') :: dict_set k v rest
  end.

Fixpoint dict_get {B} (k : string) (d : list (string * B)) : option B :=
  match d with
  | [] => None
  | (k', v) :: rest => if String.eqb k k' then Some v else dict_get k rest
  end.

Definition dict_in {B} (k : string) (d : list (string * B)) : bool :=
  match dict_get k d with Some _ => true | None => false end.

Definition dict_values {B} (d : list (string * B)) : list B := List.map snd d.

Definition dict_keys {B} (d : list (string * B)) : list string :=
  List.map fst d.

End Py.

Import Py.

Declare Scope py_scope.
Delimit Scope py_scope with py.
Notation "'let*' x := c1 'in' c2" := (Py.bind c1 (fun x => c2))
  (at level 10, x pattern, c1 at level 100, c2 at level 200) : py_scope.

(** ** [py_gql/lang/utils.py] *)
Module Utils.

Definition LF : N := 10%N.
Definition CR : N := 13%N.

(** Code points for which [str.isspace] holds; the regular expression
    class [\s] on [str] patterns and [str.strip()] use the same set. *)
Definition is_space (c : N) : bool :=
  ((9 <=? c) && (c <=? 13) || (28 <=? c) && (c <=? 32)
   || (c =? 133) || (c =? 160) || (c =? 5760)
   || (8192 <=? c) && (c <=? 8202)
   || (c =? 8232) || (c =? 8233) || (c =? 8239) || (c =? 8287)
   || (c =? 12288))%N.

(** [LINE_SEPARATOR.split]: the pattern is [\r\n|[\n\r]], the two-character
    alternative tried first. *)
Fixpoint split_lines (s : str) : list str :=
  match s with
  | [] => [[]]
  | c :: rest =>
      let continue_line :=
        match split_lines rest with
        | l :: ls => (c :: l) :: ls
        | [] => [[c]]
        end in
      if (c =? CR)%N then
        match rest with
        | d :: rest' =>
            if (d =? LF)%N then [] :: split_lines rest'
            else [] :: split_lines rest
        | [] => [] :: split_lines rest
        end
      else if (c =? LF)%N then [] :: split_lines rest
      else continue_line
  end.

Fixpoint drop_while {A} (p : A -> bool) (l : list A) : list A :=
  match l with
  | [] => []
  | x :: l' => if p x then drop_while p l' else l
  end.

(** [LEADING_WS.sub('', string)]: the anchored pattern [^[\t\s]*] matches
    once, at the start. *)
Definition strip_leading_ws (s : str) : str := drop_while is_space s.

Definition leading_whitespace (s : str) : nat :=
  (length s - length (strip_leading_ws s))%nat.

(** [not string.strip()] *)
Definition is_blank (s : str) : bool := forallb is_space s.

(** The first loop of [parse_block_string]; [i] is the index given by
    [enumerate], [common_indent] starts as [None]. *)
Fixpoint indent_loop (i : nat) (lines : list str) (common_indent : option nat)
  : option nat :=
  match lines with
  | [] => common_indent
  | line :: rest =>
      if (i =? 0)%nat then indent_loop (S i) rest common_indent
      else
        let indent := leading_whitespace line in
        if (indent <? length line)%nat
           && match common_indent with
              | None => true
              | Some c => (indent <? c)%nat
              end
        then indent_loop (S i) rest (Some indent)
        else indent_loop (S i) rest common_indent
  end.

(** The list comprehension that removes the indent. *)
Fixpoint strip_loop (common_indent : nat) (i : nat) (lines : list str)
  : list str :=
  match lines with
  | [] => []
  | line :: rest =>
      (if (common_indent <=? length line)%nat && (0 <? i)%nat
       then skipn common_indent line else line)
      :: strip_loop common_indent (S i) rest
  end.

(** [while flag and lines and is_blank(lines[0]): lines.pop(0)] *)
Definition pop_leading (flag : bool) (lines : list str) : list str :=
  if flag then drop_while is_blank lines else lines.

(** [while flag and lines and is_blank(lines[-1]): lines.pop()] *)
Definition pop_trailing (flag : bool) (lines : list str) : list str :=
  if flag then rev (drop_while is_blank (rev lines)) else lines.

(** ["\n".join(lines)] *)
Fixpoint join_lines (lines : list str) : str :=
  match lines with
  | [] => []
  | [l] => l
  | l :: rest => l ++ LF :: join_lines rest
  end.

Definition parse_block_string_with
  (raw_string : str) (strip_trailing_newlines strip_leading_newlines : bool)
  : str :=
  let lines := split_lines raw_string in
  let common_indent := indent_loop 0 lines None in
  let lines :=
    match common_indent with
    | Some (S c) => strip_loop (S c) 0 lines
    | _ => lines
    end in
  let lines := pop_leading strip_leading_newlines lines in
  let lines := pop_trailing strip_trailing_newlines lines in
  join_lines lines.

Definition parse_block_string (raw_string : str) : str :=
  parse_block_string_with raw_string true true.

(** *** The block-string algorithm in the words of the specification

    Split into lines; the common indent is the least leading-whitespace
    count among the lines after the first that are not blank; strip it from
    the lines after the first; drop blank lines at both ends; join. *)
Fixpoint minimum (l : list nat) : option nat :=
  match l with
  | [] => None
  | x :: rest =>
      match minimum rest with
      | None => Some x
      | Some m => Some (Nat.min x m)
      end
  end.

(** The running minimum kept by the loop, against the minimum of a list. *)
Definition merge_indent (acc : option nat) (m : option nat) : option nat :=
  match acc, m with
  | None, _ => m
  | Some c, None => Some c
  | Some c, Some x => Some (Nat.min c x)
  end.

Definition common_indent_of (lines : list str) : nat :=
  match minimum (List.map leading_whitespace
                   (List.filter (fun l => negb (is_blank l)) (tl lines))) with
  | None => 0%nat
  | Some n => n
  end.

(** Stripping as the specification words it: the first [n] characters of
    every line after the first are removed. *)
Definition strip_indent (n : nat) (lines : list str) : list str :=
  match lines with
  | [] => []
  | first :: others => first :: List.map (skipn n) others
  end.

(** Stripping as the source guards it: a line shorter than the indent is
    kept as it is. *)
Definition strip_indent_guarded (n : nat) (lines : list str) : list str :=
  match lines with
  | [] => []
  | first :: others =>
      first :: List.map (fun l => if (n <=? length l)%nat then skipn n l else l)
                        others
  end.

Definition trim_blank_lines (lines : list str) : list str :=
  rev (drop_while is_blank (rev (drop_while is_blank lines))).

Definition block_string_value (raw : str) : str :=
  let lines := split_lines raw in
  join_lines (trim_blank_lines (strip_indent (common_indent_of lines) lines)).

Definition block_string_value_guarded (raw : str) : str :=
  let lines := split_lines raw in
  join_lines
    (trim_blank_lines (strip_indent_guarded (common_indent_of lines) lines)).

(** [index_to_loc]: the loop over [enumerate(body)], then the function. *)
Fixpoint index_to_loc_loop (body : str) (offset : nat) (position : Z)
  (lines cols : nat) : nat * nat :=
  match body with
  | [] => ((lines + 1)%nat, (cols + 1)%nat)
  | char :: rest =>
      if Z.of_nat offset =? position then ((lines + 1)%nat, (cols + 1)%nat)
      else if (char =? LF)%N
           then index_to_loc_loop rest (S offset) position (lines + 1)%nat 0%nat
           else index_to_loc_loop rest (S offset) position lines (cols + 1)%nat
  end.

Definition index_to_loc (body : str) (position : Z) : result (nat * nat) :=
  match body, position with
  | [], 0 => Ok (1%nat, 1%nat)
  | _, _ =>
      if Z.of_nat (length body) <? position then Raise IndexError
      else Ok (index_to_loc_loop body 0 position 0 0)
  end.

(** [loc_to_index]: [total] is [len(body)], constant through the loop. *)
Fixpoint loc_to_index_loop (total : nat) (body : str) (index : nat)
  (lineo col : Z) (lines : Z) : result Z :=
  match body with
  | [] => Raise IndexError
  | char :: rest =>
      if lines =? lineo - 1 then
        if Z.of_nat index + col - 1 <=? Z.of_nat total
        then Ok (Z.of_nat index + col - 1)
        else Raise IndexError
      else if (char =? LF)%N
           then loc_to_index_loop total rest (S index) lineo col (lines + 1)
           else loc_to_index_loop total rest (S index) lineo col lines
  end.

Definition loc_to_index (body : str) (loc : Z * Z) : result Z :=
  let '(lineo, col) := loc in
  match body with
  | [] =>
      if (lineo =? 1) && (col =? 1) then Ok 0
      else loc_to_index_loop 0 [] 0 lineo col 0
  | _ => loc_to_index_loop (length body) body 0 lineo col 0
  end.

(** Number of line feeds in a string. *)
Definition count_lf (s : str) : nat :=
  length (List.filter (fun c => (c =? LF)%N) s).

Definition loc_of_nat (p : nat * nat) : Z * Z :=
  (Z.of_nat (fst p), Z.of_nat (snd p)).

(** The composition the round trip is about: a location obtained from
    [index_to_loc] fed to [loc_to_index]. *)
Definition roundtrip (body : str) (position : Z) : result Z :=
  (let* loc := index_to_loc body position in
   loc_to_index body (loc_of_nat loc))%py.

Fixpoint take_while {A} (p : A -> bool) (l : list A) : list A :=
  match l with
  | [] => []
  | x :: l' => if p x then x :: take_while p l' else []
  end.

Definition is_lf (c : N) : bool := (c =? LF)%N.

(** The number of characters after the last line feed of a string (all of
    them when it has none). *)
Definition since_last_lf (s : str) : nat :=
  length (take_while (fun c => negb (is_lf c)) (rev s)).

(** A character that [LINE_SEPARATOR] matches. *)
Definition is_terminator (c : N) : bool := (c =? LF)%N || (c =? CR)%N.

(** A line in which [LINE_SEPARATOR] matches nowhere. *)
Definition free_of_terminators (l : str) : Prop :=
  forallb (fun c => negb (is_terminator c)) l = true.

(** What [LINE_SEPARATOR.split] still has to read once the match that
    starts with [c] is consumed. *)
Definition after_terminator (c : N) (rest : str) : str :=
  if (c =? CR)%N then
    match rest with
    | d :: rest' => if (d =? LF)%N then rest' else rest
    | [] => rest
    end
  else rest.

(** The lines that [parse_block_string] joins. *)
Definition kept_lines (raw : str) : list str :=
  let lines := split_lines raw in
  trim_blank_lines
    match indent_loop 0 lines None with
    | Some (S c) => strip_loop (S c) 0 lines
    | _ => lines
    end.

(** The length of ["\n".join(lines)]: the characters of the lines and a
    line feed between two lines. *)
Definition joined_length (lines : list str) : nat :=
  (list_sum (List.map (@length N) lines) + (length lines - 1))%nat.

(** [str(n)] for an integer that is not negative. *)
Definition str_of_nat (n : nat) : str :=
  of_string (DecimalString.NilZero.string_of_uint (Nat.to_uint n)).

(** [ws(len_)] of [highlight_location] *)
Definition ws (len_ : nat) : str := repeat 32%N len_.

(** [lineno(l)] of [highlight_location]: [" ".join(range(k))] is the empty
    string when the range is empty and a TypeError otherwise, the items of
    a range being no strings.  A difference that is not positive gives an
    empty range. *)
Definition lineno (pad_len : nat) (l : nat) : result str :=
  if (0 <? pad_len - length (str_of_nat (l + 1)))%nat then Raise TypeError
  else Ok (str_of_nat (l + 1)).

(** [ws(2) + lineno(l) + ":" + lines[l]] *)
Definition numbered_line (lines : list str) (pad_len : nat) (l : nat)
  : result str :=
  (let* number := lineno pad_len l in
   match nth_error lines l with
   | Some text => Ok (ws 2 ++ number ++ of_string ":" ++ text)%list
   | None => Raise IndexError
   end)%py.

(** The lines that [highlight_location] shows: from [min_line] to
    [max_line], both zero-based and included. *)
Definition min_line (line : nat) (delta : nat) : nat := (line - 1 - delta)%nat.

Definition max_line (lines : list str) (line : nat) (delta : nat) : nat :=
  Nat.min (line - 1 + delta) (length lines - 1).

(** [highlight_location], for a [delta] that is not negative. *)
Definition highlight_location (body : str) (position : Z) (delta : nat)
  : result str :=
  (let* loc := index_to_loc body position in
   let line := fst loc in
   let col := snd loc in
   let line_index := (line - 1)%nat in
   let lines := split_lines body in
   let pad_len := length (str_of_nat (max_line lines line delta + 1)) in
   let header :=
     (of_string "(" ++ str_of_nat line ++ of_string ":" ++ str_of_nat col
      ++ of_string "):")%list in
   let* before :=
     comprehension (numbered_line lines pad_len)
       (seq (min_line line delta) (line_index - min_line line delta)) in
   let* current := numbered_line lines pad_len line_index in
   let caret := (ws 2 ++ ws (pad_len + col) ++ of_string "^")%list in
   let* after :=
     comprehension (numbered_line lines pad_len)
       (seq (line_index + 1) (max_line lines line delta - line_index)) in
   Ok (join_lines (header :: before ++ [current; caret] ++ after)%list))%py.

End Utils.

(** ** [py_gql/execution/middleware.py] *)
Module Middleware.

(** What [next(gen)] can do to a generator: suspend at a [yield] with a
    value, finish (StopIteration), or raise. *)
Inductive gen_step (W V G : Type) : Type :=
| Yield (v : V) (w : W) (k : G)
| Return (w : W)
| Throw (e : exn) (w : W).
Arguments Yield {W V G} v w k.
Arguments Return {W V G} w.
Arguments Throw {W V G} e w.

(** A generator object: resuming it in a world gives the next step and, at
    a [yield], the suspended rest. *)
Inductive generator (W V : Type) : Type :=
| Gen (resume : W -> gen_step W V (generator W V)).
Arguments Gen {W V} resume.

Definition next {W V} (gen : generator W V) (w : W)
  : gen_step W V (generator W V) :=
  match gen with Gen resume => resume w end.

(** The world a step leaves behind. *)
Definition world_of {W V G} (s : gen_step W V G) : W :=
  match s with
  | Yield _ w _ => w
  | Return w => w
  | Throw _ w => w
  end.

(** The generator that has finished. *)
Definition finished {W V} : generator W V := Gen (fun w => Return w).

Section Middleware.

(** [W]: the state a call can change; [A]: the positional and keyword
    arguments of the wrapped function; [V]: its results. *)
Context {W A V : Type}.

(** A callable with the signature of the wrapped function. *)
Definition fn : Type := A -> W -> result V * W.

(** [_concurrency.is_deferred] and [Future.add_done_callback], of the
    package's concurrency module. *)
Context (is_deferred : V -> bool).
Context (add_done_callback : V -> (W -> result unit * W) -> W -> W).

(** A middleware is a function, or a generator function. *)
Inductive middleware : Type :=
| Plain (mw : fn -> fn)
| GeneratorFn (func : fn -> A -> generator W V).

Definition _is_generator (mw : middleware) : bool :=
  match mw with Plain _ => false | GeneratorFn _ => true end.

(** [_finish] of [generator_middleware.wrapped], closed over [gen]. *)
Definition _finish (gen : generator W V) (w : W) : result unit * W :=
  match next gen w with
  | Yield _ w' _ => (Ok tt, w')
  | Return w' => (Ok tt, w')
  | Throw e w' => (Raise e, w')
  end.

Definition generator_middleware (func : fn -> A -> generator W V) : fn -> fn :=
  fun step args w =>
    let gen := func step args in
    match next gen w with
    | Return w1 => (Raise RuntimeError, w1)
    | Throw e w1 => (Raise e, w1)
    | Yield res w1 gen' =>
        if is_deferred res
        then (Ok res, add_done_callback res (_finish gen') w1)
        else match _finish gen' w1 with
             | (Ok _, w2) => (Ok res, w2)
             | (Raise e, w2) => (Raise e, w2)
             end
    end.

(** The callable that [ft.partial] receives for a middleware. *)
Definition as_callable (mw : middleware) : fn -> fn :=
  match mw with
  | Plain f => f
  | GeneratorFn func => generator_middleware func
  end.

Definition apply_middlewares (func : fn) (middlewares : list middleware) : fn :=
  match middlewares with
  | [] => func
  | _ =>
      fold_left (fun tail mw => as_callable mw tail) (rev middlewares) func
  end.

(** The nesting the specification describes: the first middleware
    outermost, the last one around [func]. *)
Definition nested (func : fn) (middlewares : list middleware) : fn :=
  fold_right (fun mw inner => as_callable mw inner) func middlewares.

End Middleware.

(** A pure function seen as a callable, and a pure middleware. *)
Definition pure_fn {W A V} (f : A -> V) : @fn W A V :=
  fun x w => (Ok (f x), w).



(** A generator middleware that yields the constant [v] and then raises. *)
Definition yield_then_raise_gen (v : Z) (e : exn) : generator unit Z :=
  Gen (fun w => Yield v w (Gen (fun w' => Throw e w'))).

Definition yield_then_raise {A} (v : Z) (e : exn) : @middleware unit A Z :=
  GeneratorFn (fun _ _ => yield_then_raise_gen v e).

(** The suspended rest of the generator of [logging_middleware]. *)
Definition logging_rest {V} : generator (list string) V :=
  Gen (fun w2 => Return (w2 ++ ["end"%string])).

(** [yield next_(...)] surrounded by two recorded events. *)
Definition logging_middleware {A V} : @middleware (list string) A V :=
  GeneratorFn (fun next_ x =>
    Gen (fun w =>
      match next_ x (w ++ ["start"%string]) with
      | (Ok v, w1) => Yield v w1 logging_rest
      | (Raise e, w1) => Throw e w1
      end)).

(** An instance of the class [GraphQLMiddleware] itself: its [__call__]
    returns [next_(root, args, context, info)] and is no generator
    function. *)
Definition GraphQLMiddleware {W A V} : @middleware W A V :=
  Plain (fun next_ args w => next_ args w).

(** A generator middleware of the shape the module's docstring shows:
    some code, [yield next_(...)], some more code. *)
Definition around {W A V} (before after : W -> W) : @middleware W A V :=
  GeneratorFn (fun next_ args =>
    Gen (fun w =>
      match next_ args (before w) with
      | (Ok v, w1) => Yield v w1 (Gen (fun w2 => Return (after w2)))
      | (Raise e, w1) => Throw e w1
      end)).

(** The code before the [yield] of a list of such middlewares, run in
    list order, and the code after it, run in the opposite order. *)
Definition befores {W} (l : list ((W -> W) * (W -> W))) (w : W) : W :=
  fold_left (fun w ba => fst ba w) l w.

Definition afters {W} (l : list ((W -> W) * (W -> W))) (w : W) : W :=
  fold_right (fun ba w => snd ba w) w l.

End Middleware.

(** ** [py_gql/lang/ast.py] *)
Module Ast.
Local Open Scope string_scope.

(** The concrete node classes of the module, each with its [__name__] and
    its [__slots__]. *)
Inductive node_class : Type :=
| Name
| NamedType
| ListType
| NonNullType
| Document
| OperationDefinition
| Variable_
| VariableDefinition
| SelectionSet
| Field
| Argument
| FragmentSpread
| InlineFragment
| FragmentDefinition
| IntValue
| FloatValue
| StringValue
| BooleanValue
| NullValue
| EnumValue
| ListValue
| ObjectValue
| ObjectField
| Directive
| SchemaDefinition
| OperationTypeDefinition
| ScalarTypeDefinition
| ObjectTypeDefinition
| FieldDefinition
| InputValueDefinition
| InterfaceTypeDefinition
| UnionTypeDefinition
| EnumTypeDefinition
| EnumValueDefinition
| InputObjectTypeDefinition
| SchemaExtension
| ScalarTypeExtension
| ObjectTypeExtension
| InterfaceTypeExtension
| UnionTypeExtension
| EnumTypeExtension
| InputObjectTypeExtension
| DirectiveDefinition.

Definition class_name (c : node_class) : string :=
  match c with
  | Name => "Name"
  | NamedType => "NamedType"
  | ListType => "ListType"
  | NonNullType => "NonNullType"
  | Document => "Document"
  | OperationDefinition => "OperationDefinition"
  | Variable_ => "Variable"
  | VariableDefinition => "VariableDefinition"
  | SelectionSet => "SelectionSet"
  | Field => "Field"
  | Argument => "Argument"
  | FragmentSpread => "FragmentSpread"
  | InlineFragment => "InlineFragment"
  | FragmentDefinition => "FragmentDefinition"
  | IntValue => "IntValue"
  | FloatValue => "FloatValue"
  | StringValue => "StringValue"
  | BooleanValue => "BooleanValue"
  | NullValue => "NullValue"
  | EnumValue => "EnumValue"
  | ListValue => "ListValue"
  | ObjectValue => "ObjectValue"
  | ObjectField => "ObjectField"
  | Directive => "Directive"
  | SchemaDefinition => "SchemaDefinition"
  | OperationTypeDefinition => "OperationTypeDefinition"
  | ScalarTypeDefinition => "ScalarTypeDefinition"
  | ObjectTypeDefinition => "ObjectTypeDefinition"
  | FieldDefinition => "FieldDefinition"
  | InputValueDefinition => "InputValueDefinition"
  | InterfaceTypeDefinition => "InterfaceTypeDefinition"
  | UnionTypeDefinition => "UnionTypeDefinition"
  | EnumTypeDefinition => "EnumTypeDefinition"
  | EnumValueDefinition => "EnumValueDefinition"
  | InputObjectTypeDefinition => "InputObjectTypeDefinition"
  | SchemaExtension => "SchemaExtension"
  | ScalarTypeExtension => "ScalarTypeExtension"
  | ObjectTypeExtension => "ObjectTypeExtension"
  | InterfaceTypeExtension => "InterfaceTypeExtension"
  | UnionTypeExtension => "UnionTypeExtension"
  | EnumTypeExtension => "EnumTypeExtension"
  | InputObjectTypeExtension => "InputObjectTypeExtension"
  | DirectiveDefinition => "DirectiveDefinition"
  end.

Definition slots_of (c : node_class) : list string :=
  match c with
  | Name => ["source"; "loc"; "value"]
  | NamedType => ["source"; "loc"; "name"]
  | ListType => ["source"; "loc"; "type"]
  | NonNullType => ["source"; "loc"; "type"]
  | Document => ["source"; "loc"; "definitions"]
  | OperationDefinition =>
      ["source"; "loc"; "operation";
       "name"; "variable_definitions"; "directives"; "selection_set"]
  | Variable_ => ["source"; "loc"; "name"]
  | VariableDefinition =>
      ["source"; "loc"; "variable"; "type"; "default_value"]
  | SelectionSet => ["source"; "loc"; "selections"]
  | Field =>
      ["source"; "loc"; "name"; "alias";
       "arguments"; "directives"; "selection_set"; "response_name"]
  | Argument => ["source"; "loc"; "name"; "value"]
  | FragmentSpread => ["source"; "loc"; "name"; "directives"]
  | InlineFragment =>
      ["source"; "loc"; "type_condition"; "directives"; "selection_set"]
  | FragmentDefinition =>
      ["loc"; "name"; "variable_definitions";
       "type_condition"; "directives"; "selection_set"]
  | IntValue => ["source"; "loc"; "value"]
  | FloatValue => ["source"; "loc"; "value"]
  | StringValue => ["source"; "loc"; "value"; "block"]
  | BooleanValue => ["source"; "loc"; "value"]
  | NullValue => ["source"; "loc"]
  | EnumValue => ["source"; "loc"; "value"]
  | ListValue => ["source"; "loc"; "values"]
  | ObjectValue => ["source"; "loc"; "fields"]
  | ObjectField => ["source"; "loc"; "name"; "value"]
  | Directive => ["source"; "loc"; "name"; "arguments"]
  | SchemaDefinition => ["source"; "loc"; "directives"; "operation_types"]
  | OperationTypeDefinition => ["source"; "loc"; "operation"; "type"]
  | ScalarTypeDefinition =>
      ["source"; "loc"; "description"; "name"; "directives"]
  | ObjectTypeDefinition =>
      ["source"; "loc"; "description";
       "name"; "interfaces"; "directives"; "fields"]
  | FieldDefinition =>
      ["source"; "loc"; "description";
       "name"; "arguments"; "type"; "directives"]
  | InputValueDefinition =>
      ["source"; "loc"; "description";
       "name"; "type"; "default_value"; "directives"]
  | InterfaceTypeDefinition =>
      ["source"; "loc"; "description"; "name"; "directives"; "fields"]
  | UnionTypeDefinition =>
      ["source"; "loc"; "description"; "name"; "directives"; "types"]
  | EnumTypeDefinition =>
      ["source"; "loc"; "description"; "name"; "directives"; "values"]
  | EnumValueDefinition =>
      ["source"; "loc"; "description"; "name"; "directives"]
  | InputObjectTypeDefinition =>
      ["source"; "loc"; "description"; "name"; "directives"; "fields"]
  | SchemaExtension => ["source"; "loc"; "directives"; "operation_types"]
  | ScalarTypeExtension => ["source"; "loc"; "name"; "directives"]
  | ObjectTypeExtension =>
      ["source"; "loc"; "name"; "interfaces"; "directives"; "fields"]
  | InterfaceTypeExtension =>
      ["source"; "loc"; "name"; "directives"; "fields"]
  | UnionTypeExtension => ["source"; "loc"; "name"; "directives"; "types"]
  | EnumTypeExtension => ["source"; "loc"; "name"; "directives"; "values"]
  | InputObjectTypeExtension =>
      ["source"; "loc"; "name"; "directives"; "fields"]
  | DirectiveDefinition =>
      ["source"; "loc"; "description"; "name"; "arguments"; "locations"]
  end.

Definition node_class_eqb (c1 c2 : node_class) : bool :=
  String.eqb (class_name c1) (class_name c2).

(** Attribute values that are neither nodes nor lists: [None], booleans,
    strings, integers and the [loc] pair. *)
Inductive prim : Type :=
| PNone
| PBool (b : bool)
| PStr (s : string)
| PInt (z : Z)
| PPair (a b : Z).

(** Python [==] on these values; [True == 1] and [False == 0] hold. *)
Definition prim_eqb (p q : prim) : bool :=
  match p, q with
  | PNone, PNone => true
  | PBool a, PBool b => Bool.eqb a b
  | PStr a, PStr b => String.eqb a b
  | PInt a, PInt b => (a =? b)%Z
  | PBool a, PInt b | PInt b, PBool a => ((if a then 1 else 0) =? b)%Z
  | PPair a1 b1, PPair a2 b2 => (a1 =? a2)%Z && (b1 =? b2)%Z
  | _, _ => false
  end.

(** A value held by an attribute.  A node is its class and its
    attributes, read by name as [getattr] does. *)
Inductive value : Type :=
| VPrim (p : prim)
| VList (l : list value)
| VNode (cls : node_class) (getattr : string -> value).

(** [Node._props]: the slots of the class, [source] left out. *)
Definition _props (cls : node_class) : list string :=
  List.filter (fun attr => negb (String.eqb attr "source")) (slots_of cls).

(** The result of [_node_to_dict]: a dict (in insertion order), a list or
    an untouched value. *)
Inductive dval : Type :=
| DPrim (p : prim)
| DList (l : list dval)
| DDict (items : list (string * dval)).

Fixpoint _node_to_dict (node : value) : dval :=
  match node with
  | VNode cls getattr =>
      DDict
        (dict_set "__kind__" (DPrim (PStr (class_name cls)))
           (fold_left
              (fun d attr => dict_set attr (_node_to_dict (getattr attr)) d)
              (_props cls) []))
  | VList l => DList (List.map _node_to_dict l)
  | VPrim p => DPrim p
  end.

Definition node_to_dict (node : value) : dval := _node_to_dict node.

(** [Node.to_dict] *)
Definition to_dict (node : value) : dval := node_to_dict node.

(** Python [==] on attribute values: [Node.__eq__] on nodes, the
    element-wise comparison of lists, and [prim_eqb]. *)
Fixpoint value_eq (lhs rhs : value) {struct lhs} : bool :=
  match lhs, rhs with
  | VPrim p, VPrim q => prim_eqb p q
  | VList l1, VList l2 =>
      (fix list_eq (l1 l2 : list value) {struct l1} : bool :=
         match l1, l2 with
         | [], [] => true
         | x :: l1', y :: l2' => value_eq x y && list_eq l1' l2'
         | _, _ => false
         end) l1 l2
  | VNode cls getattr, VNode cls' getattr' =>
      node_class_eqb cls' cls
      && forallb (fun attr => value_eq (getattr attr) (getattr' attr))
           (_props cls)
  | _, _ => false
  end.

(** No string occurs twice in the list. *)
Fixpoint distinct (l : list string) : bool :=
  match l with
  | [] => true
  | x :: rest => negb (existsb (String.eqb x) rest) && distinct rest
  end.

(** [setattr(node, attr, v)] *)
Definition setattr (getattr : string -> value) (attr : string) (v : value)
  : string -> value :=
  fun a => if String.eqb a attr then v else getattr a.

(** [Name(value, source, loc)], as an example of a constructor. *)
Definition mk_Name (v : string) (source : prim) (loc : prim) : value :=
  VNode Name (fun a =>
    if String.eqb a "value" then VPrim (PStr v)
    else if String.eqb a "source" then VPrim source
    else if String.eqb a "loc" then VPrim loc
    else VPrim PNone).

(** [NamedType(name, source, loc)] *)
Definition mk_NamedType (name : value) (source : prim) (loc : prim) : value :=
  VNode NamedType (fun a =>
    if String.eqb a "name" then name
    else if String.eqb a "source" then VPrim source
    else if String.eqb a "loc" then VPrim loc
    else VPrim PNone).

(** The parameters of [__init__] after [self], in the order of the
    signature. *)
Definition init_params (c : node_class) : list string :=
  match c with
  | Name => ["value"; "source"; "loc"]
  | NamedType => ["name"; "source"; "loc"]
  | ListType => ["type"; "source"; "loc"]
  | NonNullType => ["type"; "source"; "loc"]
  | Document => ["definitions"; "source"; "loc"]
  | OperationDefinition =>
      ["operation"; "selection_set"; "name"; "variable_definitions";
       "directives"; "source"; "loc"]
  | Variable_ => ["name"; "source"; "loc"]
  | VariableDefinition =>
      ["variable"; "type"; "default_value"; "source"; "loc"]
  | SelectionSet => ["selections"; "source"; "loc"]
  | Field =>
      ["name"; "alias"; "arguments"; "directives"; "selection_set";
       "source"; "loc"]
  | Argument => ["name"; "value"; "source"; "loc"]
  | FragmentSpread => ["name"; "directives"; "source"; "loc"]
  | InlineFragment =>
      ["selection_set"; "type_condition"; "directives"; "source"; "loc"]
  | FragmentDefinition =>
      ["name"; "type_condition"; "selection_set"; "variable_definitions";
       "directives"; "source"; "loc"]
  | IntValue => ["value"; "source"; "loc"]
  | FloatValue => ["value"; "source"; "loc"]
  | StringValue => ["value"; "block"; "source"; "loc"]
  | BooleanValue => ["value"; "source"; "loc"]
  | NullValue => ["source"; "loc"]
  | EnumValue => ["value"; "source"; "loc"]
  | ListValue => ["values"; "source"; "loc"]
  | ObjectValue => ["fields"; "source"; "loc"]
  | ObjectField => ["name"; "value"; "source"; "loc"]
  | Directive => ["name"; "arguments"; "source"; "loc"]
  | SchemaDefinition => ["directives"; "operation_types"; "source"; "loc"]
  | OperationTypeDefinition => ["operation"; "type"; "source"; "loc"]
  | ScalarTypeDefinition =>
      ["name"; "directives"; "source"; "loc"; "description"]
  | ObjectTypeDefinition =>
      ["name"; "interfaces"; "directives"; "fields"; "source"; "loc";
       "description"]
  | FieldDefinition =>
      ["name"; "type"; "arguments"; "directives"; "source"; "loc";
       "description"]
  | InputValueDefinition =>
      ["name"; "type"; "default_value"; "directives"; "source"; "loc";
       "description"]
  | InterfaceTypeDefinition =>
      ["name"; "directives"; "fields"; "source"; "loc"; "description"]
  | UnionTypeDefinition =>
      ["name"; "directives"; "types"; "source"; "loc"; "description"]
  | EnumTypeDefinition =>
      ["name"; "directives"; "values"; "source"; "loc"; "description"]
  | EnumValueDefinition =>
      ["name"; "directives"; "source"; "loc"; "description"]
  | InputObjectTypeDefinition =>
      ["name"; "directives"; "fields"; "source"; "loc"; "description"]
  | SchemaExtension => ["directives"; "operation_types"; "source"; "loc"]
  | ScalarTypeExtension => ["name"; "directives"; "source"; "loc"]
  | ObjectTypeExtension =>
      ["name"; "interfaces"; "directives"; "fields"; "source"; "loc"]
  | InterfaceTypeExtension =>
      ["name"; "directives"; "fields"; "source"; "loc"]
  | UnionTypeExtension => ["name"; "directives"; "types"; "source"; "loc"]
  | EnumTypeExtension => ["name"; "directives"; "values"; "source"; "loc"]
  | InputObjectTypeExtension =>
      ["name"; "directives"; "fields"; "source"; "loc"]
  | DirectiveDefinition =>
      ["name"; "arguments"; "locations"; "source"; "loc"; "description"]
  end.

(** The parameters of [__init__] that have no default. *)
Definition required_params (c : node_class) : list string :=
  match c with
  | Name => ["value"]
  | NamedType => ["name"]
  | ListType => ["type"]
  | NonNullType => ["type"]
  | Document => []
  | OperationDefinition => ["operation"; "selection_set"]
  | Variable_ => ["name"]
  | VariableDefinition => ["variable"; "type"]
  | SelectionSet => []
  | Field => ["name"]
  | Argument => ["name"; "value"]
  | FragmentSpread => ["name"]
  | InlineFragment => ["selection_set"]
  | FragmentDefinition => ["name"; "type_condition"; "selection_set"]
  | IntValue => ["value"]
  | FloatValue => ["value"]
  | StringValue => ["value"]
  | BooleanValue => ["value"]
  | NullValue => []
  | EnumValue => ["value"]
  | ListValue => ["values"]
  | ObjectValue => ["fields"]
  | ObjectField => ["name"; "value"]
  | Directive => ["name"]
  | SchemaDefinition => []
  | OperationTypeDefinition => ["operation"; "type"]
  | ScalarTypeDefinition => ["name"]
  | ObjectTypeDefinition => ["name"]
  | FieldDefinition => ["name"; "type"]
  | InputValueDefinition => ["name"; "type"]
  | InterfaceTypeDefinition => ["name"]
  | UnionTypeDefinition => ["name"]
  | EnumTypeDefinition => ["name"]
  | EnumValueDefinition => ["name"]
  | InputObjectTypeDefinition => ["name"]
  | SchemaExtension => []
  | ScalarTypeExtension => ["name"]
  | ObjectTypeExtension => ["name"]
  | InterfaceTypeExtension => ["name"]
  | UnionTypeExtension => ["name"]
  | EnumTypeExtension => ["name"]
  | InputObjectTypeExtension => ["name"]
  | DirectiveDefinition => ["name"]
  end.

(** The parameters [p] that [__init__] stores as [p or []]. *)
Definition list_params (c : node_class) : list string :=
  match c with
  | Name => []
  | NamedType => []
  | ListType => []
  | NonNullType => []
  | Document => ["definitions"]
  | OperationDefinition => ["variable_definitions"; "directives"]
  | Variable_ => []
  | VariableDefinition => []
  | SelectionSet => ["selections"]
  | Field => ["arguments"; "directives"]
  | Argument => []
  | FragmentSpread => ["directives"]
  | InlineFragment => ["directives"]
  | FragmentDefinition => ["variable_definitions"; "directives"]
  | IntValue => []
  | FloatValue => []
  | StringValue => []
  | BooleanValue => []
  | NullValue => []
  | EnumValue => []
  | ListValue => []
  | ObjectValue => ["fields"]
  | ObjectField => []
  | Directive => ["arguments"]
  | SchemaDefinition => ["directives"; "operation_types"]
  | OperationTypeDefinition => []
  | ScalarTypeDefinition => ["directives"]
  | ObjectTypeDefinition => ["interfaces"; "directives"; "fields"]
  | FieldDefinition => ["arguments"; "directives"]
  | InputValueDefinition => ["directives"]
  | InterfaceTypeDefinition => ["directives"; "fields"]
  | UnionTypeDefinition => ["directives"; "types"]
  | EnumTypeDefinition => ["directives"; "values"]
  | EnumValueDefinition => ["directives"]
  | InputObjectTypeDefinition => ["directives"; "fields"]
  | SchemaExtension => ["directives"; "operation_types"]
  | ScalarTypeExtension => ["directives"]
  | ObjectTypeExtension => ["interfaces"; "directives"; "fields"]
  | InterfaceTypeExtension => ["directives"; "fields"]
  | UnionTypeExtension => ["directives"; "types"]
  | EnumTypeExtension => ["directives"; "values"]
  | InputObjectTypeExtension => ["directives"; "fields"]
  | DirectiveDefinition => ["arguments"; "locations"]
  end.

(** The default of a parameter that has one: [None], except for
    [block=False] of [StringValue]. *)
Definition default_of (c : node_class) (p : string) : value :=
  match c with
  | StringValue =>
      if String.eqb p "block" then VPrim (PBool false) else VPrim PNone
  | _ => VPrim PNone
  end.

Definition member (k : string) (l : list string) : bool :=
  existsb (String.eqb k) l.

(** The truth value of an attribute value: [None], [False], [0], the
    empty string and the empty list are false; a node is true, the class
    defines neither [__bool__] nor [__len__]. *)
Definition truthy (v : value) : bool :=
  match v with
  | VPrim PNone => false
  | VPrim (PBool b) => b
  | VPrim (PStr s) => negb (String.eqb s EmptyString)
  | VPrim (PInt z) => negb (z =? 0)%Z
  | VPrim (PPair _ _) => true
  | VList [] => false
  | VList (_ :: _) => true
  | VNode _ _ => true
  end.

(** [v.attr] for an attribute the nodes have. *)
Definition attribute (v : value) (attr : string) : result value :=
  match v with
  | VNode _ getattr => Ok (getattr attr)
  | _ => Raise AttributeError
  end.

(** The call of a class with keyword arguments: the keywords are bound
    to the parameters (a keyword that is no parameter, or a required
    parameter that is missing, is a TypeError), then the body of
    [__init__] stores them; [Field] also stores [response_name]. *)
Definition __init__ (cls : node_class) (kwargs : list (string * value))
  : result value :=
  if negb (forallb (fun k => member k (init_params cls)) (dict_keys kwargs))
  then Raise TypeError
  else if negb (forallb (fun p => dict_in p kwargs) (required_params cls))
  then Raise TypeError
  else
    let arg p :=
      match dict_get p kwargs with
      | Some v => v
      | None => default_of cls p
      end in
    let stored p :=
      if member p (list_params cls) && negb (truthy (arg p))
      then VList [] else arg p in
    match cls with
    | Field =>
        (let* response_name :=
           if truthy (arg "alias") then attribute (arg "alias") "value"
           else attribute (arg "name") "value" in
         Ok (VNode cls (fun a =>
               if member a (init_params cls) then stored a
               else if String.eqb a "response_name" then response_name
               else VPrim PNone)))%py
    | _ =>
        Ok (VNode cls (fun a =>
              if member a (init_params cls) then stored a else VPrim PNone))
    end.

(** [Node.__getitem__] *)
Definition __getitem__ (cls : node_class) (getattr : string -> value)
  (key : string) : result value :=
  if negb (member key (slots_of cls)) then Raise KeyError
  else Ok (getattr key).

(** [Node.__copy__]: the slots of a class are pairwise distinct, so the
    dict comprehension has one item per slot, in their order. *)
Definition __copy__ (cls : node_class) (getattr : string -> value)
  : result value :=
  __init__ cls (List.map (fun k => (k, getattr k)) (slots_of cls)).

(** [copy.deepcopy] on attribute values: [Node.__deepcopy__] on a node,
    element by element on a list, the value itself otherwise. *)
Fixpoint deepcopy (v : value) : result value :=
  match v with
  | VPrim p => Ok (VPrim p)
  | VList l =>
      (let* l' := comprehension deepcopy l in
       Ok (VList l'))%py
  | VNode cls getattr =>
      (let* kwargs :=
         comprehension
           (fun k => let* v' := deepcopy (getattr k) in Ok (k, v'))
           (slots_of cls) in
       __init__ cls kwargs)%py
  end.

(** A [Field] node is reachable from the value through slots and list
    elements. *)
Inductive contains_field : value -> Prop :=
| contains_field_here getattr : contains_field (VNode Field getattr)
| contains_field_attr cls getattr attr :
    In attr (slots_of cls) -> contains_field (getattr attr) ->
    contains_field (VNode cls getattr)
| contains_field_elem l x :
    In x l -> contains_field x -> contains_field (VList l).

(** Every attribute that [__init__] stores as [p or []] holds a list, in
    the node and below it. *)
Inductive lists_kept : value -> Prop :=
| lists_kept_prim p : lists_kept (VPrim p)
| lists_kept_list l :
    (forall x, In x l -> lists_kept x) -> lists_kept (VList l)
| lists_kept_node cls getattr :
    (forall attr, In attr (list_params cls) ->
                  exists l, getattr attr = VList l) ->
    (forall attr, In attr (slots_of cls) -> lists_kept (getattr attr)) ->
    lists_kept (VNode cls getattr).

End Ast.

(** ** [py_gql/schema/_schema_from_ast.py] *)
Module SchemaFromAst.
Local Open Scope string_scope.

(** *** The nodes of [lang/ast.py] the builder reads

    A description is kept as the [value] of its StringValue node; a default
    value and the arguments of a directive are kept as nodes. *)
Module _ast.

Inductive type_node : Type :=
| NamedType (name : string)
| ListType (type : type_node)
| NonNullType (type : type_node).

Record Directive : Type := mkDirective {
  d_name : string;
  d_arguments : list (string * Ast.value) }.

Record InputValueDefinition : Type := mkInputValueDefinition {
  ivd_description : option string;
  ivd_name : string;
  ivd_type : type_node;
  ivd_default_value : option Ast.value;
  ivd_directives : list Directive }.

Record FieldDefinition : Type := mkFieldDefinition {
  fd_description : option string;
  fd_name : string;
  fd_arguments : list InputValueDefinition;
  fd_type : type_node;
  fd_directives : list Directive }.

Record EnumValueDefinition : Type := mkEnumValueDefinition {
  evd_description : option string;
  evd_name : string;
  evd_directives : list Directive }.

Inductive TypeDefinition : Type :=
| ScalarTypeDefinition (description : option string) (name : string)
    (directives : list Directive)
| ObjectTypeDefinition (description : option string) (name : string)
    (interfaces : list type_node) (directives : list Directive)
    (fields : list FieldDefinition)
| InterfaceTypeDefinition (description : option string) (name : string)
    (directives : list Directive) (fields : list FieldDefinition)
| UnionTypeDefinition (description : option string) (name : string)
    (directives : list Directive) (types : list type_node)
| EnumTypeDefinition (description : option string) (name : string)
    (directives : list Directive) (values : list EnumValueDefinition)
| InputObjectTypeDefinition (description : option string) (name : string)
    (directives : list Directive) (fields : list InputValueDefinition).

Inductive TypeExtension : Type :=
| ScalarTypeExtension (name : string) (directives : list Directive)
| ObjectTypeExtension (name : string) (interfaces : list type_node)
    (directives : list Directive) (fields : list FieldDefinition)
| InterfaceTypeExtension (name : string) (directives : list Directive)
    (fields : list FieldDefinition)
| UnionTypeExtension (name : string) (directives : list Directive)
    (types : list type_node)
| EnumTypeExtension (name : string) (directives : list Directive)
    (values : list EnumValueDefinition)
| InputObjectTypeExtension (name : string) (directives : list Directive)
    (fields : list InputValueDefinition).

(** [opdef.type.name.value] is kept as [otd_type]. *)
Record OperationTypeDefinition : Type := mkOperationTypeDefinition {
  otd_operation : string;
  otd_type : string }.

Record SchemaDefinition : Type := mkSchemaDefinition {
  sd_directives : list Directive;
  sd_operation_types : list OperationTypeDefinition }.

Record DirectiveDefinition : Type := mkDirectiveDefinition {
  dd_description : option string;
  dd_name : string;
  dd_arguments : list InputValueDefinition;
  dd_locations : list string }.

(** The definitions of a document; [OtherDefinition] stands for the ones
    [_extract_type] passes over (operations, fragments, schema
    extensions). *)
Inductive definition : Type :=
| IsSchemaDefinition (d : SchemaDefinition)
| IsTypeDefinition (d : TypeDefinition)
| IsTypeExtension (d : TypeExtension)
| IsDirectiveDefinition (d : DirectiveDefinition)
| OtherDefinition.

(** [definition.name.value] *)
Definition def_name (d : TypeDefinition) : string :=
  match d with
  | ScalarTypeDefinition _ n _ => n
  | ObjectTypeDefinition _ n _ _ _ => n
  | InterfaceTypeDefinition _ n _ _ => n
  | UnionTypeDefinition _ n _ _ => n
  | EnumTypeDefinition _ n _ _ => n
  | InputObjectTypeDefinition _ n _ _ => n
  end.

Definition ext_name (e : TypeExtension) : string :=
  match e with
  | ScalarTypeExtension n _ => n
  | ObjectTypeExtension n _ _ _ => n
  | InterfaceTypeExtension n _ _ => n
  | UnionTypeExtension n _ _ => n
  | EnumTypeExtension n _ _ => n
  | InputObjectTypeExtension n _ _ => n
  end.

End _ast.

(** *** The objects of the [schema] package the builder creates

    Modelled from the spec: the classes of [py_gql.schema] are not part of
    the sources at hand; each object is kept as the arguments its
    constructor receives (section 3 of the specification: object types
    carry fields and an interface list, arguments and input fields share
    one shape, enum values have a name and a value).  [Ref] is the thunk
    [lambda: self._cache[type_name]] returned by [_TypeMapBuilder.ref]. *)
Module _schema.

Record EnumValue : Type := mkEnumValue {
  ev_name : string;
  ev_description : option string;
  ev_value : string;
  ev_deprecation_reason : option Ast.dval }.

Inductive type_ : Type :=
| ListType (of_type : type_)
| NonNullType (of_type : type_)
| Ref (type_name : string)
| ScalarType (name : string) (description : option string)
| ObjectType (name : string) (description : option string)
    (fields : list Field) (interfaces : list type_)
| InterfaceType (name : string) (description : option string)
    (fields : list Field)
| UnionType (name : string) (description : option string)
    (types : list type_)
| EnumType (name : string) (description : option string)
    (values : list EnumValue)
| InputObjectType (name : string) (description : option string)
    (fields : list InputField)
with Field : Type :=
| mkField (name : string) (type : type_) (description : option string)
    (args : option (list Argument)) (deprecation_reason : option Ast.dval)
with Argument : Type :=
| mkArgument (name : string) (type : type_) (description : option string)
    (default_value : option Ast.dval)
with InputField : Type :=
| mkInputField (name : string) (type : type_) (description : option string)
    (default_value : option Ast.dval).

Record Directive : Type := mkDirective {
  dir_name : string;
  dir_description : option string;
  dir_locations : list string;
  dir_args : option (list Argument) }.

(** [type.name]; wrapping types and thunks have no such attribute. *)
Definition name_of (t : type_) : result string :=
  match t with
  | ScalarType n _ | ObjectType n _ _ _ | InterfaceType n _ _
  | UnionType n _ _ | EnumType n _ _ | InputObjectType n _ _ => Ok n
  | ListType _ | NonNullType _ | Ref _ => Raise AttributeError
  end.

(** Modelled from the spec: the five built-in scalars ([Int], [Float],
    [String], [Boolean], [ID]) of [schema.scalars.SPECIFIED_SCALAR_TYPES]. *)
Definition SPECIFIED_SCALAR_TYPES : list type_ :=
  [ScalarType "Int" None; ScalarType "Float" None; ScalarType "String" None;
   ScalarType "Boolean" None; ScalarType "ID" None].

(** What [schema_from_ast] hands to [Schema(...)]. *)
Record Schema : Type := mkSchema {
  query_type : option type_;
  mutation_type : option type_;
  subscription_type : option type_;
  types : list type_;
  directives : list Directive }.

End _schema.

(** *** The definitions of a document, by category *)

Fixpoint schema_definitions (defs : list _ast.definition)
  : list _ast.SchemaDefinition :=
  match defs with
  | [] => []
  | _ast.IsSchemaDefinition d :: rest => d :: schema_definitions rest
  | _ :: rest => schema_definitions rest
  end.

Fixpoint type_definitions (defs : list _ast.definition)
  : list _ast.TypeDefinition :=
  match defs with
  | [] => []
  | _ast.IsTypeDefinition d :: rest => d :: type_definitions rest
  | _ :: rest => type_definitions rest
  end.

Fixpoint type_extensions (defs : list _ast.definition)
  : list _ast.TypeExtension :=
  match defs with
  | [] => []
  | _ast.IsTypeExtension d :: rest => d :: type_extensions rest
  | _ :: rest => type_extensions rest
  end.

Fixpoint directive_definitions (defs : list _ast.definition)
  : list _ast.DirectiveDefinition :=
  match defs with
  | [] => []
  | _ast.IsDirectiveDefinition d :: rest => d :: directive_definitions rest
  | _ :: rest => directive_definitions rest
  end.

(** The extensions of the type called [n], in document order. *)
Definition extensions_of (n : string) (defs : list _ast.definition)
  : list _ast.TypeExtension :=
  List.filter (fun e => String.eqb (_ast.ext_name e) n) (type_extensions defs).

(** A dict whose keys are computed from its values, in the order given. *)
Definition keyed {B} (key : B -> string) (l : list B) : list (string * B) :=
  List.map (fun x => (key x, x)) l.

(** *** [_extract_type] *)

Record extracted : Type := mkExtracted {
  schema_definition : option _ast.SchemaDefinition;
  types : list (string * _ast.TypeDefinition);
  extensions : gmap string (list _ast.TypeExtension);
  directives : list (string * _ast.DirectiveDefinition) }.

(** The body of the loop of [_extract_type], for one definition. *)
Definition extract_step (definition : _ast.definition) (st : extracted)
  : result extracted :=
  match definition with
  | _ast.IsSchemaDefinition d =>
      match schema_definition st with
      | Some _ => Raise (SDLError "Must provide only one schema definition")
      | None =>
          Ok (mkExtracted (Some d) (types st) (extensions st) (directives st))
      end
  | _ast.IsTypeDefinition d =>
      if dict_in (_ast.def_name d) (types st)
      then Raise (SDLError ("Duplicate type " ++ _ast.def_name d))
      else Ok (mkExtracted (schema_definition st)
                 (dict_set (_ast.def_name d) d (types st))
                 (extensions st) (directives st))
  | _ast.IsTypeExtension d =>
      Ok (mkExtracted (schema_definition st) (types st)
            (<[_ast.ext_name d :=
                  ((extensions st !!! _ast.ext_name d) ++ [d])%list]>
               (extensions st))
            (directives st))
  | _ast.IsDirectiveDefinition d =>
      if dict_in (_ast.dd_name d) (directives st)
      then Raise (SDLError ("Duplicate directive @" ++ _ast.dd_name d))
      else Ok (mkExtracted (schema_definition st) (types st) (extensions st)
                 (dict_set (_ast.dd_name d) d (directives st)))
  | _ast.OtherDefinition => Ok st
  end.

Fixpoint extract_loop (definitions : list _ast.definition) (st : extracted)
  : result extracted :=
  match definitions with
  | [] => Ok st
  | definition :: rest =>
      match extract_step definition st with
      | Ok st' => extract_loop rest st'
      | Raise e => Raise e
      end
  end.

Definition _extract_type (definitions : list _ast.definition)
  : result extracted :=
  extract_loop definitions (mkExtracted None [] ∅ []).

(** What the specification asks of the definitions still to be read, from
    the state [st] of the loop: at most one schema definition, and type and
    directive names that are new and pairwise distinct. *)
Definition no_duplicates (defs : list _ast.definition) (st : extracted) : Prop :=
  match schema_definition st with
  | Some _ => schema_definitions defs = []
  | None => (length (schema_definitions defs) <= 1)%nat
  end
  /\ NoDup (dict_keys (types st)
            ++ List.map _ast.def_name (type_definitions defs))%list
  /\ NoDup (dict_keys (directives st)
            ++ List.map _ast.dd_name (directive_definitions defs))%list.

(** The state [st'] is [st] with the definitions added, each category in
    document order. *)
Definition partitioned (defs : list _ast.definition) (st st' : extracted)
  : Prop :=
  schema_definition st'
  = match schema_definition st with
    | Some d => Some d
    | None => head (schema_definitions defs)
    end
  /\ types st' = (types st ++ keyed _ast.def_name (type_definitions defs))%list
  /\ (forall n, extensions st' !!! n
                = (extensions st !!! n ++ extensions_of n defs)%list)
  /\ directives st'
     = (directives st ++ keyed _ast.dd_name (directive_definitions defs))%list.

(** *** [_operation_types] *)

Definition to_upper (c : ascii) : ascii :=
  let n := nat_of_ascii c in
  if ((97 <=? n) && (n <=? 122))%nat then ascii_of_nat (n - 32) else c.

Definition to_lower (c : ascii) : ascii :=
  let n := nat_of_ascii c in
  if ((65 <=? n) && (n <=? 90))%nat then ascii_of_nat (n + 32) else c.

Fixpoint lower (s : string) : string :=
  match s with
  | EmptyString => EmptyString
  | String c rest => String (to_lower c) (lower rest)
  end.

(** [str.capitalize], on ASCII letters. *)
Definition capitalize (s : string) : string :=
  match s with
  | EmptyString => EmptyString
  | String c rest => String (to_upper c) (lower rest)
  end.

(** The loop over [schema_definition.operation_types]. *)
Fixpoint operation_types_loop (opdefs : list _ast.OperationTypeDefinition)
  (type_map : list (string * _schema.type_))
  (operation_types : list (string * option _schema.type_))
  : result (list (string * option _schema.type_)) :=
  match opdefs with
  | [] => Ok operation_types
  | opdef :: rest =>
      let type_name := _ast.otd_type opdef in
      let op := _ast.otd_operation opdef in
      if dict_in op operation_types
      then Raise (SDLError ("Can only define one " ++ op ++ " in schema"))
      else match dict_get type_name type_map with
           | None =>
               Raise (SDLError (op ++ " type " ++ type_name
                                ++ " not found in document"))
           | Some t =>
               operation_types_loop rest type_map
                 (dict_set op (Some t) operation_types)
           end
  end.

(** The values of the returned dict are types or [None]. *)
Definition _operation_types (schema_definition : option _ast.SchemaDefinition)
  (type_map : list (string * _schema.type_))
  : result (list (string * option _schema.type_)) :=
  match schema_definition with
  | None =>
      Ok (fold_left
            (fun d k => dict_set k (dict_get (capitalize k) type_map) d)
            ["query"; "mutation"; "subscription"] [])
  | Some sd => operation_types_loop (_ast.sd_operation_types sd) type_map []
  end.

(** [operation_types.get(k)]: a missing key and a [None] value both give
    [None]. *)
Definition get_operation_type (k : string)
  (operation_types : list (string * option _schema.type_))
  : option _schema.type_ :=
  match dict_get k operation_types with
  | Some t => t
  | None => None
  end.

(** *** [_TypeMapBuilder]

    The builder object is its two mutable attributes; the top of [_stack]
    is the head of the list.  [_type_nodes] and [_extension_nodes] are not
    changed after [__init__] (reading a missing key of the defaultdict adds
    an empty list, which no later read can tell from the default). *)
Record builder : Type := mkBuilder {
  _cache : gmap string _schema.type_;
  _stack : list string }.

Definition M (A : Type) : Type := builder -> result (A * builder).

Definition ret {A} (a : A) : M A := fun st => Ok (a, st).

Definition raise {A} (e : exn) : M A := fun _ => Raise e.

Definition mbind {A B} (m : M A) (k : A -> M B) : M B :=
  fun st =>
    match m st with
    | Ok (a, st') => k a st'
    | Raise e => Raise e
    end.

Definition lift {A} (r : result A) : M A :=
  fun st =>
    match r with
    | Ok a => Ok (a, st)
    | Raise e => Raise e
    end.

Notation "'let!' x := c1 'in' c2" := (mbind c1 (fun x => c2))
  (at level 10, x pattern, c1 at level 100, c2 at level 200).

(** A list comprehension whose element expression runs in the builder. *)
Fixpoint map_m {A B} (f : A -> M B) (l : list A) : M (list B) :=
  match l with
  | [] => ret []
  | x :: rest =>
      let! y := f x in
      let! ys := map_m f rest in
      ret (y :: ys)
  end.

Definition push (type_name : string) : M unit :=
  fun st => Ok (tt, mkBuilder (_cache st) (type_name :: _stack st)).

(** [self._stack.pop()] *)
Definition pop : M unit :=
  fun st =>
    match _stack st with
    | [] => Raise IndexError
    | _ :: rest => Ok (tt, mkBuilder (_cache st) rest)
    end.

Definition cache_set (type_name : string) (t : _schema.type_) : M unit :=
  fun st => Ok (tt, mkBuilder (<[type_name := t]> (_cache st)) (_stack st)).

(** [self._cache[type_name]] *)
Definition cache_get (type_name : string) : M _schema.type_ :=
  fun st =>
    match _cache st !! type_name with
    | Some t => Ok (t, st)
    | None => Raise KeyError
    end.

(** [sys.getrecursionlimit()], the depth at which Python gives up. *)
Definition recursion_limit : nat := 1000.

Section Builder.

(** Two functions of the [utilities] package the builder calls:
    [typed_value_from_ast(node, type)] and
    [directive_arguments(DeprecatedDirective, node, {})], the latter given the
    directives of the node. *)
Context (typed_value_from_ast : Ast.value -> _schema.type_ -> result Ast.dval).
Context (directive_arguments :
           list _ast.Directive -> result (option (list (string * Ast.dval)))).

Context (_type_nodes : list (string * _ast.TypeDefinition)).
Context (_extension_nodes : gmap string (list _ast.TypeExtension)).

Definition _deprecation_reason (directives : list _ast.Directive)
  : result (option Ast.dval) :=
  (let* args := directive_arguments directives in
   Ok match args with
      | Some (item :: items) => dict_get "reason" (item :: items)
      | _ => None
      end)%py.

Section OpenRecursion.

(** [self.build_type] applied to a type definition, as called from the
    branch for named types. *)
Context (build_type_of_definition : _ast.TypeDefinition -> M _schema.type_).

(** [build_type] on the nodes of a type reference. *)
Fixpoint build_type (type_node : _ast.type_node) : M _schema.type_ :=
  match type_node with
  | _ast.ListType type =>
      let! t := build_type type in ret (_schema.ListType t)
  | _ast.NonNullType type =>
      let! t := build_type type in ret (_schema.NonNullType t)
  | _ast.NamedType type_name =>
      fun st =>
        match _cache st !! type_name with
        | Some t => Ok (t, st)
        | None =>
            (let! _ := push type_name in
             match dict_get type_name _type_nodes with
             | None =>
                 raise (SDLError ("Type " ++ type_name
                                  ++ " not found in document"))
             | Some type_def =>
                 fun st' =>
                   if existsb (String.eqb type_name) (_stack st')
                   then Ok (_schema.Ref type_name, st')
                   else (let! t := build_type_of_definition type_def in
                         let! _ := cache_set type_name t in
                         let! _ := pop in
                         cache_get type_name) st'
             end) st
        end
  end.

Definition argument (node : _ast.InputValueDefinition) : M _schema.Argument :=
  let! type := build_type (_ast.ivd_type node) in
  match _ast.ivd_default_value node with
  | Some default_value =>
      let! v := lift (typed_value_from_ast default_value type) in
      ret (_schema.mkArgument (_ast.ivd_name node) type
             (_ast.ivd_description node) (Some v))
  | None =>
      ret (_schema.mkArgument (_ast.ivd_name node) type
             (_ast.ivd_description node) None)
  end.

Definition input_field (node : _ast.InputValueDefinition)
  : M _schema.InputField :=
  let! type := build_type (_ast.ivd_type node) in
  match _ast.ivd_default_value node with
  | Some default_value =>
      let! v := lift (typed_value_from_ast default_value type) in
      ret (_schema.mkInputField (_ast.ivd_name node) type
             (_ast.ivd_description node) (Some v))
  | None =>
      ret (_schema.mkInputField (_ast.ivd_name node) type
             (_ast.ivd_description node) None)
  end.

(** [[self.argument(arg) for arg in node.arguments] if node.arguments
    else None] *)
Definition arguments_or_none (arguments : list _ast.InputValueDefinition)
  : M (option (list _schema.Argument)) :=
  match arguments with
  | [] => ret None
  | _ => let! args := map_m argument arguments in ret (Some args)
  end.

Definition object_field (node : _ast.FieldDefinition) : M _schema.Field :=
  let! type := build_type (_ast.fd_type node) in
  let! args := arguments_or_none (_ast.fd_arguments node) in
  let! reason := lift (_deprecation_reason (_ast.fd_directives node)) in
  ret (_schema.mkField (_ast.fd_name node) type (_ast.fd_description node)
         args reason).

Definition enum_value (node : _ast.EnumValueDefinition) : M _schema.EnumValue :=
  let! reason := lift (_deprecation_reason (_ast.evd_directives node)) in
  ret (_schema.mkEnumValue (_ast.evd_name node) (_ast.evd_description node)
         (_ast.evd_name node) reason).

(** The loop over [self._extension_nodes[t.name]] of [object_type]; the
    fields and interfaces of [t] are the accumulators.  An extension
    without interfaces makes [t.interfaces.extend] receive [None]. *)
Fixpoint object_type_extend (name : string) (description : option string)
  (exts : list _ast.TypeExtension)
  (fields : list _schema.Field) (interfaces : list _schema.type_)
  : M _schema.type_ :=
  match exts with
  | [] => ret (_schema.ObjectType name description fields interfaces)
  | _ast.ObjectTypeExtension _ ext_interfaces _ ext_fields :: rest =>
      let! new_fields := map_m object_field ext_fields in
      match ext_interfaces with
      | [] => raise TypeError
      | _ =>
          let! new_interfaces := map_m build_type ext_interfaces in
          object_type_extend name description rest
            (fields ++ new_fields)%list (interfaces ++ new_interfaces)%list
      end
  | _ :: _ =>
      raise (SDLError
               ("Expected an ObjectTypeExtension node for ObjectType " ++ name))
  end.

Definition object_type (description : option string) (name : string)
  (interfaces : list _ast.type_node) (fields : list _ast.FieldDefinition)
  : M _schema.type_ :=
  let! t_fields := map_m object_field fields in
  let! t_interfaces := map_m build_type interfaces in
  object_type_extend name description (_extension_nodes !!! name)
    t_fields t_interfaces.

Fixpoint interface_type_extend (name : string) (description : option string)
  (exts : list _ast.TypeExtension) (fields : list _schema.Field)
  : M _schema.type_ :=
  match exts with
  | [] => ret (_schema.InterfaceType name description fields)
  | _ast.InterfaceTypeExtension _ _ ext_fields :: rest =>
      let! new_fields := map_m object_field ext_fields in
      interface_type_extend name description rest (fields ++ new_fields)%list
  | _ :: _ =>
      raise (SDLError
               ("Expected an InterfaceTypeExtension node for InterfaceType "
                ++ name))
  end.

Definition interface_type (description : option string) (name : string)
  (fields : list _ast.FieldDefinition) : M _schema.type_ :=
  let! t_fields := map_m object_field fields in
  interface_type_extend name description (_extension_nodes !!! name) t_fields.

(** The loop of [enum_type]: the test is against UnionTypeExtension, and
    [ext.values] is then read on the node that passed it. *)
Definition enum_type_extend (name : string) (description : option string)
  (exts : list _ast.TypeExtension) (values : list _schema.EnumValue)
  : M _schema.type_ :=
  match exts with
  | [] => ret (_schema.EnumType name description values)
  | _ast.UnionTypeExtension _ _ _ :: _ => raise AttributeError
  | _ :: _ =>
      raise (SDLError
               ("Expected an UnionTypeExtension node for UnionType " ++ name))
  end.

Definition enum_type (description : option string) (name : string)
  (values : list _ast.EnumValueDefinition) : M _schema.type_ :=
  let! t_values := map_m enum_value values in
  enum_type_extend name description (_extension_nodes !!! name) t_values.

Fixpoint union_type_extend (name : string) (description : option string)
  (exts : list _ast.TypeExtension) (types : list _schema.type_)
  : M _schema.type_ :=
  match exts with
  | [] => ret (_schema.UnionType name description types)
  | _ast.UnionTypeExtension _ _ ext_types :: rest =>
      let! new_types := map_m build_type ext_types in
      union_type_extend name description rest (types ++ new_types)%list
  | _ :: _ =>
      raise (SDLError
               ("Expected an UnionTypeExtension node for UnionType " ++ name))
  end.

Definition union_type (description : option string) (name : string)
  (types : list _ast.type_node) : M _schema.type_ :=
  let! t_types := map_m build_type types in
  union_type_extend name description (_extension_nodes !!! name) t_types.

(** [DefaultCustomScalar(name=..., description=...)] *)
Definition scalar_type (description : option string) (name : string)
  : M _schema.type_ :=
  ret (_schema.ScalarType name description).

Definition input_object_type (description : option string) (name : string)
  (fields : list _ast.InputValueDefinition) : M _schema.type_ :=
  let! t_fields := map_m input_field fields in
  ret (_schema.InputObjectType name description t_fields).

Definition type_from_definition (type_def : _ast.TypeDefinition)
  : M _schema.type_ :=
  match type_def with
  | _ast.ObjectTypeDefinition description name interfaces _ fields =>
      object_type description name interfaces fields
  | _ast.InterfaceTypeDefinition description name _ fields =>
      interface_type description name fields
  | _ast.EnumTypeDefinition description name _ values =>
      enum_type description name values
  | _ast.UnionTypeDefinition description name _ types =>
      union_type description name types
  | _ast.ScalarTypeDefinition description name _ =>
      scalar_type description name
  | _ast.InputObjectTypeDefinition description name _ fields =>
      input_object_type description name fields
  end.

(** [build_type] on a type definition. *)
Definition build_type_definition (type_node : _ast.TypeDefinition)
  : M _schema.type_ :=
  let type_name := _ast.def_name type_node in
  fun st =>
    match _cache st !! type_name with
    | Some t => Ok (t, st)
    | None =>
        (let! _ := push type_name in
         let! t := type_from_definition type_node in
         let! _ := cache_set type_name t in
         let! _ := pop in
         cache_get type_name) st
    end.

End OpenRecursion.

(** The recursion of [build_type] through type definitions, cut at
    [depth] nested calls. *)
Fixpoint build_type_at (depth : nat) (type_node : _ast.TypeDefinition)
  : M _schema.type_ :=
  match depth with
  | O => raise RecursionError
  | S depth' => build_type_definition (build_type_at depth') type_node
  end.

Definition build_types (type_nodes : list _ast.TypeDefinition)
  : M (list _schema.type_) :=
  map_m (build_type_at recursion_limit) type_nodes.

(** [{type.name: type for type in types}] *)
Fixpoint by_name (types : list _schema.type_)
  (d : list (string * _schema.type_)) : result (list (string * _schema.type_)) :=
  match types with
  | [] => Ok d
  | t :: rest =>
      (let* n := _schema.name_of t in by_name rest (dict_set n t d))%py
  end.

(** [_TypeMapBuilder.__call__] *)
Definition call : M (list (string * _schema.type_)) :=
  let! types := build_types (dict_values _type_nodes) in
  lift (by_name types []).

Definition build_directive (node : _ast.DirectiveDefinition)
  : M _schema.Directive :=
  let! args :=
    arguments_or_none (build_type_at recursion_limit) (_ast.dd_arguments node) in
  ret (_schema.mkDirective (_ast.dd_name node) (_ast.dd_description node)
         (_ast.dd_locations node) args).

Definition build_directives
  (directive_defs : list (string * _ast.DirectiveDefinition))
  : M (list (string * _schema.Directive)) :=
  let! built := map_m build_directive (dict_values directive_defs) in
  ret (fold_left (fun d dir => dict_set (_schema.dir_name dir) dir d) built []).

End Builder.

(** The definitions whose builder reads [self._extension_nodes]. *)
Definition reads_extensions (type_def : _ast.TypeDefinition) : bool :=
  match type_def with
  | _ast.ScalarTypeDefinition _ _ _ => false
  | _ast.InputObjectTypeDefinition _ _ _ _ => false
  | _ => true
  end.

(** Two runs of the builder that behave alike from every state. *)
Definition same_run {A} (m1 m2 : M A) : Prop := forall st, m1 st = m2 st.

(** Two results of the extraction that differ at most in the extensions
    recorded for the name [n]. *)
Definition same_but_extensions_of (n : string) (x x' : extracted) : Prop :=
  schema_definition x' = schema_definition x
  /\ types x' = types x
  /\ directives x' = directives x
  /\ forall k, k <> n -> extensions x' !!! k = extensions x !!! k.

(** [_TypeMapBuilder.__init__]: the cache starts with the known types, then
    the specified scalars. *)
Fixpoint cache_all (types : list _schema.type_)
  (cache : gmap string _schema.type_) : result (gmap string _schema.type_) :=
  match types with
  | [] => Ok cache
  | t :: rest =>
      (let* n := _schema.name_of t in cache_all rest (<[n := t]> cache))%py
  end.

Definition init (known_types : list _schema.type_) : result builder :=
  (let* cache := cache_all known_types ∅ in
   let* cache := cache_all _schema.SPECIFIED_SCALAR_TYPES cache in
   Ok (mkBuilder cache []))%py.

(** [schema_from_ast], from the definitions of the parsed document to the
    arguments of [Schema(...)].  The [resolve] attribute of fields and the
    final [schema.validate()] belong to the schema package and are not
    represented. *)
Definition schema_from_ast
  (typed_value_from_ast : Ast.value -> _schema.type_ -> result Ast.dval)
  (directive_arguments :
     list _ast.Directive -> result (option (list (string * Ast.dval))))
  (definitions : list _ast.definition) (known_types : list _schema.type_)
  : result _schema.Schema :=
  (let* x := _extract_type definitions in
   let* b := init known_types in
   let* (type_map, b) :=
     call typed_value_from_ast directive_arguments (types x) (extensions x) b in
   let* (directive_map, b) :=
     build_directives typed_value_from_ast directive_arguments (types x)
       (extensions x) (directives x) b in
   let* operation_types := _operation_types (schema_definition x) type_map in
   Ok (_schema.mkSchema
         (get_operation_type "query" operation_types)
         (get_operation_type "mutation" operation_types)
         (get_operation_type "subscription" operation_types)
         (dict_values type_map)
         (dict_values directive_map)))%py.

(** *** Sample documents *)

(** [enum E { A }], [extend enum E { B }] and [extend union E = U]. *)
Definition enum_E : _ast.definition :=
  _ast.IsTypeDefinition
    (_ast.EnumTypeDefinition None "E" []
       [_ast.mkEnumValueDefinition None "A" []]).

Definition extend_enum_E : _ast.definition :=
  _ast.IsTypeExtension
    (_ast.EnumTypeExtension "E" [] [_ast.mkEnumValueDefinition None "B" []]).

Definition extend_union_E : _ast.definition :=
  _ast.IsTypeExtension (_ast.UnionTypeExtension "E" [] [_ast.NamedType "U"]).

(** [type Query { now: Date }], [extend type Query { later: Date }] and
    [extend type Query implements I { later: Date }]. *)
Definition type_Query : _ast.definition :=
  _ast.IsTypeDefinition
    (_ast.ObjectTypeDefinition None "Query" [] []
       [_ast.mkFieldDefinition None "now" [] (_ast.NamedType "Date") []]).

Definition extend_type_Query : _ast.definition :=
  _ast.IsTypeExtension
    (_ast.ObjectTypeExtension "Query" [] []
       [_ast.mkFieldDefinition None "later" [] (_ast.NamedType "Date") []]).

Definition extend_type_Query_implements : _ast.definition :=
  _ast.IsTypeExtension
    (_ast.ObjectTypeExtension "Query" [_ast.NamedType "I"] []
       [_ast.mkFieldDefinition None "later" [] (_ast.NamedType "Date") []]).

(** [interface I { id: ID }] and [extend interface I { name: String }]. *)
Definition interface_I : _ast.definition :=
  _ast.IsTypeDefinition
    (_ast.InterfaceTypeDefinition None "I" []
       [_ast.mkFieldDefinition None "id" [] (_ast.NamedType "ID") []]).

Definition extend_interface_I : _ast.definition :=
  _ast.IsTypeExtension
    (_ast.InterfaceTypeExtension "I" []
       [_ast.mkFieldDefinition None "name" [] (_ast.NamedType "String") []]).

(** [union U = Query] and [extend union U = Query]. *)
Definition union_U : _ast.definition :=
  _ast.IsTypeDefinition
    (_ast.UnionTypeDefinition None "U" [] [_ast.NamedType "Query"]).

Definition extend_union_U : _ast.definition :=
  _ast.IsTypeExtension
    (_ast.UnionTypeExtension "U" [] [_ast.NamedType "Query"]).

(** [scalar Date] and [extend scalar Date @tz]. *)
Definition scalar_Date : _ast.definition :=
  _ast.IsTypeDefinition (_ast.ScalarTypeDefinition None "Date" []).

Definition extend_scalar_Date : _ast.definition :=
  _ast.IsTypeExtension
    (_ast.ScalarTypeExtension "Date" [_ast.mkDirective "tz" []]).

(** [input Point { x: Int }] and [extend input Point { y: Int }]. *)
Definition input_Point : _ast.definition :=
  _ast.IsTypeDefinition
    (_ast.InputObjectTypeDefinition None "Point" []
       [_ast.mkInputValueDefinition None "x" (_ast.NamedType "Int") None []]).

Definition extend_input_Point : _ast.definition :=
  _ast.IsTypeExtension
    (_ast.InputObjectTypeExtension "Point" []
       [_ast.mkInputValueDefinition None "y" (_ast.NamedType "Int") None []]).



(** Stand-ins for the two functions of the [utilities] package, for
    documents without default values and without directives. *)
Definition no_default : Ast.value -> _schema.type_ -> result Ast.dval :=
  fun _ _ => Ok (Ast.DPrim Ast.PNone).

Definition no_directive
  : list _ast.Directive -> result (option (list (string * Ast.dval))) :=
  fun _ => Ok None.

(** The name a type reference ends in, and the wrappers around it. *)
Fixpoint named_type_of (node : _ast.type_node) : string :=
  match node with
  | _ast.NamedType n => n
  | _ast.ListType t | _ast.NonNullType t => named_type_of t
  end.

Fixpoint wrap_like (node : _ast.type_node) (t : _schema.type_)
  : _schema.type_ :=
  match node with
  | _ast.NamedType _ => t
  | _ast.ListType inner => _schema.ListType (wrap_like inner t)
  | _ast.NonNullType inner => _schema.NonNullType (wrap_like inner t)
  end.

(** A run of the builder that, when it returns, has left the cache as it
    was and has only pushed names on the stack. *)
Definition keeps_cache {A} (m : M A) : Prop :=
  forall st a st', m st = Ok (a, st') ->
    _cache st' = _cache st
    /\ exists pushed, _stack st' = (pushed ++ _stack st)%list.

(** Whatever a run of the builder returns satisfies [P]. *)
Definition returns {A} (P : A -> Prop) (m : M A) : Prop :=
  forall st a st', m st = Ok (a, st') -> P a.

(** Every type in the cache is stored under its own name. *)
Definition named_cache (st : builder) : Prop :=
  forall k t, _cache st !! k = Some t -> _schema.name_of t = Ok k.

(** An object extension that lists at least one interface. *)
Definition is_object_extension_with_interfaces (e : _ast.TypeExtension)
  : bool :=
  match e with
  | _ast.ObjectTypeExtension _ (_ :: _) _ _ => true
  | _ => false
  end.

(** The fields an interface extension adds, and the types a union
    extension adds. *)
Definition is_interface_extension (e : _ast.TypeExtension) : bool :=
  match e with _ast.InterfaceTypeExtension _ _ _ => true | _ => false end.

Definition interface_extension_fields (e : _ast.TypeExtension)
  : list _ast.FieldDefinition :=
  match e with _ast.InterfaceTypeExtension _ _ fields => fields | _ => [] end.

Definition is_union_extension (e : _ast.TypeExtension) : bool :=
  match e with _ast.UnionTypeExtension _ _ _ => true | _ => false end.

Definition union_extension_types (e : _ast.TypeExtension)
  : list _ast.type_node :=
  match e with _ast.UnionTypeExtension _ _ types => types | _ => [] end.

End SchemaFromAst.

(** ** [py_gql/utilities/type_info.py] *)
Module TypeInfo.
Local Open Scope string_scope.

(** *** The schema the visitor reads

    Modelled from the spec: the classes and predicates of [py_gql.schema]
    are not part of the sources at hand.  Following sections 3 and 4.4 of
    the specification, a named type is known by its kind and its name
    (identity is by name inside one schema) and the schema holds what is
    attached to each name. *)
Inductive kind : Type :=
| ScalarType | ObjectType | InterfaceType | UnionType | EnumType
| InputObjectType.

Inductive gtype : Type :=
| Named (k : kind) (name : string)
| ListType (of_type : gtype)
| NonNullType (of_type : gtype).

Definition kind_eqb (a b : kind) : bool :=
  match a, b with
  | ScalarType, ScalarType | ObjectType, ObjectType
  | InterfaceType, InterfaceType | UnionType, UnionType
  | EnumType, EnumType | InputObjectType, InputObjectType => true
  | _, _ => false
  end.

Fixpoint gtype_eqb (a b : gtype) : bool :=
  match a, b with
  | Named k n, Named k' n' => kind_eqb k k' && String.eqb n n'
  | ListType a', ListType b' => gtype_eqb a' b'
  | NonNullType a', NonNullType b' => gtype_eqb a' b'
  | _, _ => false
  end.

(** Arguments and input fields share one shape. *)
Record InputValue : Type := mkInputValue {
  iv_name : string;
  iv_type : gtype }.

Record Field : Type := mkField {
  f_name : string;
  f_type : gtype;
  f_arguments : list InputValue }.

Record Directive : Type := mkDirective {
  d_name : string;
  d_arguments : list InputValue }.

Record EnumValue : Type := mkEnumValue { ev_name : string }.

Record Schema : Type := mkSchema {
  query_type : option gtype;
  mutation_type : option gtype;
  subscription_type : option gtype;
  types : gmap string gtype;
  directives : gmap string Directive;
  (** [field_map] of the object or interface type of that name *)
  field_map : string -> list (string * Field);
  (** [fields] of the input object type of that name *)
  input_fields : string -> list InputValue;
  (** the values of the enum type of that name *)
  enum_values : string -> list EnumValue }.

(** Output types: scalars, enums, objects, interfaces, unions and their
    wrappers; [None] is not one. *)
Fixpoint is_output (t : gtype) : bool :=
  match t with
  | Named InputObjectType _ => false
  | Named _ _ => true
  | ListType t' | NonNullType t' => is_output t'
  end.

Definition is_output_type (t : option gtype) : bool :=
  match t with Some t' => is_output t' | None => false end.

(** Input types: scalars, enums, input objects and their wrappers. *)
Fixpoint is_input (t : gtype) : bool :=
  match t with
  | Named (ScalarType | EnumType | InputObjectType) _ => true
  | Named _ _ => false
  | ListType t' | NonNullType t' => is_input t'
  end.

Definition is_input_type (t : option gtype) : bool :=
  match t with Some t' => is_input t' | None => false end.

(** [isinstance(t, GraphQLCompositeType)] *)
Definition is_composite (t : gtype) : bool :=
  match t with
  | Named (ObjectType | InterfaceType | UnionType) _ => true
  | _ => false
  end.

(** The named type under any number of wrappers. *)
Fixpoint unwrap_type (t : gtype) : gtype :=
  match t with
  | Named _ _ => t
  | ListType t' | NonNullType t' => unwrap_type t'
  end.

Definition nullable_type (t : gtype) : gtype :=
  match t with
  | NonNullType t' => t'
  | _ => t
  end.

(** [find_one(items, lambda a: a.name == name)] *)
Definition find_one (items : list InputValue) (name : string)
  : option InputValue :=
  List.find (fun a => String.eqb (iv_name a) name) items.

(** [schema.get_type_from_literal]; [None] stands for UnknownType. *)
Fixpoint get_type_from_literal (schema : Schema)
  (type_node : SchemaFromAst._ast.type_node) : option gtype :=
  match type_node with
  | SchemaFromAst._ast.NamedType name => types schema !! name
  | SchemaFromAst._ast.ListType t =>
      option_map ListType (get_type_from_literal schema t)
  | SchemaFromAst._ast.NonNullType t =>
      option_map NonNullType (get_type_from_literal schema t)
  end.

(** [enum.get_value(name)]; [None] stands for UnknownEnumValue. *)
Definition get_value (schema : Schema) (enum_name : string) (name : string)
  : option EnumValue :=
  List.find (fun v => String.eqb (ev_name v) name) (enum_values schema enum_name).

(** The three meta fields of [schema.introspection]. *)
Definition SCHEMA_INTROSPECTION_FIELD : Field :=
  mkField "__schema" (NonNullType (Named ObjectType "__Schema")) [].

Definition TYPE_INTROSPECTION_FIELD : Field :=
  mkField "__type" (Named ObjectType "__Type")
    [mkInputValue "name" (NonNullType (Named ScalarType "String"))].

Definition TYPE_NAME_INTROSPECTION_FIELD : Field :=
  mkField "__typename" (NonNullType (Named ScalarType "String")) [].

(** *** The nodes of a document, as the visitor sees them

    A node is the class that selects its handlers, with the attributes the
    handlers read, and its child nodes in visiting order.  [Other] stands
    for every class without a handler. *)
Module nodes.

Inductive kind : Type :=
| OperationDefinition (operation : string)
| SelectionSet
| Field (name : string)
| Directive (name : string)
| FragmentDefinition (type_condition : SchemaFromAst._ast.type_node)
| InlineFragment (type_condition : option SchemaFromAst._ast.type_node)
| VariableDefinition (type : SchemaFromAst._ast.type_node)
| Argument (name : string)
| ListValue
| ObjectField (name : string)
| EnumValue (value : string)
| Other.

Inductive node : Type :=
| Node (k : kind) (children : list node).

End nodes.

(** *** The visitor *)

(** The top of a stack is the head of its list. *)
Record TypeInfoVisitor : Type := mkVisitor {
  _type_stack : list (option gtype);
  _parent_type_stack : list (option gtype);
  _input_type_stack : list (option gtype);
  _field_stack : list (option Field);
  _input_value_def_stack : list (option InputValue);
  directive : option Directive;
  argument : option InputValue;
  enum_value : option EnumValue }.

(** [TypeInfoVisitor.__init__] *)
Definition init : TypeInfoVisitor := mkVisitor [] [] [] [] [] None None None.

(** [_peek(lst, count)], called with [count] 1 and 2: the entry [count]
    from the top, or the default [None]. *)
Definition _peek {T} (lst : list (option T)) (count : nat) : option T :=
  match nth_error lst (count - 1) with
  | Some x => x
  | None => None
  end.

Definition type (v : TypeInfoVisitor) : option gtype := _peek (_type_stack v) 1.

Definition parent_type (v : TypeInfoVisitor) : option gtype :=
  _peek (_parent_type_stack v) 1.

Definition input_type (v : TypeInfoVisitor) : option gtype :=
  _peek (_input_type_stack v) 1.

Definition parent_input_type (v : TypeInfoVisitor) : option gtype :=
  match _peek (_input_type_stack v) 2 with
  | Some (Named InputObjectType n) => Some (Named InputObjectType n)
  | _ => None
  end.

Definition field (v : TypeInfoVisitor) : option Field := _peek (_field_stack v) 1.


(** [lst.pop()] *)
Definition pop {T} (lst : list T) : result (list T) :=
  match lst with
  | [] => Raise IndexError
  | _ :: rest => Ok rest
  end.

Section Visitor.

Context (_schema : Schema).

(** The module-level [_get_field_def(schema, parent_type, field)] *)
Definition _get_field_def_of (parent_type : gtype) (name : string)
  : option Field :=
  let on_query_root :=
    match query_type _schema with
    | Some q => gtype_eqb parent_type q
    | None => false
    end in
  if on_query_root && String.eqb name (f_name SCHEMA_INTROSPECTION_FIELD)
  then Some SCHEMA_INTROSPECTION_FIELD
  else if on_query_root && String.eqb name (f_name TYPE_INTROSPECTION_FIELD)
  then Some TYPE_INTROSPECTION_FIELD
  else if is_composite parent_type
          && String.eqb name (f_name TYPE_NAME_INTROSPECTION_FIELD)
  then Some TYPE_NAME_INTROSPECTION_FIELD
  else match parent_type with
       | Named (ObjectType | InterfaceType) n =>
           dict_get name (field_map _schema n)
       | _ => None
       end.

(** The method [_get_field_def(node)] *)
Definition _get_field_def (v : TypeInfoVisitor) (name : string) : option Field :=
  match parent_type v with
  | Some p => _get_field_def_of p name
  | None => None
  end.

Definition _type_from_ast (type_node : SchemaFromAst._ast.type_node)
  : option gtype :=
  get_type_from_literal _schema type_node.

Definition push_type (t : option gtype) (v : TypeInfoVisitor) : TypeInfoVisitor :=
  mkVisitor (t :: _type_stack v) (_parent_type_stack v) (_input_type_stack v)
    (_field_stack v) (_input_value_def_stack v)
    (directive v) (argument v) (enum_value v).

Definition push_parent_type (t : option gtype) (v : TypeInfoVisitor)
  : TypeInfoVisitor :=
  mkVisitor (_type_stack v) (t :: _parent_type_stack v) (_input_type_stack v)
    (_field_stack v) (_input_value_def_stack v)
    (directive v) (argument v) (enum_value v).

Definition push_input_type (t : option gtype) (v : TypeInfoVisitor)
  : TypeInfoVisitor :=
  mkVisitor (_type_stack v) (_parent_type_stack v) (t :: _input_type_stack v)
    (_field_stack v) (_input_value_def_stack v)
    (directive v) (argument v) (enum_value v).

Definition push_field (f : option Field) (v : TypeInfoVisitor) : TypeInfoVisitor :=
  mkVisitor (_type_stack v) (_parent_type_stack v) (_input_type_stack v)
    (f :: _field_stack v) (_input_value_def_stack v)
    (directive v) (argument v) (enum_value v).

Definition push_input_value_def (d : option InputValue) (v : TypeInfoVisitor)
  : TypeInfoVisitor :=
  mkVisitor (_type_stack v) (_parent_type_stack v) (_input_type_stack v)
    (_field_stack v) (d :: _input_value_def_stack v)
    (directive v) (argument v) (enum_value v).

Definition set_directive (d : option Directive) (v : TypeInfoVisitor)
  : TypeInfoVisitor :=
  mkVisitor (_type_stack v) (_parent_type_stack v) (_input_type_stack v)
    (_field_stack v) (_input_value_def_stack v) d (argument v) (enum_value v).

Definition set_argument (a : option InputValue) (v : TypeInfoVisitor)
  : TypeInfoVisitor :=
  mkVisitor (_type_stack v) (_parent_type_stack v) (_input_type_stack v)
    (_field_stack v) (_input_value_def_stack v) (directive v) a (enum_value v).

Definition set_enum_value (e : option EnumValue) (v : TypeInfoVisitor)
  : TypeInfoVisitor :=
  mkVisitor (_type_stack v) (_parent_type_stack v) (_input_type_stack v)
    (_field_stack v) (_input_value_def_stack v) (directive v) (argument v) e.

Definition pop_type (v : TypeInfoVisitor) : result TypeInfoVisitor :=
  (let* s := pop (_type_stack v) in
   Ok (mkVisitor s (_parent_type_stack v) (_input_type_stack v)
         (_field_stack v) (_input_value_def_stack v)
         (directive v) (argument v) (enum_value v)))%py.

Definition pop_parent_type (v : TypeInfoVisitor) : result TypeInfoVisitor :=
  (let* s := pop (_parent_type_stack v) in
   Ok (mkVisitor (_type_stack v) s (_input_type_stack v)
         (_field_stack v) (_input_value_def_stack v)
         (directive v) (argument v) (enum_value v)))%py.

Definition pop_input_type (v : TypeInfoVisitor) : result TypeInfoVisitor :=
  (let* s := pop (_input_type_stack v) in
   Ok (mkVisitor (_type_stack v) (_parent_type_stack v) s
         (_field_stack v) (_input_value_def_stack v)
         (directive v) (argument v) (enum_value v)))%py.

Definition pop_field (v : TypeInfoVisitor) : result TypeInfoVisitor :=
  (let* s := pop (_field_stack v) in
   Ok (mkVisitor (_type_stack v) (_parent_type_stack v) (_input_type_stack v)
         s (_input_value_def_stack v)
         (directive v) (argument v) (enum_value v)))%py.

Definition pop_input_value_def (v : TypeInfoVisitor) : result TypeInfoVisitor :=
  (let* s := pop (_input_value_def_stack v) in
   Ok (mkVisitor (_type_stack v) (_parent_type_stack v) (_input_type_stack v)
         (_field_stack v) s
         (directive v) (argument v) (enum_value v)))%py.

Definition _leave_input_value (v : TypeInfoVisitor) : result TypeInfoVisitor :=
  (let* v := pop_input_type v in pop_input_value_def v)%py.

Definition enter_selection_set (v : TypeInfoVisitor) : TypeInfoVisitor :=
  let named_type := option_map unwrap_type (type v) in
  push_parent_type
    match named_type with
    | Some t => if is_composite t then Some t else None
    | None => None
    end v.

Definition leave_selection_set (v : TypeInfoVisitor) : result TypeInfoVisitor :=
  pop_parent_type v.

Definition enter_field (v : TypeInfoVisitor) (name : string) : TypeInfoVisitor :=
  let field_def := _get_field_def v name in
  let v := push_field field_def v in
  push_type
    match field_def with
    | Some f => if is_output (f_type f) then Some (f_type f) else None
    | None => None
    end v.

Definition leave_field (v : TypeInfoVisitor) : result TypeInfoVisitor :=
  (let* v := pop_type v in pop_field v)%py.

Definition enter_directive (v : TypeInfoVisitor) (name : string)
  : TypeInfoVisitor :=
  set_directive (directives _schema !! name) v.

Definition leave_directive (v : TypeInfoVisitor) : result TypeInfoVisitor :=
  Ok (set_directive None v).

Definition enter_operation_definition (v : TypeInfoVisitor) (operation : string)
  : TypeInfoVisitor :=
  let type_ :=
    if String.eqb operation "query" then query_type _schema
    else if String.eqb operation "mutation" then mutation_type _schema
    else if String.eqb operation "subscription" then subscription_type _schema
    else None in
  push_type
    match type_ with
    | Some (Named ObjectType n) => Some (Named ObjectType n)
    | _ => None
    end v.

Definition leave_operation_definition (v : TypeInfoVisitor)
  : result TypeInfoVisitor :=
  pop_type v.

Definition enter_fragment_definition (v : TypeInfoVisitor)
  (type_condition : SchemaFromAst._ast.type_node) : TypeInfoVisitor :=
  let type_ := _type_from_ast type_condition in
  push_type (if is_output_type type_ then type_ else None) v.

Definition leave_fragment_definition (v : TypeInfoVisitor)
  : result TypeInfoVisitor :=
  pop_type v.

Definition enter_inline_fragment (v : TypeInfoVisitor)
  (type_condition : option SchemaFromAst._ast.type_node) : TypeInfoVisitor :=
  match type_condition with
  | Some tc =>
      let type_ := _type_from_ast tc in
      push_type (if is_output_type type_ then type_ else None) v
  | None =>
      push_type (if is_output_type (type v) then type v else None) v
  end.

Definition leave_inline_fragment (v : TypeInfoVisitor) : result TypeInfoVisitor :=
  pop_type v.

Definition enter_variable_definition (v : TypeInfoVisitor)
  (type_node : SchemaFromAst._ast.type_node) : TypeInfoVisitor :=
  let type_ := _type_from_ast type_node in
  push_input_type (if is_input_type type_ then type_ else None) v.

Definition leave_variable_definition (v : TypeInfoVisitor)
  : result TypeInfoVisitor :=
  pop_input_type v.

Definition enter_argument (v : TypeInfoVisitor) (name : string)
  : TypeInfoVisitor :=
  let ctx_arguments :=
    match directive v with
    | Some d => Some (d_arguments d)
    | None => option_map f_arguments (field v)
    end in
  match ctx_arguments with
  | Some arguments =>
      let v := set_argument (find_one arguments name) v in
      let v := push_input_value_def (argument v) v in
      push_input_type
        match argument v with
        | Some a => if is_input (iv_type a) then Some (iv_type a) else None
        | None => None
        end v
  | None =>
      let v := set_argument None v in
      let v := push_input_type None v in
      push_input_value_def None v
  end.

Definition leave_argument (v : TypeInfoVisitor) : result TypeInfoVisitor :=
  _leave_input_value (set_argument None v).

Definition enter_list_value (v : TypeInfoVisitor) : TypeInfoVisitor :=
  let list_type := option_map nullable_type (input_type v) in
  let item_type :=
    match list_type with
    | Some (ListType t) => Some (unwrap_type (ListType t))
    | _ => None
    end in
  let v :=
    push_input_type
      match item_type with
      | Some t => if is_input t then Some t else None
      | None => None
      end v in
  push_input_value_def None v.

Definition leave_list_value (v : TypeInfoVisitor) : result TypeInfoVisitor :=
  _leave_input_value v.

Definition enter_object_field (v : TypeInfoVisitor) (name : string)
  : TypeInfoVisitor :=
  let object_type := option_map unwrap_type (input_type v) in
  match object_type with
  | Some (Named InputObjectType n) =>
      let field_def := find_one (input_fields _schema n) name in
      let v := push_input_value_def field_def v in
      push_input_type
        match field_def with
        | Some f => if is_input (iv_type f) then Some (iv_type f) else None
        | None => None
        end v
  | _ =>
      let v := push_input_type None v in
      push_input_value_def None v
  end.

Definition leave_object_field (v : TypeInfoVisitor) : result TypeInfoVisitor :=
  _leave_input_value v.

Definition enter_enum_value (v : TypeInfoVisitor) (value : string)
  : TypeInfoVisitor :=
  let enum := option_map unwrap_type (input_type v) in
  match enum with
  | Some (Named EnumType n) => set_enum_value (get_value _schema n value) v
  | _ => v
  end.

Definition leave_enum_value (v : TypeInfoVisitor) : result TypeInfoVisitor :=
  Ok (set_enum_value None v).

(** The dispatch of [DispatchingVisitor]: the handler named after the
    class of the node, nothing for a class without one. *)
Definition enter (k : nodes.kind) (v : TypeInfoVisitor) : TypeInfoVisitor :=
  match k with
  | nodes.OperationDefinition operation => enter_operation_definition v operation
  | nodes.SelectionSet => enter_selection_set v
  | nodes.Field name => enter_field v name
  | nodes.Directive name => enter_directive v name
  | nodes.FragmentDefinition tc => enter_fragment_definition v tc
  | nodes.InlineFragment tc => enter_inline_fragment v tc
  | nodes.VariableDefinition t => enter_variable_definition v t
  | nodes.Argument name => enter_argument v name
  | nodes.ListValue => enter_list_value v
  | nodes.ObjectField name => enter_object_field v name
  | nodes.EnumValue value => enter_enum_value v value
  | nodes.Other => v
  end.

Definition leave (k : nodes.kind) (v : TypeInfoVisitor) : result TypeInfoVisitor :=
  match k with
  | nodes.OperationDefinition _ => leave_operation_definition v
  | nodes.SelectionSet => leave_selection_set v
  | nodes.Field _ => leave_field v
  | nodes.Directive _ => leave_directive v
  | nodes.FragmentDefinition _ => leave_fragment_definition v
  | nodes.InlineFragment _ => leave_inline_fragment v
  | nodes.VariableDefinition _ => leave_variable_definition v
  | nodes.Argument _ => leave_argument v
  | nodes.ListValue => leave_list_value v
  | nodes.ObjectField _ => leave_object_field v
  | nodes.EnumValue _ => leave_enum_value v
  | nodes.Other => Ok v
  end.

(** Modelled from the spec: [lang.visitor.visit] is not part of the
    sources at hand.  Section 4.3: for each node the walker calls
    [enter(node)], recurses into the children in their fixed order, then
    calls [leave(node)]; the handlers of this visitor never ask to skip. *)
Fixpoint visit (n : nodes.node) (v : TypeInfoVisitor) : result TypeInfoVisitor :=
  match n with
  | nodes.Node k children =>
      (let* v :=
         (fix visit_all (children : list nodes.node) (v : TypeInfoVisitor)
            : result TypeInfoVisitor :=
            match children with
            | [] => Ok v
            | child :: rest => let* v := visit child v in visit_all rest v
            end) children (enter k v) in
       leave k v)%py
  end.

Fixpoint visit_all (children : list nodes.node) (v : TypeInfoVisitor)
  : result TypeInfoVisitor :=
  match children with
  | [] => Ok v
  | child :: rest => (let* v := visit child v in visit_all rest v)%py
  end.

End Visitor.

(** The five stacks of a visitor. *)
Definition stacks (v : TypeInfoVisitor) :=
  (_type_stack v, _parent_type_stack v, _input_type_stack v, _field_stack v,
   _input_value_def_stack v).

(** What a validation rule placed after this visitor sees: the class of
    each node, with the state of the visitor once it has entered the node,
    in visiting order. *)
Definition after {A} (r : result A) (default : A) : A :=
  match r with Ok a => a | Raise _ => default end.

Section Observe.

Context (_schema : Schema).

Fixpoint observe (n : nodes.node) (v : TypeInfoVisitor)
  : list (nodes.kind * TypeInfoVisitor) :=
  match n with
  | nodes.Node k children =>
      (k, enter _schema k v)
      :: (fix observe_all (children : list nodes.node) (v : TypeInfoVisitor)
            : list (nodes.kind * TypeInfoVisitor) :=
            match children with
            | [] => []
            | child :: rest =>
                (observe child v
                 ++ observe_all rest (after (visit _schema child v) v))%list
            end) children (enter _schema k v)
  end.

Fixpoint observe_all (children : list nodes.node)
  (v : TypeInfoVisitor) : list (nodes.kind * TypeInfoVisitor) :=
  match children with
  | [] => []
  | child :: rest =>
      (observe child v
       ++ observe_all rest (after (visit _schema child v) v))%list
  end.

End Observe.

Definition is_enum_value (k : nodes.kind) : bool :=
  match k with nodes.EnumValue _ => true | _ => false end.



(** A schema with a query root and an enum, and a document that asks for
    things the schema does not have:
    [query ($v: Missing) { nope(arg: [RED]) @unknown { deeper } }] followed
    by [fragment F on Missing { x }]. *)
Definition sample_schema : Schema :=
  mkSchema (Some (Named ObjectType "Query")) None None
    {["Query" := Named ObjectType "Query";
      "Color" := Named EnumType "Color"]}
    ∅
    (fun n => if String.eqb n "Query"
              then [("color", mkField "color" (Named EnumType "Color")
                                [mkInputValue "is" (Named EnumType "Color")])]
              else [])
    (fun _ => [])
    (fun n => if String.eqb n "Color" then [mkEnumValue "RED"] else []).

Definition malformed_document : nodes.node :=
  nodes.Node nodes.Other
    [nodes.Node (nodes.OperationDefinition "query")
       [nodes.Node (nodes.VariableDefinition
                      (SchemaFromAst._ast.NamedType "Missing")) [];
        nodes.Node nodes.SelectionSet
          [nodes.Node (nodes.Field "nope")
             [nodes.Node (nodes.Argument "arg")
                [nodes.Node nodes.ListValue
                   [nodes.Node (nodes.EnumValue "RED") []]];
              nodes.Node (nodes.Directive "unknown") [];
              nodes.Node nodes.SelectionSet
                [nodes.Node (nodes.Field "deeper") []]]]];
     nodes.Node (nodes.FragmentDefinition
                   (SchemaFromAst._ast.NamedType "Missing"))
       [nodes.Node nodes.SelectionSet [nodes.Node (nodes.Field "x") []]]].

Definition is_directive (k : nodes.kind) : bool :=
  match k with nodes.Directive _ => true | _ => false end.

Definition is_argument (k : nodes.kind) : bool :=
  match k with nodes.Argument _ => true | _ => false end.

(** What the three stacks of types are meant to hold: an output type on
    [_type_stack], a composite type on [_parent_type_stack], an input type
    on [_input_type_stack], or [None]. *)
Definition output_or_none (t : option gtype) : bool :=
  match t with Some t' => is_output t' | None => true end.

Definition composite_or_none (t : option gtype) : bool :=
  match t with Some t' => is_composite t' | None => true end.

Definition input_or_none (t : option gtype) : bool :=
  match t with Some t' => is_input t' | None => true end.

Definition well_kinded (v : TypeInfoVisitor) : Prop :=
  forallb output_or_none (_type_stack v) = true
  /\ forallb composite_or_none (_parent_type_stack v) = true
  /\ forallb input_or_none (_input_type_stack v) = true.

End TypeInfo.

(** * Properties *)

(** ** [lang/utils.py]: locations *)
Section Locations.
Import Utils.

Example index_to_loc_doctest :
  index_to_loc (Py.of_string "ab
cd
e") 3 = Ok (2%nat, 1%nat)
  /\ index_to_loc [] 42 = Raise IndexError
  /\ loc_to_index (Py.of_string "{") (1, 2) = Ok 1
  /\ loc_to_index (Py.of_string "ab
cd
e") (6, 7) = Raise IndexError.
Proof. repeat split; vm_compute; reflexivity. Qed.

Lemma index_to_loc_loop_line body : forall offset position lines cols,
  (lines + 1 <= fst (index_to_loc_loop body offset position lines cols))%nat
  /\ (1 <= snd (index_to_loc_loop body offset position lines cols))%nat.
Proof.
  induction body as [|ch rest IH]; intros offset position lines cols; simpl.
  - lia.
  - destruct (Z.of_nat offset =? position); simpl; [lia|].
    destruct (ch =? LF)%N.
    + specialize (IH (S offset) position (lines + 1)%nat 0%nat). lia.
    + specialize (IH (S offset) position lines (cols + 1)%nat). lia.
Qed.

(** Skipping the rest of a line that is not the wanted one. *)
Lemma loc_to_index_loop_skip_line total pre : forall rest index lineo col lines,
  forallb (fun c => negb (c =? LF)%N) pre = true ->
  lines <> lineo - 1 ->
  loc_to_index_loop total (pre ++ LF :: rest) index lineo col lines
  = loc_to_index_loop total rest (index + length pre + 1)%nat lineo col
      (lines + 1).
Proof.
  induction pre as [|ch pre IH]; intros rest index lineo col lines Hpre Hne;
    simpl.
  - destruct (Z.eqb_spec lines (lineo - 1)); [contradiction|].
    change (LF =? LF)%N with true. simpl.
    replace (index + 0 + 1)%nat with (S index) by lia. reflexivity.
  - simpl in Hpre. apply andb_prop in Hpre as [Hch Hpre].
    destruct (Z.eqb_spec lines (lineo - 1)); [contradiction|].
    apply negb_true_iff in Hch. rewrite Hch.
    rewrite IH by assumption. f_equal. lia.
Qed.

(** The two loops, the second standing at the start of the line the first
    is in: [pre] is the part of that line already read by the first. *)
Lemma loops_agree total rest : forall pre index0 lines k,
  forallb (fun c => negb (c =? LF)%N) pre = true ->
  (k <= length rest)%nat ->
  (index0 + length pre + k <= total)%nat ->
  (k < length rest)%nat \/ pre ++ rest <> [] /\ last (pre ++ rest) <> Some LF ->
  loc_to_index_loop total (pre ++ rest) index0
    (Z.of_nat (fst (index_to_loc_loop rest (index0 + length pre)
                      (Z.of_nat (index0 + length pre + k)) lines
                      (length pre))))
    (Z.of_nat (snd (index_to_loc_loop rest (index0 + length pre)
                      (Z.of_nat (index0 + length pre + k)) lines
                      (length pre))))
    (Z.of_nat lines)
  = Ok (Z.of_nat (index0 + length pre + k)).
Proof.
  induction rest as [|ch rest IH]; intros pre index0 lines k Hpre Hk Htot Hside.
  - simpl in Hk. assert (k = 0)%nat by lia. subst k.
    destruct Hside as [Hlt | [Hne Hlast]]; [simpl in Hlt; lia|].
    rewrite app_nil_r in *. simpl.
    destruct pre as [|c pre]; [congruence|]. simpl.
    replace (Z.of_nat lines =? Z.of_nat (lines + 1) - 1) with true
      by (symmetry; apply Z.eqb_eq; lia).
    replace (Z.of_nat index0 + Z.of_nat (S (length pre + 1)) - 1
             <=? Z.of_nat total) with true
      by (symmetry; apply Z.leb_le; simpl in Htot; lia).
    f_equal. simpl. lia.
  - destruct k as [|k].
    + simpl. rewrite Nat.add_0_r. rewrite Z.eqb_refl. simpl.
      destruct pre as [|c pre]; simpl.
      * replace (Z.of_nat lines =? Z.of_nat (lines + 1) - 1) with true
          by (symmetry; apply Z.eqb_eq; lia).
        replace (Z.of_nat index0 + Z.of_nat 1 - 1 <=? Z.of_nat total) with true
          by (symmetry; apply Z.leb_le; simpl in Htot; lia).
        f_equal. lia.
      * replace (Z.of_nat lines =? Z.of_nat (lines + 1) - 1) with true
          by (symmetry; apply Z.eqb_eq; lia).
        replace (Z.of_nat index0 + Z.of_nat (S (length pre + 1)) - 1
                 <=? Z.of_nat total) with true
          by (symmetry; apply Z.leb_le; simpl in Htot; lia).
        f_equal. lia.
    + cbn [index_to_loc_loop].
      replace (Z.of_nat (index0 + length pre)
               =? Z.of_nat (index0 + length pre + S k)) with false
        by (symmetry; apply Z.eqb_neq; lia).
      simpl in Hk. simpl in Htot.
      destruct (N.eqb_spec ch LF) as [->|Hch].
      * pose proof (index_to_loc_loop_line rest (S (index0 + length pre))
                      (Z.of_nat (index0 + length pre + S k)) (lines + 1)%nat
                      0%nat) as [Hl _].
        rewrite loc_to_index_loop_skip_line by (assumption || lia).
        specialize (IH [] (index0 + length pre + 1)%nat (lines + 1)%nat k).
        simpl in IH.
        replace (index0 + length pre + 1 + 0)%nat
          with (S (index0 + length pre)) in IH by lia.
        replace (index0 + length pre + 1 + 0 + k)%nat
          with (index0 + length pre + S k)%nat in IH by lia.
        replace (S (index0 + length pre) + k)%nat
          with (index0 + length pre + S k)%nat in IH by lia.
        replace (Z.of_nat lines + 1) with (Z.of_nat (lines + 1)) by lia.
        replace (index0 + length pre + 1)%nat
          with (S (index0 + length pre)) in * by lia.
        apply IH; [reflexivity | lia | lia |].
        destruct Hside as [Hlt | [Hne Hlast]]; [left; simpl in Hlt; lia|].
        destruct rest as [|c rest].
        -- exfalso. apply Hlast. apply last_snoc.
        -- right. split; [discriminate|].
           intros Hx. apply Hlast. rewrite last_app_cons, last_cons_cons.
           exact Hx.
      * specialize (IH (pre ++ [ch]) index0 lines k).
        rewrite <- app_assoc in IH. simpl in IH.
        rewrite length_app in IH. simpl in IH.
        replace (index0 + (length pre + 1))%nat
          with (S (index0 + length pre)) in IH by lia.
        replace (S (index0 + length pre) + k)%nat
          with (index0 + length pre + S k)%nat in IH by lia.
        apply IH; [| lia | lia |].
        -- rewrite forallb_app, Hpre. simpl.
           apply N.eqb_neq in Hch. rewrite Hch. reflexivity.
        -- destruct Hside as [Hlt | Hs]; [left; simpl in Hlt; lia | right; exact Hs].
Qed.

Lemma index_to_loc_nonempty body position :
  body <> [] ->
  index_to_loc body position
  = if Z.of_nat (length body) <? position then Raise IndexError
    else Ok (index_to_loc_loop body 0 position 0 0).
Proof.
  intros Hne. unfold index_to_loc.
  destruct body; [contradiction|]. destruct position; reflexivity.
Qed.

Lemma index_to_loc_in_range body position :
  0 <= position <= Z.of_nat (length body) ->
  exists line col,
    index_to_loc body position = Ok (line, col)
    /\ (1 <= line)%nat /\ (1 <= col)%nat.
Proof.
  intros Hp.
  destruct body as [|ch rest].
  - simpl in Hp. assert (position = 0) by lia. subst. exists 1%nat, 1%nat.
    repeat split; lia.
  - rewrite index_to_loc_nonempty by discriminate.
    destruct (Z.ltb_spec (Z.of_nat (length (ch :: rest))) position); [lia|].
    pose proof (index_to_loc_loop_line (ch :: rest) 0 position 0 0) as [H1 H2].
    destruct (index_to_loc_loop (ch :: rest) 0 position 0 0) as [l c] eqn:E.
    exists l, c. simpl in H1, H2. repeat split; lia.
Qed.

Lemma index_to_loc_out_of_range body position :
  Z.of_nat (length body) < position ->
  index_to_loc body position = Raise IndexError.
Proof.
  intros Hp. unfold index_to_loc.
  apply Z.ltb_lt in Hp. rewrite Hp.
  destruct body; [|reflexivity].
  destruct position; try reflexivity. discriminate.
Qed.

(** The round trip holds at every position but the end of a body whose
    last character is a line feed. *)
Lemma roundtrip_ok body position :
  0 <= position <= Z.of_nat (length body) ->
  position < Z.of_nat (length body) \/ last body <> Some LF ->
  roundtrip body position = Ok position.
Proof.
  intros Hp Hside. unfold roundtrip.
  destruct body as [|ch rest].
  - simpl in Hp. assert (position = 0) by lia. subst. reflexivity.
  - rewrite index_to_loc_nonempty by discriminate.
    destruct (Z.ltb_spec (Z.of_nat (length (ch :: rest))) position); [lia|].
    assert (Hk : position = Z.of_nat (0 + 0 + Z.to_nat position)) by lia.
    pose proof (loops_agree (length (ch :: rest)) (ch :: rest) [] 0%nat 0%nat
                  (Z.to_nat position)) as Hloops.
    simpl app in Hloops. change (length (@nil N)) with 0%nat in Hloops.
    rewrite <- Hk in Hloops.
    assert (Hgo : loc_to_index (ch :: rest)
                    (loc_of_nat (index_to_loc_loop (ch :: rest) 0 position 0 0))
                  = Ok position).
    { unfold loc_to_index, loc_of_nat. apply Hloops; [reflexivity | lia | lia |].
      destruct Hside as [Hlt | Hlast]; [left; lia | right].
      split; [discriminate | exact Hlast]. }
    exact Hgo.
Qed.

Lemma index_to_loc_loop_eof body : forall offset position lines cols,
  Z.of_nat (offset + length body) <= position ->
  fst (index_to_loc_loop body offset position lines cols)
  = (lines + count_lf body + 1)%nat.
Proof.
  unfold count_lf.
  induction body as [|ch rest IH]; intros offset position lines cols Hp; simpl.
  - lia.
  - simpl in Hp.
    destruct (Z.eqb_spec (Z.of_nat offset) position); [lia|].
    destruct (ch =? LF)%N; simpl; rewrite IH by lia; lia.
Qed.

Lemma loc_to_index_loop_not_found total body : forall index lineo col lines,
  lines + Z.of_nat (count_lf (removelast body)) < lineo - 1 ->
  loc_to_index_loop total body index lineo col lines = Raise IndexError.
Proof.
  unfold count_lf.
  induction body as [|ch rest IH]; intros index lineo col lines Hlt;
    [reflexivity|].
  cbn [loc_to_index_loop].
  destruct (Z.eqb_spec lines (lineo - 1)); [lia|].
  destruct rest as [|c rest].
  - destruct (ch =? LF)%N; reflexivity.
  - change (removelast (ch :: c :: rest)) with (ch :: removelast (c :: rest))
      in Hlt.
    remember (removelast (c :: rest)) as rl eqn:Erl.
    cbn [List.filter] in Hlt.
    destruct (ch =? LF)%N; apply IH; cbn [length] in Hlt; lia.
Qed.

(** C10 (the defect): at the end of any body whose last character is a
    line feed, [index_to_loc] returns the location of the empty last line
    and [loc_to_index] raises IndexError on that location, so the round
    trip does not give the position back. *)
Theorem roundtrip_fails_after_trailing_newline (b : Py.str) :
  Utils.index_to_loc (b ++ [Utils.LF]) (Z.of_nat (length (b ++ [Utils.LF])))
  = Ok ((Utils.count_lf b + 2)%nat, 1%nat)
  /\ Utils.roundtrip (b ++ [Utils.LF]) (Z.of_nat (length (b ++ [Utils.LF])))
     = Raise IndexError.
Proof.
  assert (Hloc : index_to_loc (b ++ [LF]) (Z.of_nat (length (b ++ [LF])))
                 = Ok ((count_lf b + 2)%nat, 1%nat)).
  { rewrite index_to_loc_nonempty by (destruct b; discriminate).
    destruct (Z.ltb_spec (Z.of_nat (length (b ++ [LF])))
                (Z.of_nat (length (b ++ [LF])))); [lia|].
    assert (Hgo : index_to_loc_loop (b ++ [LF]) 0
                    (Z.of_nat (length (b ++ [LF]))) 0 0
                  = ((count_lf b + 2)%nat, 1%nat)).
    { assert (Hgen : forall offset cols lines,
        index_to_loc_loop (b ++ [LF]) offset
          (Z.of_nat (offset + length (b ++ [LF]))) lines cols
        = ((lines + count_lf b + 2)%nat, 1%nat)).
      { unfold count_lf. induction b as [|ch b IH]; intros offset cols lines.
        - simpl. destruct (Z.eqb_spec (Z.of_nat offset) (Z.of_nat (offset + 1)));
            [lia|]. change (LF =? LF)%N with true. simpl.
          f_equal; lia.
        - simpl.
          destruct (Z.eqb_spec (Z.of_nat offset)
                      (Z.of_nat (offset + S (length (b ++ [LF]))))); [lia|].
          replace (offset + S (length (b ++ [LF])))%nat
            with (S offset + length (b ++ [LF]))%nat by lia.
          destruct (ch =? LF)%N; rewrite IH; simpl; f_equal; lia. }
      exact (Hgen 0%nat 0%nat 0%nat). }
    rewrite Hgo. reflexivity. }
  split; [exact Hloc|].
  unfold roundtrip. rewrite Hloc. simpl. unfold loc_to_index, loc_of_nat.
  simpl fst. simpl snd.
  destruct (b ++ [LF]) eqn:E; [destruct b; discriminate|]. rewrite <- E.
  apply loc_to_index_loop_not_found.
  rewrite removelast_last. lia.
Qed.

End Locations.

(** ** [lang/utils.py]: block strings *)
Section BlockStrings.
Import Utils.

Lemma length_drop_while {A} (p : A -> bool) (l : list A) :
  (length (drop_while p l) <= length l)%nat.
Proof.
  induction l as [|x l IH]; simpl; [lia|]. destruct (p x); simpl; lia.
Qed.

Lemma drop_while_nil_forallb {A} (p : A -> bool) (l : list A) :
  drop_while p l = [] <-> forallb p l = true.
Proof.
  induction l as [|x l IH]; simpl; [tauto|].
  destruct (p x); simpl; [exact IH|]. split; discriminate.
Qed.

(** The test [indent < len(line)] of the source says that the line is not
    blank. *)
Lemma indent_lt_length_not_blank (s : str) :
  (leading_whitespace s <? length s)%nat = negb (is_blank s).
Proof.
  unfold leading_whitespace, strip_leading_ws, is_blank.
  pose proof (length_drop_while is_space s) as Hle.
  pose proof (drop_while_nil_forallb is_space s) as Hnil.
  destruct (forallb is_space s) eqn:E; simpl.
  - destruct Hnil as [_ Hnil]. rewrite Hnil by reflexivity. simpl.
    apply Nat.ltb_ge. lia.
  - apply Nat.ltb_lt.
    destruct (drop_while is_space s) eqn:D.
    + destruct Hnil as [Hnil _]. specialize (Hnil eq_refl). discriminate.
    + simpl in *. lia.
Qed.

Lemma indent_loop_minimum rest : forall i acc,
  indent_loop (S i) rest acc
  = merge_indent acc
      (minimum (List.map leading_whitespace
                  (List.filter (fun l => negb (is_blank l)) rest))).
Proof.
  induction rest as [|line rest IH]; intros i acc.
  - destruct acc; reflexivity.
  - cbn [indent_loop Nat.eqb List.filter].
    rewrite indent_lt_length_not_blank.
    destruct (is_blank line); cbn [negb andb].
    + apply IH.
    + cbn [List.map minimum].
      set (m := minimum (List.map leading_whitespace
                           (List.filter (fun l => negb (is_blank l)) rest)))
        in *.
      destruct acc as [c|].
      * destruct (Nat.ltb_spec (leading_whitespace line) c);
          rewrite IH; destruct m; simpl; f_equal; lia.
      * rewrite IH. destruct m; reflexivity.
Qed.

Lemma indent_loop_common lines :
  match indent_loop 0 lines None with
  | Some n => n
  | None => 0%nat
  end = common_indent_of lines.
Proof.
  unfold common_indent_of. destruct lines as [|first others]; [reflexivity|].
  cbn [indent_loop Nat.eqb tl]. rewrite indent_loop_minimum. reflexivity.
Qed.

Lemma strip_loop_tail n others : forall i,
  strip_loop n (S i) others
  = List.map (fun l => if (n <=? length l)%nat then skipn n l else l) others.
Proof.
  induction others as [|l others IH]; intros i; [reflexivity|].
  cbn [strip_loop List.map]. rewrite IH.
  change (0 <? S i)%nat with true. rewrite andb_true_r. reflexivity.
Qed.

Lemma strip_loop_guarded n lines :
  strip_loop n 0 lines = strip_indent_guarded n lines.
Proof.
  destruct lines as [|first others]; [reflexivity|].
  cbn [strip_loop strip_indent_guarded]. rewrite strip_loop_tail.
  change (0 <? 0)%nat with false. rewrite andb_false_r. reflexivity.
Qed.

Lemma strip_indent_guarded_0 lines : strip_indent_guarded 0 lines = lines.
Proof.
  destruct lines as [|first others]; [reflexivity|]. simpl. f_equal.
  induction others as [|l others IH]; [reflexivity|]. simpl. f_equal. exact IH.
Qed.

(** C2: [parse_block_string] departs from the BlockStringValue algorithm
    that its docstring names and the claim words.  On the body
    "a\n    b\n  \n    c" the common indent is four; the algorithm removes
    it from every line after the first, which empties the third line, while
    the source leaves the two spaces of that line in the value. *)
Lemma block_string_short_blank_line_kept :
  Utils.parse_block_string (Py.of_string "a
    b
  
    c")
  = Py.of_string "a
b
  
c"
  /\ Utils.block_string_value (Py.of_string "a
    b
  
    c")
  = Py.of_string "a
b

c"
  /\ Utils.parse_block_string (Py.of_string "a
    b
  
    c")
  <> Utils.block_string_value (Py.of_string "a
    b
  
    c").
Proof.
  split; [vm_compute; reflexivity|].
  split; [vm_compute; reflexivity|].
  vm_compute. discriminate.
Qed.

(** What the source computes: [parse_block_string] splits the body into
    lines, takes as common indent the least leading-whitespace count of
    the non-blank lines after the first, removes that many characters from
    every line after the first that is at least that long (a shorter line
    is kept as it is), drops the blank lines at both ends and joins with a
    line feed; the body of the block string of the specification yields
    "hello\n  world". *)
Theorem parse_block_string_guarded :
  (forall raw : Py.str,
     Utils.parse_block_string raw = Utils.block_string_value_guarded raw)
  /\ Utils.parse_block_string (Py.of_string "
  hello
    world
  ") = Py.of_string "hello
  world".
Proof.
  split; [|vm_compute; reflexivity].
  intros raw. unfold parse_block_string, parse_block_string_with,
    block_string_value_guarded, pop_leading, pop_trailing, trim_blank_lines.
  rewrite <- indent_loop_common.
  destruct (indent_loop 0 (split_lines raw) None) as [[|c]|].
  - rewrite strip_indent_guarded_0. reflexivity.
  - rewrite strip_loop_guarded. reflexivity.
  - rewrite strip_indent_guarded_0. reflexivity.
Qed.

Lemma strip_indent_guarded_long n lines :
  Forall (fun l => (n <= length l)%nat) (tl lines) ->
  strip_indent_guarded n lines = strip_indent n lines.
Proof.
  destruct lines as [|first others]; [reflexivity|]. cbn [tl].
  intros Hlong. cbn [strip_indent_guarded strip_indent]. f_equal.
  induction Hlong as [|l others Hl _ IH]; [reflexivity|].
  cbn [List.map]. rewrite IH. apply Nat.leb_le in Hl. rewrite Hl.
  reflexivity.
Qed.

(** Where no line after the first is shorter than the common indent, the
    source computes the value of the algorithm. *)
Lemma parse_block_string_agrees (raw : Py.str) :
  Forall (fun l => (common_indent_of (split_lines raw) <= length l)%nat)
         (tl (split_lines raw)) ->
  parse_block_string raw = block_string_value raw.
Proof.
  intros Hlong. rewrite (proj1 parse_block_string_guarded raw).
  unfold block_string_value_guarded, block_string_value.
  rewrite (strip_indent_guarded_long _ _ Hlong). reflexivity.
Qed.

End BlockStrings.

(** ** [execution/middleware.py] *)
Section MiddlewareFacts.
Import Middleware.
Context {W A V : Type}.
Context (is_deferred : V -> bool).
Context (add_done_callback : V -> (W -> result unit * W) -> W -> W).

Lemma apply_middlewares_nested (func : fn) (mws : list (@middleware W A V)) :
  apply_middlewares is_deferred add_done_callback func mws
  = nested is_deferred add_done_callback func mws.
Proof.
  unfold apply_middlewares, nested.
  destruct mws as [|m mws]; [reflexivity|].
  rewrite <- fold_left_rev_right, rev_involutive. reflexivity.
Qed.



End MiddlewareFacts.



(** C8 (as the claim words it, refuted): a generator middleware that
    yields the plain value 1 and raises when it is resumed does not return
    1; the exception raised by the resumption leaves the wrapped
    middleware. *)
Lemma generator_middleware_resumption_raises :
  Middleware.next (Middleware.yield_then_raise_gen 1 (UserError "ValueError")) tt
  = Middleware.Yield 1 tt (Middleware.Gen (fun w =>
      Middleware.Throw (UserError "ValueError") w))
  /\ Middleware.as_callable (fun _ : Z => false) (fun _ _ w => w)
       (Middleware.yield_then_raise 1 (UserError "ValueError"))
       (Middleware.pure_fn (fun x : Z => x)) 0 tt
     = (Raise (UserError "ValueError"), tt)
  /\ fst (Middleware.as_callable (fun _ : Z => false) (fun _ _ w => w)
            (Middleware.yield_then_raise 1 (UserError "ValueError"))
            (Middleware.pure_fn (fun x : Z => x)) 0 tt)
     <> Ok 1.
Proof.
  split; [reflexivity|]. split; [reflexivity|]. simpl. discriminate.
Qed.

(** C8 (amended): if the generator of a generator middleware finishes
    without yielding, the wrapped middleware raises RuntimeError.  If it
    yields a deferred value, that value is the result and the callback
    registered on it resumes the generator once when it is run.  If it
    yields a plain value, the generator is resumed once at once; the value
    is the result unless that resumption raises, in which case the
    exception propagates. *)
Theorem generator_middleware_outcomes
  (W A V : Type) (is_deferred : V -> bool)
  (add_done_callback : V -> (W -> result unit * W) -> W -> W)
  (func : @Middleware.fn W A V -> A -> Middleware.generator W V)
  (step : @Middleware.fn W A V) (args : A) (w : W) :
  (forall w1,
      Middleware.next (func step args) w = Middleware.Return w1 ->
      Middleware.generator_middleware is_deferred add_done_callback func
        step args w = (Raise RuntimeError, w1))
  /\ (forall res w1 k,
      Middleware.next (func step args) w = Middleware.Yield res w1 k ->
      (is_deferred res = true ->
         Middleware.generator_middleware is_deferred add_done_callback func
           step args w
         = (Ok res, add_done_callback res (Middleware._finish k) w1)
         /\ forall w', snd (Middleware._finish k w')
                      = Middleware.world_of (Middleware.next k w'))
      /\ (is_deferred res = false ->
          (forall e w2, Middleware.next k w1 <> Middleware.Throw e w2) ->
          Middleware.generator_middleware is_deferred add_done_callback func
            step args w
          = (Ok res, Middleware.world_of (Middleware.next k w1)))
      /\ (is_deferred res = false ->
          forall e w2, Middleware.next k w1 = Middleware.Throw e w2 ->
          Middleware.generator_middleware is_deferred add_done_callback func
            step args w = (Raise e, w2))).
Proof.
  unfold Middleware.generator_middleware, Middleware._finish.
  split.
  - intros w1 ->. reflexivity.
  - intros res w1 k ->. split; [|split].
    + intros Hd. split; [rewrite Hd; reflexivity|].
      intros w'. destruct (Middleware.next k w'); reflexivity.
    + intros Hd Hno. rewrite Hd.
      destruct (Middleware.next k w1) as [v w2 k'|w2|e w2]; try reflexivity.
      exfalso. exact (Hno e w2 eq_refl).
    + intros Hd e w2 ->. rewrite Hd. reflexivity.
Qed.

Lemma generator_middleware_outcomes_witness :
  Middleware.generator_middleware (fun _ : Z => false) (fun _ _ w => w)
    (fun next_ x => Middleware.Gen (fun w =>
       match next_ x (w ++ ["start"%string]) with
       | (Ok v, w1) => Middleware.Yield v w1 Middleware.logging_rest
       | (Raise e, w1) => Middleware.Throw e w1
       end))
    (Middleware.pure_fn (fun x : Z => x)) 5 []
  = (Ok 5, ["start"%string; "end"%string]).
Proof.
  pose proof (generator_middleware_outcomes (list string) Z Z
                (fun _ => false) (fun _ _ w => w)
                (fun next_ x => Middleware.Gen (fun w =>
                   match next_ x (w ++ ["start"%string]) with
                   | (Ok v, w1) => Middleware.Yield v w1 Middleware.logging_rest
                   | (Raise e, w1) => Middleware.Throw e w1
                   end))
                (Middleware.pure_fn (fun x : Z => x)) 5 []) as [_ H].
  destruct (H 5 ["start"%string] Middleware.logging_rest eq_refl)
    as [_ [Hplain _]].
  apply Hplain; [reflexivity|]. intros e w2. simpl. discriminate.
Defined.

(** ** Insertion-ordered dicts *)
Section DictFacts.
Context {B : Type}.
Implicit Types (d : list (string * B)) (k : string).

Lemma dict_get_None k d : dict_get k d = None <-> ~ In k (dict_keys d).
Proof.
  induction d as [|[k' v'] d IH]; simpl; [tauto|].
  destruct (String.eqb_spec k k') as [->|Hne].
  - split; [discriminate | intros H; exfalso; apply H; left; reflexivity].
  - rewrite IH. split; [intros H [Heq|Hin]; [congruence | tauto] | tauto].
Qed.

Lemma dict_in_true k d : dict_in k d = true <-> In k (dict_keys d).
Proof.
  unfold dict_in. pose proof (dict_get_None k d) as H.
  destruct (dict_get k d).
  - split; [intros _ | reflexivity].
    destruct (in_dec string_dec k (dict_keys d)) as [Hin|Hnin]; [exact Hin|].
    apply H in Hnin. discriminate.
  - split; [discriminate|]. intros Hin. exfalso. apply H; [reflexivity | exact Hin].
Qed.

Lemma dict_in_false k d : dict_in k d = false <-> ~ In k (dict_keys d).
Proof.
  rewrite <- dict_in_true. destruct (dict_in k d); split; congruence.
Qed.

Lemma dict_set_new k (v : B) d :
  ~ In k (dict_keys d) -> dict_set k v d = d ++ [(k, v)].
Proof.
  induction d as [|[k' v'] d IH]; simpl; [reflexivity|].
  intros H. destruct (String.eqb_spec k k') as [->|Hne]; [tauto|].
  rewrite IH by tauto. reflexivity.
Qed.

Lemma dict_get_app k d1 d2 :
  dict_get k (d1 ++ d2)
  = match dict_get k d1 with Some v => Some v | None => dict_get k d2 end.
Proof.
  induction d1 as [|[k' v'] d1 IH]; simpl; [reflexivity|].
  destruct (String.eqb k k'); [reflexivity | exact IH].
Qed.

Lemma dict_keys_app d1 d2 : dict_keys (d1 ++ d2) = dict_keys d1 ++ dict_keys d2.
Proof. apply List.map_app. Qed.

End DictFacts.

Lemma dict_keys_keyed {B} (key : B -> string) (l : list B) :
  dict_keys (SchemaFromAst.keyed key l) = List.map key l.
Proof.
  unfold dict_keys, SchemaFromAst.keyed. rewrite List.map_map. reflexivity.
Qed.

Lemma dict_values_keyed {B} (key : B -> string) (l : list B) :
  dict_values (SchemaFromAst.keyed key l) = l.
Proof.
  unfold dict_values, SchemaFromAst.keyed. rewrite List.map_map. simpl.
  apply List.map_id.
Qed.

(** ** [lang/ast.py] *)
Section AstFacts.
Import Ast.
Local Open Scope string_scope.

Lemma class_name_inj c1 c2 : class_name c1 = class_name c2 -> c1 = c2.
Proof.
  intros H. destruct c1; destruct c2; (reflexivity || discriminate H).
Qed.

Lemma node_class_eqb_eq c1 c2 : node_class_eqb c1 c2 = true <-> c1 = c2.
Proof.
  unfold node_class_eqb. rewrite String.eqb_eq. split.
  - apply class_name_inj.
  - intros ->. reflexivity.
Qed.

Lemma props_distinct cls : distinct (_props cls) = true.
Proof. destruct cls; reflexivity. Qed.

Lemma props_no_kind cls : existsb (String.eqb "__kind__") (_props cls) = false.
Proof. destruct cls; reflexivity. Qed.

Lemma props_spec cls attr :
  In attr (_props cls) <-> In attr (slots_of cls) /\ attr <> "source".
Proof.
  unfold _props. rewrite List.filter_In, negb_true_iff, String.eqb_neq.
  reflexivity.
Qed.

Lemma dict_set_fresh {B} k (v : B) d :
  existsb (String.eqb k) (List.map fst d) = false ->
  dict_set k v d = (d ++ [(k, v)])%list.
Proof.
  induction d as [|[k' v'] d IH]; simpl; [reflexivity|].
  intros H. apply orb_false_elim in H as [Hk Hd].
  rewrite Hk, IH by exact Hd. reflexivity.
Qed.

Lemma fold_dict_set_distinct {B} (f : string -> B) keys : forall acc,
  distinct keys = true ->
  (forall k, In k keys -> existsb (String.eqb k) (List.map fst acc) = false) ->
  fold_left (fun d attr => dict_set attr (f attr) d) keys acc
  = (acc ++ List.map (fun attr => (attr, f attr)) keys)%list.
Proof.
  induction keys as [|k keys IH]; intros acc Hd Hacc; simpl.
  - rewrite app_nil_r. reflexivity.
  - simpl in Hd. apply andb_prop in Hd as [Hk Hd].
    apply negb_true_iff in Hk.
    rewrite dict_set_fresh by (apply Hacc; left; reflexivity).
    rewrite IH; [rewrite <- app_assoc; reflexivity | exact Hd |].
    intros k' Hin. rewrite List.map_app, existsb_app. simpl.
    rewrite (Hacc k') by (right; exact Hin). simpl.
    rewrite orb_false_r. apply String.eqb_neq. intros ->.
    assert (Hex : existsb (String.eqb k) keys = true).
    { apply existsb_exists. exists k. split; [exact Hin | apply String.eqb_refl]. }
    congruence.
Qed.

Lemma node_to_dict_items cls getattr :
  _node_to_dict (VNode cls getattr)
  = DDict (List.map (fun attr => (attr, _node_to_dict (getattr attr)))
                    (_props cls)
           ++ [("__kind__", DPrim (PStr (class_name cls)))])%list.
Proof.
  cbn [_node_to_dict].
  rewrite (fold_dict_set_distinct (fun attr => _node_to_dict (getattr attr)))
    by (apply props_distinct || (intros; reflexivity)).
  rewrite dict_set_fresh; [reflexivity|].
  cbn [app]. rewrite List.map_map. cbn [fst]. rewrite List.map_id.
  apply props_no_kind.
Qed.

Lemma prim_eqb_refl p : prim_eqb p p = true.
Proof.
  destruct p; simpl; auto using Bool.eqb_reflx, String.eqb_refl, Z.eqb_refl.
  rewrite !Z.eqb_refl. reflexivity.
Qed.

Lemma value_eq_refl : forall v, value_eq v v = true.
Proof.
  fix IH 1. intros [p|l|cls getattr].
  - apply prim_eqb_refl.
  - cbn [value_eq]. induction l as [|x l IHl]; [reflexivity|].
    rewrite IH, IHl. reflexivity.
  - cbn [value_eq]. apply andb_true_intro. split.
    + apply node_class_eqb_eq. reflexivity.
    + apply forallb_forall. intros attr _. apply IH.
Qed.

Lemma node_eq_spec cls getattr cls' getattr' :
  value_eq (VNode cls getattr) (VNode cls' getattr') = true
  <-> cls' = cls
      /\ forall attr, In attr (slots_of cls) -> attr <> "source" ->
                      value_eq (getattr attr) (getattr' attr) = true.
Proof.
  cbn [value_eq]. rewrite andb_true_iff, node_class_eqb_eq, forallb_forall.
  split; intros [Hc Ha]; (split; [exact Hc|]).
  - intros attr Hin Hne. apply Ha, props_spec. split; assumption.
  - intros attr Hin. apply props_spec in Hin as [Hin Hne]. apply Ha; assumption.
Qed.

(** C9: [node_to_dict] of a node is a dict with one item per slot of its
    class other than [source], each holding the converted attribute,
    followed by [__kind__] with the class name; lists are converted
    element by element and other values are kept; two nodes are equal
    exactly when they have the same class and equal attributes on every
    slot other than [source], so changing only [source] keeps a node equal
    to itself. *)
Theorem node_to_dict_and_equality :
  (forall cls getattr,
      Ast.to_dict (Ast.VNode cls getattr)
      = Ast.DDict
          (List.map (fun attr => (attr, Ast._node_to_dict (getattr attr)))
             (List.filter (fun attr => negb (String.eqb attr "source"))
                (Ast.slots_of cls))
           ++ [("__kind__", Ast.DPrim (Ast.PStr (Ast.class_name cls)))])%list)
  /\ (forall l, Ast.node_to_dict (Ast.VList l)
                = Ast.DList (List.map Ast._node_to_dict l))
  /\ (forall p, Ast.node_to_dict (Ast.VPrim p) = Ast.DPrim p)
  /\ (forall cls getattr cls' getattr',
      Ast.value_eq (Ast.VNode cls getattr) (Ast.VNode cls' getattr') = true
      <-> cls' = cls
          /\ forall attr, In attr (Ast.slots_of cls) -> attr <> "source" ->
                Ast.value_eq (getattr attr) (getattr' attr) = true)
  /\ (forall cls getattr s1 s2,
      Ast.value_eq (Ast.VNode cls (Ast.setattr getattr "source" s1))
                   (Ast.VNode cls (Ast.setattr getattr "source" s2)) = true).
Proof.
  split; [intros; apply node_to_dict_items|].
  split; [reflexivity|]. split; [reflexivity|].
  split; [intros; apply node_eq_spec|].
  intros cls getattr s1 s2. apply node_eq_spec. split; [reflexivity|].
  intros attr _ Hne. unfold setattr.
  apply String.eqb_neq in Hne. rewrite Hne. apply value_eq_refl.
Qed.

Example name_to_dict :
  Ast.to_dict (Ast.mk_NamedType
                 (Ast.mk_Name "Foo" (Ast.PStr "a.graphql") (Ast.PPair 5 8))
                 (Ast.PStr "a.graphql") (Ast.PPair 5 8))
  = Ast.DDict
      [("loc", Ast.DPrim (Ast.PPair 5 8));
       ("name", Ast.DDict [("loc", Ast.DPrim (Ast.PPair 5 8));
                           ("value", Ast.DPrim (Ast.PStr "Foo"));
                           ("__kind__", Ast.DPrim (Ast.PStr "Name"))]);
       ("__kind__", Ast.DPrim (Ast.PStr "NamedType"))].
Proof. reflexivity. Qed.

End AstFacts.

(** ** [schema/_schema_from_ast.py]: extraction *)
Section ExtractFacts.
Import SchemaFromAst.

Lemma NoDup_app_cons_assoc (keys : list string) k rest :
  NoDup ((keys ++ [k]) ++ rest) <-> NoDup (keys ++ k :: rest).
Proof. rewrite <- app_assoc. reflexivity. Qed.

Lemma NoDup_app_cons_In (keys : list string) k rest :
  In k keys -> ~ NoDup (keys ++ k :: rest).
Proof.
  intros Hin Hnd. apply NoDup_app in Hnd as (_ & Hdisj & _).
  apply (Hdisj k); [apply list_elem_of_In; exact Hin | left].
Qed.

Lemma NoDup_app_l (l1 l2 : list string) : NoDup (l1 ++ l2) -> NoDup l1.
Proof. intros H. apply NoDup_app in H as (H & _). exact H. Qed.

Lemma extract_loop_spec defs : forall st,
  NoDup (dict_keys (types st)) -> NoDup (dict_keys (directives st)) ->
  (no_duplicates defs st
   /\ exists st', extract_loop defs st = Ok st' /\ partitioned defs st st')
  \/ (~ no_duplicates defs st /\ is_sdl_error (extract_loop defs st) = true).
Proof.
  induction defs as [|d defs IH]; intros st Ht Hd.
  - left. split.
    + unfold no_duplicates. simpl. rewrite !app_nil_r.
      split; [destruct (schema_definition st); [reflexivity | lia] | tauto].
    + exists st. split; [reflexivity|]. unfold partitioned, extensions_of. simpl.
      rewrite !app_nil_r. repeat split; try reflexivity.
      * destruct (schema_definition st); reflexivity.
      * intros n. rewrite app_nil_r. reflexivity.
  - destruct d as [s|t|e|dd|]; cbn [extract_loop extract_step].
    + (* schema definition *)
      destruct (schema_definition st) as [s0|] eqn:Es.
      * right. split; [|reflexivity].
        unfold no_duplicates. rewrite Es. simpl. intros [H _]. discriminate.
      * set (st1 := mkExtracted (Some s) (types st) (extensions st)
                      (directives st)).
        destruct (IH st1 Ht Hd) as [[Hok (st' & Hrun & Hpart)] | [Hno Herr]].
        -- left. unfold no_duplicates in *. simpl in *. rewrite Es.
           destruct Hok as (Hs & Hok). rewrite Hs. split; [split; [simpl; lia | exact Hok]|].
           exists st'. split; [exact Hrun|].
           unfold partitioned in *. simpl in *. rewrite Es. simpl.
           destruct Hpart as (H1 & H2 & H3 & H4). repeat split; assumption.
        -- right. split; [|exact Herr]. intros Hok. apply Hno.
           unfold no_duplicates in *. simpl in *. rewrite Es in Hok.
           destruct Hok as (Hs & Hok). split; [|exact Hok].
           destruct (schema_definitions defs); [reflexivity | simpl in Hs; lia].
    + (* type definition *)
      destruct (dict_in (_ast.def_name t) (types st)) eqn:Ein.
      * right. split; [|reflexivity]. apply dict_in_true in Ein.
        unfold no_duplicates. simpl. intros (_ & H & _).
        exact (NoDup_app_cons_In _ _ _ Ein H).
      * apply dict_in_false in Ein.
        rewrite (dict_set_new _ t _ Ein).
        set (st1 := mkExtracted _ _ _ _).
        assert (Ht1 : NoDup (dict_keys (types st1))).
        { simpl. rewrite dict_keys_app. simpl. apply NoDup_app.
          split; [exact Ht|]. split; [|apply NoDup_singleton].
          intros x Hx Hx'. apply list_elem_of_singleton in Hx'. subst x.
          apply Ein, list_elem_of_In, Hx. }
        destruct (IH st1 Ht1 Hd) as [[Hok (st' & Hrun & Hpart)] | [Hno Herr]].
        -- left. unfold no_duplicates in *. simpl in *.
           rewrite dict_keys_app in Hok. simpl in Hok.
           rewrite NoDup_app_cons_assoc in Hok.
           split; [exact Hok|]. exists st'. split; [exact Hrun|].
           unfold partitioned in *. simpl in *.
           rewrite <- app_assoc in Hpart. exact Hpart.
        -- right. split; [|exact Herr]. intros Hok. apply Hno.
           unfold no_duplicates in *. simpl in *.
           rewrite dict_keys_app. simpl. rewrite NoDup_app_cons_assoc.
           exact Hok.
    + (* type extension *)
      set (st1 := mkExtracted _ _ _ _).
      destruct (IH st1 Ht Hd) as [[Hok (st' & Hrun & Hpart)] | [Hno Herr]].
      * left. split; [exact Hok|]. exists st'. split; [exact Hrun|].
        unfold partitioned in *. simpl in *.
        destruct Hpart as (H1 & H2 & H3 & H4).
        repeat split; try assumption.
        intros n. rewrite H3. unfold extensions_of. simpl.
        destruct (String.eqb_spec (_ast.ext_name e) n) as [->|Hne].
        -- rewrite lookup_total_insert_eq, <- app_assoc. reflexivity.
        -- rewrite lookup_total_insert_ne by exact Hne. reflexivity.
      * right. split; [exact Hno | exact Herr].
    + (* directive definition *)
      destruct (dict_in (_ast.dd_name dd) (directives st)) eqn:Ein.
      * right. split; [|reflexivity]. apply dict_in_true in Ein.
        unfold no_duplicates. simpl. intros (_ & _ & H).
        exact (NoDup_app_cons_In _ _ _ Ein H).
      * apply dict_in_false in Ein.
        rewrite (dict_set_new _ dd _ Ein).
        set (st1 := mkExtracted _ _ _ _).
        assert (Hd1 : NoDup (dict_keys (directives st1))).
        { simpl. rewrite dict_keys_app. simpl. apply NoDup_app.
          split; [exact Hd|]. split; [|apply NoDup_singleton].
          intros x Hx Hx'. apply list_elem_of_singleton in Hx'. subst x.
          apply Ein, list_elem_of_In, Hx. }
        destruct (IH st1 Ht Hd1) as [[Hok (st' & Hrun & Hpart)] | [Hno Herr]].
        -- left. unfold no_duplicates in *. simpl in *.
           rewrite dict_keys_app in Hok. simpl in Hok.
           rewrite NoDup_app_cons_assoc in Hok.
           split; [exact Hok|]. exists st'. split; [exact Hrun|].
           unfold partitioned in *. simpl in *.
           rewrite <- app_assoc in Hpart. exact Hpart.
        -- right. split; [|exact Herr]. intros Hok. apply Hno.
           unfold no_duplicates in *. simpl in *.
           rewrite dict_keys_app. simpl. rewrite NoDup_app_cons_assoc.
           exact Hok.
    + (* any other definition *)
      destruct (IH st Ht Hd) as [[Hok Hex] | [Hno Herr]];
        [left | right]; split; assumption.
Qed.

Lemma extract_type_spec defs :
  (no_duplicates defs (mkExtracted None [] ∅ [])
   /\ exists x, _extract_type defs = Ok x
               /\ partitioned defs (mkExtracted None [] ∅ []) x)
  \/ (~ no_duplicates defs (mkExtracted None [] ∅ [])
      /\ is_sdl_error (_extract_type defs) = true).
Proof. apply extract_loop_spec; simpl; apply NoDup_nil_2. Qed.

End ExtractFacts.

(** C5: extraction raises SDLError for a document with more than one
    schema definition, with two type definitions of one name or with two
    directive definitions of one name; for any other document it returns
    the schema definition if there is one, the type definitions keyed by
    name, the extensions grouped by name and the directive definitions
    keyed by name, each in document order. *)
Theorem extract_type_partition (defs : list SchemaFromAst._ast.definition) :
  ((2 <= length (SchemaFromAst.schema_definitions defs))%nat
   \/ ~ NoDup (List.map SchemaFromAst._ast.def_name
                 (SchemaFromAst.type_definitions defs))
   \/ ~ NoDup (List.map SchemaFromAst._ast.dd_name
                 (SchemaFromAst.directive_definitions defs)) ->
   is_sdl_error (SchemaFromAst._extract_type defs) = true)
  /\ ((length (SchemaFromAst.schema_definitions defs) <= 1)%nat ->
      NoDup (List.map SchemaFromAst._ast.def_name
               (SchemaFromAst.type_definitions defs)) ->
      NoDup (List.map SchemaFromAst._ast.dd_name
               (SchemaFromAst.directive_definitions defs)) ->
      exists x,
        SchemaFromAst._extract_type defs = Ok x
        /\ SchemaFromAst.schema_definition x
           = head (SchemaFromAst.schema_definitions defs)
        /\ SchemaFromAst.types x
           = SchemaFromAst.keyed SchemaFromAst._ast.def_name
               (SchemaFromAst.type_definitions defs)
        /\ (forall n, SchemaFromAst.extensions x !!! n
                      = SchemaFromAst.extensions_of n defs)
        /\ SchemaFromAst.directives x
           = SchemaFromAst.keyed SchemaFromAst._ast.dd_name
               (SchemaFromAst.directive_definitions defs)).
Proof.
  destruct (extract_type_spec defs) as [[Hok (x & Hrun & Hpart)] | [Hno Herr]].
  - split.
    + intros Hdup. exfalso. destruct Hok as (Hs & Ht & Hd). simpl in *.
      destruct Hdup as [H | [H | H]]; [lia | tauto | tauto].
    + intros _ _ _. exists x. split; [exact Hrun|].
      destruct Hpart as (H1 & H2 & H3 & H4). simpl in *.
      split; [exact H1|]. split; [exact H2|]. split; [|exact H4].
      intros n. rewrite H3, lookup_total_empty. reflexivity.
  - split; [intros _; exact Herr|].
    intros Hs Ht Hd. exfalso. apply Hno. repeat split; assumption.
Qed.

(** ** [schema/_schema_from_ast.py]: operation types *)
Section OperationTypesFacts.
Import SchemaFromAst.



End OperationTypesFacts.


(** ** [schema/_schema_from_ast.py]: the builder *)
Section BuilderFacts.
Import SchemaFromAst.
Local Open Scope string_scope.

Context (tv : Ast.value -> _schema.type_ -> result Ast.dval).
Context (da : list _ast.Directive
              -> result (option (list (string * Ast.dval)))).
Context (tn : list (string * _ast.TypeDefinition)).

Lemma mbind_ext {A B} (m1 m2 : M A) (k1 k2 : A -> M B) :
  same_run m1 m2 -> (forall a, same_run (k1 a) (k2 a)) ->
  same_run (mbind m1 k1) (mbind m2 k2).
Proof.
  intros Hm Hk st. unfold mbind. rewrite Hm.
  destruct (m2 st) as [[a st']|e]; [apply Hk | reflexivity].
Qed.

Lemma same_run_refl {A} (m : M A) : same_run m m.
Proof. intros st. reflexivity. Qed.

Lemma map_m_ext {A B} (f g : A -> M B) l :
  (forall x, In x l -> same_run (f x) (g x)) ->
  same_run (map_m f l) (map_m g l).
Proof.
  induction l as [|x l IH]; intros H; [apply same_run_refl|].
  cbn [map_m]. apply mbind_ext; [apply H; left; reflexivity|].
  intros y. apply mbind_ext; [|intros; apply same_run_refl].
  apply IH. intros x' Hin. apply H. right. exact Hin.
Qed.

(** The branch of [build_type] that builds the definition of a named type
    is never taken: the name has just been pushed on the stack, so the thunk
    is returned.  The result does not depend on how definitions are
    built. *)
Lemma build_type_rec rec1 rec2 t :
  same_run (build_type tn rec1 t) (build_type tn rec2 t).
Proof.
  induction t as [n|t IH|t IH]; cbn [build_type].
  - intros st. destruct (_cache st !! n); [reflexivity|].
    unfold mbind, push. cbn [_stack _cache].
    destruct (dict_get n tn); [|reflexivity].
    cbn [_stack existsb]. rewrite String.eqb_refl. reflexivity.
  - apply mbind_ext; [exact IH | intros; apply same_run_refl].
  - apply mbind_ext; [exact IH | intros; apply same_run_refl].
Qed.

Lemma argument_rec rec1 rec2 node :
  same_run (argument tv tn rec1 node) (argument tv tn rec2 node).
Proof.
  unfold argument. apply mbind_ext; [apply build_type_rec|].
  intros. apply same_run_refl.
Qed.

Lemma input_field_rec rec1 rec2 node :
  same_run (input_field tv tn rec1 node) (input_field tv tn rec2 node).
Proof.
  unfold input_field. apply mbind_ext; [apply build_type_rec|].
  intros. apply same_run_refl.
Qed.

Lemma arguments_or_none_rec rec1 rec2 args :
  same_run (arguments_or_none tv tn rec1 args)
           (arguments_or_none tv tn rec2 args).
Proof.
  unfold arguments_or_none. destruct args; [apply same_run_refl|].
  apply mbind_ext; [|intros; apply same_run_refl].
  apply map_m_ext. intros. apply argument_rec.
Qed.

Lemma object_field_rec rec1 rec2 node :
  same_run (object_field tv da tn rec1 node) (object_field tv da tn rec2 node).
Proof.
  unfold object_field. apply mbind_ext; [apply build_type_rec|].
  intros. apply mbind_ext; [apply arguments_or_none_rec|].
  intros. apply same_run_refl.
Qed.

Lemma object_type_extend_rec rec1 rec2 name desc exts :
  forall fields interfaces,
  same_run (object_type_extend tv da tn rec1 name desc exts fields interfaces)
           (object_type_extend tv da tn rec2 name desc exts fields interfaces).
Proof.
  induction exts as [|ext exts IH]; intros fields interfaces;
    [apply same_run_refl|].
  destruct ext; cbn [object_type_extend]; try apply same_run_refl.
  apply mbind_ext; [apply map_m_ext; intros; apply object_field_rec|].
  intros new_fields. destruct interfaces0; [apply same_run_refl|].
  apply mbind_ext; [apply map_m_ext; intros; apply build_type_rec|].
  intros. apply IH.
Qed.

Lemma interface_type_extend_rec rec1 rec2 name desc exts : forall fields,
  same_run (interface_type_extend tv da tn rec1 name desc exts fields)
           (interface_type_extend tv da tn rec2 name desc exts fields).
Proof.
  induction exts as [|ext exts IH]; intros fields; [apply same_run_refl|].
  destruct ext; cbn [interface_type_extend]; try apply same_run_refl.
  apply mbind_ext; [apply map_m_ext; intros; apply object_field_rec|].
  intros. apply IH.
Qed.

Lemma union_type_extend_rec rec1 rec2 name desc exts : forall types,
  same_run (union_type_extend tn rec1 name desc exts types)
           (union_type_extend tn rec2 name desc exts types).
Proof.
  induction exts as [|ext exts IH]; intros types; [apply same_run_refl|].
  destruct ext; cbn [union_type_extend]; try apply same_run_refl.
  apply mbind_ext; [apply map_m_ext; intros; apply build_type_rec|].
  intros. apply IH.
Qed.

(** A definition is built alike under two maps of extensions that agree
    on its name, or under any two maps when its builder reads none. *)
Lemma type_from_definition_ext exts1 exts2 rec1 rec2 d :
  (reads_extensions d = true ->
   exts1 !!! _ast.def_name d = exts2 !!! _ast.def_name d) ->
  same_run (type_from_definition tv da tn exts1 rec1 d)
           (type_from_definition tv da tn exts2 rec2 d).
Proof.
  intros H.
  destruct d; cbn [type_from_definition reads_extensions _ast.def_name] in *.
  - apply same_run_refl.
  - unfold object_type. rewrite (H eq_refl).
    apply mbind_ext; [apply map_m_ext; intros; apply object_field_rec|].
    intros. apply mbind_ext; [apply map_m_ext; intros; apply build_type_rec|].
    intros. apply object_type_extend_rec.
  - unfold interface_type. rewrite (H eq_refl).
    apply mbind_ext; [apply map_m_ext; intros; apply object_field_rec|].
    intros. apply interface_type_extend_rec.
  - unfold union_type. rewrite (H eq_refl).
    apply mbind_ext; [apply map_m_ext; intros; apply build_type_rec|].
    intros. apply union_type_extend_rec.
  - unfold enum_type. rewrite (H eq_refl). apply same_run_refl.
  - unfold input_object_type.
    apply mbind_ext; [apply map_m_ext; intros; apply input_field_rec|].
    intros. apply same_run_refl.
Qed.

Lemma build_type_at_ext exts1 exts2 n1 n2 d :
  (reads_extensions d = true ->
   exts1 !!! _ast.def_name d = exts2 !!! _ast.def_name d) ->
  same_run (build_type_at tv da tn exts1 (S n1) d)
           (build_type_at tv da tn exts2 (S n2) d).
Proof.
  intros H st. cbn [build_type_at]. unfold build_type_definition.
  destruct (_cache st !! _ast.def_name d); [reflexivity|].
  apply mbind_ext; [apply same_run_refl|]. intros _.
  apply mbind_ext; [apply type_from_definition_ext, H|].
  intros. apply same_run_refl.
Qed.

Lemma call_ext exts1 exts2 :
  (forall d, In d (dict_values tn) -> reads_extensions d = true ->
             exts1 !!! _ast.def_name d = exts2 !!! _ast.def_name d) ->
  same_run (call tv da tn exts1) (call tv da tn exts2).
Proof.
  intros H. unfold call, build_types, recursion_limit.
  apply mbind_ext; [|intros; apply same_run_refl].
  apply map_m_ext. intros d Hin. apply build_type_at_ext, H, Hin.
Qed.

Lemma build_directives_ext exts1 exts2 defs :
  same_run (build_directives tv da tn exts1 defs)
           (build_directives tv da tn exts2 defs).
Proof.
  unfold build_directives. apply mbind_ext; [|intros; apply same_run_refl].
  apply map_m_ext. intros d _. unfold build_directive.
  apply mbind_ext; [apply arguments_or_none_rec | intros; apply same_run_refl].
Qed.

End BuilderFacts.

(** ** [schema/_schema_from_ast.py]: extensions *)
Section ExtensionFacts.
Import SchemaFromAst.
Local Open Scope string_scope.

Lemma extract_step_rel n d x x' :
  same_but_extensions_of n x x' ->
  match extract_step d x with
  | Ok y =>
      exists y', extract_step d x' = Ok y' /\ same_but_extensions_of n y y'
  | Raise e => extract_step d x' = Raise e
  end.
Proof.
  intros (H1 & H2 & H3 & H4).
  destruct d as [s|t|e|dd|]; cbn [extract_step]; rewrite ?H1, ?H2, ?H3.
  - destruct (schema_definition x); [reflexivity|].
    eexists. split; [reflexivity|]. repeat split; assumption.
  - destruct (dict_in (_ast.def_name t) (types x)); [reflexivity|].
    eexists. split; [reflexivity|]. repeat split; assumption.
  - eexists. split; [reflexivity|]. repeat split; try assumption.
    cbn [extensions]. intros k Hk.
    destruct (String.eqb_spec (_ast.ext_name e) k) as [->|Hne].
    + rewrite !lookup_total_insert_eq, (H4 k Hk). reflexivity.
    + rewrite !lookup_total_insert_ne by exact Hne. apply H4, Hk.
  - destruct (dict_in (_ast.dd_name dd) (directives x)); [reflexivity|].
    eexists. split; [reflexivity|]. repeat split; assumption.
  - exists x'. split; [reflexivity|]. repeat split; assumption.
Qed.

Lemma extract_loop_rel n defs : forall x x',
  same_but_extensions_of n x x' ->
  match extract_loop defs x with
  | Ok y =>
      exists y', extract_loop defs x' = Ok y' /\ same_but_extensions_of n y y'
  | Raise e => extract_loop defs x' = Raise e
  end.
Proof.
  induction defs as [|d defs IH]; intros x x' Hrel; cbn [extract_loop].
  - exists x'. split; [reflexivity | exact Hrel].
  - pose proof (extract_step_rel n d x x' Hrel) as Hstep.
    destruct (extract_step d x) as [y|e].
    + destruct Hstep as (y' & -> & Hrel'). apply IH, Hrel'.
    + rewrite Hstep. reflexivity.
Qed.

Lemma extract_loop_app l1 l2 st :
  extract_loop (l1 ++ l2) st
  = match extract_loop l1 st with
    | Ok st' => extract_loop l2 st'
    | Raise e => Raise e
    end.
Proof.
  revert st. induction l1 as [|d l1 IH]; intros st; [reflexivity|].
  cbn [app extract_loop]. destruct (extract_step d st); [apply IH | reflexivity].
Qed.

(** Adding one extension to a document changes the extraction only in the
    extensions recorded under its name. *)
Lemma extract_with_extension defs1 defs2 e :
  match _extract_type (defs1 ++ defs2) with
  | Ok x =>
      exists x',
        _extract_type (defs1 ++ _ast.IsTypeExtension e :: defs2) = Ok x'
        /\ same_but_extensions_of (_ast.ext_name e) x x'
  | Raise err =>
      _extract_type (defs1 ++ _ast.IsTypeExtension e :: defs2) = Raise err
  end.
Proof.
  unfold _extract_type. rewrite !extract_loop_app.
  destruct (extract_loop defs1 _) as [s|err]; [|reflexivity].
  cbn [extract_loop extract_step].
  apply extract_loop_rel. repeat split. cbn [extensions].
  intros k Hk. apply lookup_total_insert_ne. congruence.
Qed.

Lemma bind_ext {A B} (r : result A) (k1 k2 : A -> result B) :
  (forall a, k1 a = k2 a) -> Py.bind r k1 = Py.bind r k2.
Proof. intros H. destruct r; [apply H | reflexivity]. Qed.



End ExtensionFacts.

Example scalar_extension_build :
  SchemaFromAst.schema_from_ast SchemaFromAst.no_default
    SchemaFromAst.no_directive
    [SchemaFromAst.type_Query; SchemaFromAst.scalar_Date;
     SchemaFromAst.extend_scalar_Date] []
  = Ok (SchemaFromAst._schema.mkSchema
          (Some (SchemaFromAst._schema.ObjectType "Query" None
                   [SchemaFromAst._schema.mkField "now"
                      (SchemaFromAst._schema.Ref "Date") None None None] []))
          None None
          [SchemaFromAst._schema.ObjectType "Query" None
             [SchemaFromAst._schema.mkField "now"
                (SchemaFromAst._schema.Ref "Date") None None None] [];
           SchemaFromAst._schema.ScalarType "Date" None]
          []).
Proof. vm_compute. reflexivity. Qed.

(** The sibling builders apply an extension of their own kind. *)
Example interface_extension_applied :
  SchemaFromAst.schema_from_ast SchemaFromAst.no_default
    SchemaFromAst.no_directive
    [SchemaFromAst.interface_I; SchemaFromAst.extend_interface_I] []
  = Ok (SchemaFromAst._schema.mkSchema None None None
          [SchemaFromAst._schema.InterfaceType "I" None
             [SchemaFromAst._schema.mkField "id"
                (SchemaFromAst._schema.ScalarType "ID" None) None None None;
              SchemaFromAst._schema.mkField "name"
                (SchemaFromAst._schema.ScalarType "String" None) None None None]]
          []).
Proof. vm_compute. reflexivity. Qed.

Example union_extension_applied :
  SchemaFromAst.schema_from_ast SchemaFromAst.no_default
    SchemaFromAst.no_directive
    [SchemaFromAst.union_U; SchemaFromAst.extend_union_U;
     SchemaFromAst.type_Query; SchemaFromAst.scalar_Date] []
  = Ok (SchemaFromAst._schema.mkSchema
          (Some (SchemaFromAst._schema.ObjectType "Query" None
                   [SchemaFromAst._schema.mkField "now"
                      (SchemaFromAst._schema.Ref "Date") None None None] []))
          None None
          [SchemaFromAst._schema.UnionType "U" None
             [SchemaFromAst._schema.Ref "Query";
              SchemaFromAst._schema.Ref "Query"];
           SchemaFromAst._schema.ObjectType "Query" None
             [SchemaFromAst._schema.mkField "now"
                (SchemaFromAst._schema.Ref "Date") None None None] [];
           SchemaFromAst._schema.ScalarType "Date" None]
          []).
Proof. vm_compute. reflexivity. Qed.

(** An object extension that names an interface is applied; one without
    interfaces passes [None] to [list.extend]. *)
Example object_extension_with_interface_applied :
  SchemaFromAst.schema_from_ast SchemaFromAst.no_default
    SchemaFromAst.no_directive
    [SchemaFromAst.scalar_Date; SchemaFromAst.interface_I;
     SchemaFromAst.type_Query; SchemaFromAst.extend_type_Query_implements] []
  = Ok (SchemaFromAst._schema.mkSchema
          (Some (SchemaFromAst._schema.ObjectType "Query" None
                   [SchemaFromAst._schema.mkField "now"
                      (SchemaFromAst._schema.ScalarType "Date" None)
                      None None None;
                    SchemaFromAst._schema.mkField "later"
                      (SchemaFromAst._schema.ScalarType "Date" None)
                      None None None]
                   [SchemaFromAst._schema.InterfaceType "I" None
                      [SchemaFromAst._schema.mkField "id"
                         (SchemaFromAst._schema.ScalarType "ID" None)
                         None None None]]))
          None None
          [SchemaFromAst._schema.ScalarType "Date" None;
           SchemaFromAst._schema.InterfaceType "I" None
             [SchemaFromAst._schema.mkField "id"
                (SchemaFromAst._schema.ScalarType "ID" None) None None None];
           SchemaFromAst._schema.ObjectType "Query" None
             [SchemaFromAst._schema.mkField "now"
                (SchemaFromAst._schema.ScalarType "Date" None) None None None;
              SchemaFromAst._schema.mkField "later"
                (SchemaFromAst._schema.ScalarType "Date" None) None None None]
             [SchemaFromAst._schema.InterfaceType "I" None
                [SchemaFromAst._schema.mkField "id"
                   (SchemaFromAst._schema.ScalarType "ID" None)
                   None None None]]]
          []).
Proof. vm_compute. reflexivity. Qed.

Example object_extension_without_interface :
  SchemaFromAst.schema_from_ast SchemaFromAst.no_default
    SchemaFromAst.no_directive
    [SchemaFromAst.scalar_Date; SchemaFromAst.type_Query;
     SchemaFromAst.extend_type_Query] []
  = Raise TypeError.
Proof. vm_compute. reflexivity. Qed.

(** C1 (the defect): [enum_type] tests its extensions against
    UnionTypeExtension.  An EnumTypeExtension of an enum type is refused
    with SDLError instead of having its values appended, a
    UnionTypeExtension passes the test and fails on its missing [values],
    and no enum type with an extension is ever built. *)
Theorem enum_extension_rejected :
  (forall name description ext_name ext_directives ext_values rest values st,
      SchemaFromAst.enum_type_extend name description
        (SchemaFromAst._ast.EnumTypeExtension ext_name ext_directives ext_values
         :: rest) values st
      = Raise (SDLError
                 ("Expected an UnionTypeExtension node for UnionType "
                  ++ name)%string))
  /\ (forall name description ext rest values st,
      is_ok (SchemaFromAst.enum_type_extend name description (ext :: rest)
               values st) = false)
  /\ SchemaFromAst.schema_from_ast SchemaFromAst.no_default
       SchemaFromAst.no_directive
       [SchemaFromAst.enum_E; SchemaFromAst.extend_enum_E] []
     = Raise (SDLError "Expected an UnionTypeExtension node for UnionType E")
  /\ SchemaFromAst.schema_from_ast SchemaFromAst.no_default
       SchemaFromAst.no_directive
       [SchemaFromAst.enum_E; SchemaFromAst.extend_union_E] []
     = Raise AttributeError.
Proof.
  split; [reflexivity|].
  split; [intros name description ext rest values st; destruct ext; reflexivity|].
  split; vm_compute; reflexivity.
Qed.

(** ** [utilities/type_info.py] *)
Section TypeInfoFacts.
Import TypeInfo.
Context (schema : Schema).

Lemma visit_node k children v :
  visit schema (nodes.Node k children) v
  = Py.bind (visit_all schema children (enter schema k v)) (leave k).
Proof. reflexivity. Qed.

Lemma observe_node k children v :
  observe schema (nodes.Node k children) v
  = (k, enter schema k v) :: observe_all schema children (enter schema k v).
Proof. reflexivity. Qed.

(** Unfold every handler of the visitor, in the goal and the context. *)
Ltac unfold_handlers :=
  unfold enter_operation_definition, enter_selection_set, enter_field,
    enter_directive, enter_fragment_definition, enter_inline_fragment,
    enter_variable_definition, enter_argument, enter_list_value,
    enter_object_field, enter_enum_value,
    leave_operation_definition, leave_selection_set, leave_field,
    leave_directive, leave_fragment_definition, leave_inline_fragment,
    leave_variable_definition, leave_argument, leave_list_value,
    leave_object_field, leave_enum_value, _leave_input_value,
    pop_type, pop_parent_type, pop_input_type, pop_field,
    pop_input_value_def in *.

(** Each [leave] handler undoes the pushes of its [enter] handler, on any
    state whose stacks are those the [enter] handler left. *)
Lemma leave_after_enter k v v1 :
  stacks v1 = stacks (enter schema k v) ->
  exists v2, leave k v1 = Ok v2 /\ stacks v2 = stacks v
             /\ enum_value v2
                = if is_enum_value k then None else enum_value v1.
Proof.
  unfold stacks. intros H.
  destruct k; cbn [enter leave is_enum_value] in *;
    unfold_handlers;
    repeat match type of H with
           | context [match ?x with _ => _ end] => destruct x
           end;
    cbn in H; injection H as H1 H2 H3 H4 H5; cbn;
    rewrite ?H1, ?H2, ?H3, ?H4, ?H5; cbn;
    eexists; (split; [reflexivity|]); cbn;
    rewrite ?H1, ?H2, ?H3, ?H4, ?H5; split; reflexivity.
Qed.




(** The walk of a node returns, with the five stacks as they were. *)
Lemma visit_restores : forall n v,
  exists v', visit schema n v = Ok v' /\ stacks v' = stacks v.
Proof.
  fix IH 1. intros [k children] v. rewrite visit_node.
  assert (Hall : forall v0, exists v1,
             visit_all schema children v0 = Ok v1 /\ stacks v1 = stacks v0).
  { induction children as [|child rest IHrest]; intros v0.
    - exists v0. split; reflexivity.
    - cbn [visit_all]. destruct (IH child v0) as (v1 & -> & H1).
      destruct (IHrest v1) as (v2 & H2 & H3). exists v2.
      split; [exact H2 | congruence]. }
  destruct (Hall (enter schema k v)) as (v1 & -> & H1). cbn [Py.bind].
  destruct (leave_after_enter k v v1 H1) as (v2 & H2 & H3 & _).
  exists v2. split; assumption.
Qed.









Lemma enter_operation_definition_no_root v :
  query_type schema = None ->
  type (enter_operation_definition schema v "query") = None.
Proof. intros H. unfold enter_operation_definition. cbn. rewrite H. reflexivity. Qed.







End TypeInfoFacts.


Example malformed_document_observed :
  List.map (fun kv => (TypeInfo.type (snd kv), TypeInfo.field (snd kv),
                       TypeInfo.input_type (snd kv),
                       TypeInfo.enum_value (snd kv)))
    (TypeInfo.observe TypeInfo.sample_schema TypeInfo.malformed_document
       TypeInfo.init)
  = [(None, None, None, None);
     (Some (TypeInfo.Named TypeInfo.ObjectType "Query"), None, None, None);
     (Some (TypeInfo.Named TypeInfo.ObjectType "Query"), None, None, None);
     (Some (TypeInfo.Named TypeInfo.ObjectType "Query"), None, None, None);
     (None, None, None, None);
     (None, None, None, None);
     (None, None, None, None);
     (None, None, None, None);
     (None, None, None, None);
     (None, None, None, None);
     (None, None, None, None);
     (None, None, None, None);
     (None, None, None, None);
     (None, None, None, None)].
Proof. vm_compute. reflexivity. Qed.

(** ** The conditional statements, at sample inputs *)



Lemma extract_type_partition_witness :
  is_sdl_error
    (SchemaFromAst._extract_type
       [SchemaFromAst.scalar_Date; SchemaFromAst.scalar_Date]) = true
  /\ exists x,
      SchemaFromAst._extract_type
        [SchemaFromAst.type_Query; SchemaFromAst.extend_scalar_Date;
         SchemaFromAst.scalar_Date] = Ok x
      /\ SchemaFromAst.schema_definition x = None
      /\ dict_keys (SchemaFromAst.types x) = ["Query"; "Date"]%string
      /\ SchemaFromAst.extensions x !!! "Date"%string
         = [SchemaFromAst._ast.ScalarTypeExtension "Date"
              [SchemaFromAst._ast.mkDirective "tz" []]]
      /\ SchemaFromAst.directives x = [].
Proof.
  split.
  - apply (proj1 (extract_type_partition
                    [SchemaFromAst.scalar_Date; SchemaFromAst.scalar_Date])).
    right. left. simpl. intros H. apply NoDup_cons in H as [H _].
    apply H. left.
  - destruct (proj2 (extract_type_partition
                       [SchemaFromAst.type_Query;
                        SchemaFromAst.extend_scalar_Date;
                        SchemaFromAst.scalar_Date]))
      as (x & Hrun & Hs & Ht & He & Hd).
    + simpl. lia.
    + simpl. apply NoDup_cons. split; [|apply NoDup_singleton].
      intros H. apply list_elem_of_singleton in H. discriminate H.
    + simpl. apply NoDup_nil_2.
    + exists x. split; [exact Hrun|]. split; [exact Hs|].
      split; [rewrite Ht; reflexivity|]. split; [rewrite He; reflexivity|].
      exact Hd.
Defined.

Lemma node_to_dict_and_equality_witness :
  Ast.value_eq (Ast.mk_Name "a" (Ast.PStr "x.graphql") (Ast.PPair 0 1))
               (Ast.mk_Name "a" Ast.PNone (Ast.PPair 0 1)) = true.
Proof.
  destruct node_to_dict_and_equality as (_ & _ & _ & H & _).
  apply H. split; [reflexivity|].
  intros attr Hin Hne. simpl in Hin.
  destruct Hin as [<-|[<-|[<-|[]]]]; [congruence | reflexivity | reflexivity].
Defined.

(** * Further properties *)

(** ** [lang/utils.py]: locations *)
Section MoreLocations.
Import Utils.

Lemma count_lf_cons c s :
  count_lf (c :: s) = ((if is_lf c then 1 else 0) + count_lf s)%nat.
Proof. unfold count_lf, is_lf. simpl. destruct (c =? LF)%N; reflexivity. Qed.

Lemma take_while_snoc {A} (p : A -> bool) l x :
  take_while p (l ++ [x])
  = if forallb p l then l ++ (if p x then [x] else []) else take_while p l.
Proof.
  induction l as [|y l IH]; simpl.
  - destruct (p x); reflexivity.
  - destruct (p y); simpl; [|reflexivity]. rewrite IH.
    destruct (forallb p l); reflexivity.
Qed.

Lemma forallb_rev {A} (p : A -> bool) l : forallb p (rev l) = forallb p l.
Proof.
  induction l as [|x l IH]; [reflexivity|]. simpl.
  rewrite forallb_app, IH. simpl. rewrite andb_true_r. apply andb_comm.
Qed.

Lemma since_last_lf_cons c s :
  since_last_lf (c :: s)
  = if forallb (fun c => negb (is_lf c)) s
    then (if is_lf c then length s else S (length s))
    else since_last_lf s.
Proof.
  unfold since_last_lf. simpl. rewrite take_while_snoc, forallb_rev.
  destruct (forallb _ s); [|reflexivity].
  destruct (is_lf c); simpl; rewrite ?length_app, length_rev; simpl; lia.
Qed.

Lemma since_last_lf_no_lf s :
  forallb (fun c => negb (is_lf c)) s = true -> since_last_lf s = length s.
Proof.
  induction s as [|c s IH]; [reflexivity|]. simpl. intros H.
  apply andb_prop in H as [Hc Hs]. rewrite since_last_lf_cons, Hs.
  apply negb_true_iff in Hc. rewrite Hc. reflexivity.
Qed.

(** The loop of [index_to_loc], in closed form: [k] characters after
    [offset], from the line and column counts [lines] and [cols]. *)
Lemma index_to_loc_loop_closed body : forall offset k lines cols,
  (k <= length body)%nat ->
  index_to_loc_loop body offset (Z.of_nat (offset + k)) lines cols
  = ((lines + count_lf (firstn k body) + 1)%nat,
     ((if forallb (fun c => negb (is_lf c)) (firstn k body)
       then cols + k else since_last_lf (firstn k body)) + 1)%nat).
Proof.
  induction body as [|ch rest IH]; intros offset k lines cols Hk.
  - simpl in Hk. assert (k = 0)%nat by lia. subst.
    unfold count_lf. simpl. f_equal; lia.
  - destruct k as [|k].
    + unfold count_lf. simpl. rewrite Nat.add_0_r, Z.eqb_refl. f_equal; lia.
    + cbn [index_to_loc_loop firstn].
      destruct (Z.eqb_spec (Z.of_nat offset) (Z.of_nat (offset + S k))); [lia|].
      replace (offset + S k)%nat with (S offset + k)%nat by lia.
      simpl in Hk. rewrite count_lf_cons, since_last_lf_cons. cbn [forallb].
      change (ch =? LF)%N with (is_lf ch).
      destruct (is_lf ch); cbn [negb andb].
      * rewrite IH by lia.
        destruct (forallb _ (firstn k rest)) eqn:E.
        -- rewrite length_firstn. f_equal; lia.
        -- f_equal. lia.
      * rewrite IH by lia.
        destruct (forallb _ (firstn k rest)) eqn:E; f_equal; lia.
Qed.

Lemma count_lf_firstn_le k s : (count_lf (firstn k s) <= count_lf s)%nat.
Proof.
  revert k. induction s as [|c s IH]; intros [|k]; simpl; try lia.
  - unfold count_lf. simpl. lia.
  - rewrite !count_lf_cons. specialize (IH k). lia.
Qed.

Lemma loc_to_index_loop_found total body : forall index lineo col lines i,
  loc_to_index_loop total body index lineo col lines = Ok i ->
  exists k, (k < length body)%nat
            /\ i = Z.of_nat (index + k) + col - 1
            /\ i <= Z.of_nat total
            /\ lines + Z.of_nat (count_lf (firstn k body)) = lineo - 1.
Proof.
  induction body as [|ch rest IH]; intros index lineo col lines i H;
    [discriminate|].
  cbn [loc_to_index_loop] in H.
  destruct (Z.eqb_spec lines (lineo - 1)) as [Heq|Hne].
  - destruct (Z.leb_spec (Z.of_nat index + col - 1) (Z.of_nat total));
      [|discriminate].
    injection H as <-. exists 0%nat. simpl. unfold count_lf. simpl.
    repeat split; lia.
  - assert (Hstep : exists lines',
               loc_to_index_loop total rest (S index) lineo col lines' = Ok i
               /\ lines' = lines + (if is_lf ch then 1 else 0)).
    { unfold is_lf. destruct (ch =? LF)%N; eexists; split; try exact H; lia. }
    destruct Hstep as (lines' & Hrun & ->).
    destruct (IH _ _ _ _ _ Hrun) as (k & Hk & Hi & Hle & Hl).
    exists (S k). cbn [firstn length]. rewrite count_lf_cons.
    repeat split; try lia.
    destruct (is_lf ch); lia.
Qed.

Lemma index_to_loc_loop_negative body position :
  position < 0 ->
  forall offset lines cols,
    index_to_loc_loop body offset position lines cols
    = index_to_loc_loop body offset (Z.of_nat (offset + length body))
        lines cols.
Proof.
  intros Hneg. induction body as [|ch rest IH]; intros offset lines cols;
    [reflexivity|].
  cbn [index_to_loc_loop length].
  destruct (Z.eqb_spec (Z.of_nat offset) position); [lia|].
  destruct (Z.eqb_spec (Z.of_nat offset)
              (Z.of_nat (offset + S (length rest)))); [lia|].
  replace (offset + S (length rest))%nat
    with (S offset + length rest)%nat by lia.
  destruct (ch =? LF)%N; apply IH.
Qed.

End MoreLocations.

(** X1: for every position from 0 to the length of the body, other than
    the end of a body that ends with a line feed, [loc_to_index] applied to
    the location given by [index_to_loc] returns the position. *)
Theorem loc_to_index_inverts_index_to_loc (body : Py.str) (position : Z) :
  0 <= position <= Z.of_nat (length body) ->
  position < Z.of_nat (length body) \/ last body <> Some Utils.LF ->
  Utils.roundtrip body position = Ok position.
Proof. apply roundtrip_ok. Qed.

Lemma loc_to_index_inverts_index_to_loc_witness :
  Utils.roundtrip (Py.of_string "ab
cd
e") 4 = Ok 4
  /\ Utils.roundtrip (Py.of_string "ab
cd
e") 7 = Ok 7.
Proof.
  split.
  - apply (loc_to_index_inverts_index_to_loc (Py.of_string "ab
cd
e") 4); [simpl; lia | left; simpl; lia].
  - apply (loc_to_index_inverts_index_to_loc (Py.of_string "ab
cd
e") 7); [simpl; lia | right; simpl; discriminate].
Defined.

(** X2: [index_to_loc] raises IndexError exactly when the position is
    greater than the length of the body.  In every other case, a negative
    position included, it returns a line and a column that are at least 1;
    a negative position in a body that is not empty gives the location of
    the end of the body. *)
Theorem index_to_loc_raises_iff (body : Py.str) (position : Z) :
  (Utils.index_to_loc body position = Raise IndexError
   <-> Z.of_nat (length body) < position)
  /\ (position <= Z.of_nat (length body) ->
      exists line col,
        Utils.index_to_loc body position = Ok (line, col)
        /\ (1 <= line)%nat /\ (1 <= col)%nat)
  /\ (position < 0 -> body <> [] ->
      Utils.index_to_loc body position
      = Utils.index_to_loc body (Z.of_nat (length body))).
Proof.
  assert (Hok : position <= Z.of_nat (length body) ->
                exists line col,
                  Utils.index_to_loc body position = Ok (line, col)
                  /\ (1 <= line)%nat /\ (1 <= col)%nat).
  { intros Hp. destruct body as [|ch rest].
    - unfold Utils.index_to_loc.
      destruct position; try (exists 1%nat, 1%nat; repeat split; lia).
      simpl in Hp. lia.
    - rewrite index_to_loc_nonempty by discriminate.
      destruct (Z.ltb_spec (Z.of_nat (length (ch :: rest))) position); [lia|].
      pose proof (index_to_loc_loop_line (ch :: rest) 0 position 0 0)
        as [H1 H2].
      destruct (Utils.index_to_loc_loop (ch :: rest) 0 position 0 0)
        as [l c].
      exists l, c. simpl in H1, H2. repeat split; lia. }
  split; [split|split; [exact Hok|]].
  - intros Hraise.
    destruct (Z.ltb_spec (Z.of_nat (length body)) position) as [Hlt|Hge];
      [exact Hlt|].
    destruct (Hok Hge) as (l & c & Hrun & _). congruence.
  - apply index_to_loc_out_of_range.
  - intros Hneg Hne. rewrite !index_to_loc_nonempty by exact Hne.
    destruct (Z.ltb_spec (Z.of_nat (length body)) position); [lia|].
    destruct (Z.ltb_spec (Z.of_nat (length body)) (Z.of_nat (length body)));
      [lia|].
    f_equal. apply (index_to_loc_loop_negative body position Hneg 0%nat).
Qed.

(** X3: for a position inside the body or at its end, the line given by
    [index_to_loc] is one more than the number of line feeds before the
    position, and the column is one more than the number of characters
    between the last of these line feeds (or the start) and the position. *)
Theorem index_to_loc_line_column (body : Py.str) (position : nat) :
  (position <= length body)%nat ->
  Utils.index_to_loc body (Z.of_nat position)
  = Ok ((Utils.count_lf (firstn position body) + 1)%nat,
        (Utils.since_last_lf (firstn position body) + 1)%nat).
Proof.
  intros Hp. destruct body as [|ch rest].
  - simpl in Hp. assert (position = 0)%nat by lia. subst. reflexivity.
  - rewrite index_to_loc_nonempty by discriminate.
    destruct (Z.ltb_spec (Z.of_nat (length (ch :: rest))) (Z.of_nat position));
      [lia|].
    pose proof (index_to_loc_loop_closed (ch :: rest) 0 position 0 0 Hp)
      as Hloop.
    cbn [Nat.add] in Hloop. rewrite Hloop. f_equal. f_equal.
    destruct (forallb _ (firstn position (ch :: rest))) eqn:E; [|reflexivity].
    rewrite since_last_lf_no_lf by exact E.
    rewrite length_firstn. lia.
Qed.

Lemma index_to_loc_line_column_witness :
  Utils.index_to_loc (Py.of_string "ab
cd
e") (Z.of_nat 4)
  = Ok ((Utils.count_lf (firstn 4 (Py.of_string "ab
cd
e")) + 1)%nat,
        (Utils.since_last_lf (firstn 4 (Py.of_string "ab
cd
e")) + 1)%nat).
Proof.
  apply index_to_loc_line_column. simpl. lia.
Defined.

(** X4: when [loc_to_index] returns an index, the index is at most the
    length of the body, the line is between 1 and one more than the number
    of line feeds of the body, and the index is [col - 1] characters after
    a position that has [line - 1] line feeds before it: the column is
    checked against the end of the body, not against the end of its
    line. *)
Theorem loc_to_index_bounds (body : Py.str) (lineo col i : Z) :
  Utils.loc_to_index body (lineo, col) = Ok i ->
  i <= Z.of_nat (length body)
  /\ 1 <= lineo <= Z.of_nat (Utils.count_lf body) + 1
  /\ exists start : nat,
      (start <= length body)%nat
      /\ i = Z.of_nat start + col - 1
      /\ Z.of_nat (Utils.count_lf (firstn start body)) = lineo - 1.
Proof.
  unfold Utils.loc_to_index. intros H.
  assert (Hloop : Utils.loc_to_index_loop (length body) body 0 lineo col 0
                  = Ok i
                  \/ body = [] /\ lineo = 1 /\ col = 1 /\ i = 0).
  { destruct body as [|ch rest]; [|left; exact H].
    destruct (Z.eqb_spec lineo 1), (Z.eqb_spec col 1); simpl in H;
      try discriminate H.
    right. injection H as <-. repeat split; assumption. }
  destruct Hloop as [Hloop | (-> & -> & -> & ->)].
  - destruct (loc_to_index_loop_found _ _ _ _ _ _ _ Hloop)
      as (k & Hk & Hi & Hle & Hl).
    pose proof (count_lf_firstn_le k body).
    split; [exact Hle|]. split; [lia|].
    exists k. repeat split; lia.
  - simpl. split; [lia|]. split; [unfold Utils.count_lf; simpl; lia|].
    exists 0%nat. repeat split; simpl; lia.
Qed.

Lemma loc_to_index_bounds_witness :
  4 <= Z.of_nat (length (Py.of_string "ab
cd"))
  /\ 1 <= 1 <= Z.of_nat (Utils.count_lf (Py.of_string "ab
cd")) + 1
  /\ exists start : nat,
      (start <= length (Py.of_string "ab
cd"))%nat
      /\ 4 = Z.of_nat start + 5 - 1
      /\ Z.of_nat (Utils.count_lf (firstn start (Py.of_string "ab
cd"))) = 1 - 1.
Proof.
  apply (loc_to_index_bounds (Py.of_string "ab
cd") 1 5 4).
  vm_compute. reflexivity.
Defined.

(** ** [lang/utils.py]: block strings *)
Section MoreBlockStrings.
Import Utils.

Lemma split_lines_cons c rest :
  split_lines (c :: rest)
  = if is_terminator c
    then [] :: split_lines (after_terminator c rest)
    else match split_lines rest with
         | l :: ls => (c :: l) :: ls
         | [] => [[c]]
         end.
Proof.
  unfold is_terminator, after_terminator. cbn [split_lines].
  destruct (c =? CR)%N; [rewrite orb_true_r|rewrite orb_false_r].
  - destruct rest as [|d rest']; [reflexivity|].
    destruct (d =? LF)%N; reflexivity.
  - destruct (c =? LF)%N; reflexivity.
Qed.

Lemma after_terminator_length c rest :
  (length (after_terminator c rest) <= length rest)%nat.
Proof.
  unfold after_terminator. destruct (c =? CR)%N; [|lia].
  destruct rest as [|d rest']; [lia|]. destruct (d =? LF)%N; simpl; lia.
Qed.

Lemma split_lines_not_nil s : split_lines s <> [].
Proof.
  destruct s as [|c rest]; [discriminate|]. rewrite split_lines_cons.
  destruct (is_terminator c); [discriminate|].
  destruct (split_lines rest); discriminate.
Qed.

Lemma split_lines_free s : Forall free_of_terminators (split_lines s).
Proof.
  remember (length s) as n eqn:Hn. revert s Hn.
  induction n as [n IH] using lt_wf_ind. intros s Hn.
  destruct s as [|c rest]; [repeat constructor|].
  rewrite split_lines_cons. destruct (is_terminator c) eqn:Ec.
  - constructor; [reflexivity|].
    pose proof (after_terminator_length c rest) as Hlen.
    apply (IH (length (after_terminator c rest))); [subst n; simpl; lia|].
    reflexivity.
  - assert (Hrest : Forall free_of_terminators (split_lines rest))
      by (apply (IH (length rest)); [subst n; simpl; lia | reflexivity]).
    destruct (split_lines rest) as [|l ls]; [repeat constructor|].
    + unfold free_of_terminators. simpl. rewrite Ec. reflexivity.
    + inversion Hrest as [|? ? Hl Hls]; subst. constructor; [|exact Hls].
      unfold free_of_terminators in *. simpl. rewrite Ec, Hl. reflexivity.
Qed.

Lemma split_lines_free_line l :
  free_of_terminators l -> split_lines l = [l].
Proof.
  unfold free_of_terminators.
  induction l as [|c l IH]; [reflexivity|]. simpl forallb. intros H.
  apply andb_prop in H as [Hc Hl]. apply negb_true_iff in Hc.
  rewrite split_lines_cons, Hc, (IH Hl). reflexivity.
Qed.

Lemma split_lines_app_lf l rest :
  free_of_terminators l ->
  split_lines (l ++ LF :: rest) = l :: split_lines rest.
Proof.
  unfold free_of_terminators.
  induction l as [|c l IH]; simpl forallb; intros H.
  - simpl app. rewrite split_lines_cons. reflexivity.
  - apply andb_prop in H as [Hc Hl]. apply negb_true_iff in Hc.
    simpl app. rewrite split_lines_cons, Hc, (IH Hl). reflexivity.
Qed.

(** Splitting what [join_lines] joined gives the lines back. *)
Lemma split_join_lines ls :
  ls <> [] -> Forall free_of_terminators ls ->
  split_lines (join_lines ls) = ls.
Proof.
  induction ls as [|l ls IH]; [congruence|]. intros _ Hall.
  inversion Hall as [|? ? Hl Hls]; subst.
  destruct ls as [|l2 ls].
  - apply split_lines_free_line, Hl.
  - change (join_lines (l :: l2 :: ls)) with (l ++ LF :: join_lines (l2 :: ls)).
    rewrite split_lines_app_lf by exact Hl.
    rewrite IH by (discriminate || exact Hls). reflexivity.
Qed.

Lemma drop_while_suffix {A} (p : A -> bool) l :
  exists pre, l = pre ++ drop_while p l.
Proof.
  induction l as [|x l [pre IH]]; [exists []; reflexivity|]. simpl.
  destruct (p x); [exists (x :: pre); simpl; congruence | exists []; reflexivity].
Qed.

Lemma drop_while_head {A} (p : A -> bool) l y r :
  drop_while p l = y :: r -> p y = false.
Proof.
  induction l as [|x l IH]; simpl; [discriminate|].
  destruct (p x) eqn:E; [exact IH|]. intros H. injection H as <- _. exact E.
Qed.

Lemma Forall_drop_while {A} (P : A -> Prop) (p : A -> bool) l :
  Forall P l -> Forall P (drop_while p l).
Proof.
  destruct (drop_while_suffix p l) as [pre Hpre]. intros H.
  rewrite Hpre in H. apply Forall_app in H as [_ H]. exact H.
Qed.

Lemma parse_block_string_kept raw :
  parse_block_string raw = join_lines (kept_lines raw).
Proof. reflexivity. Qed.

Lemma strip_loop_free c lines : forall i,
  Forall free_of_terminators lines ->
  Forall free_of_terminators (strip_loop c i lines).
Proof.
  induction lines as [|l lines IH]; intros i H; [constructor|].
  inversion H as [|? ? Hl Hls]; subst. cbn [strip_loop].
  constructor; [|apply IH, Hls].
  destruct (_ && _); [|exact Hl].
  unfold free_of_terminators in *.
  rewrite <- (firstn_skipn c l), forallb_app in Hl.
  apply andb_prop in Hl as [_ Hl]. exact Hl.
Qed.

Lemma kept_lines_free raw : Forall free_of_terminators (kept_lines raw).
Proof.
  unfold kept_lines, trim_blank_lines.
  apply Forall_rev, Forall_drop_while, Forall_rev, Forall_drop_while.
  pose proof (split_lines_free raw) as H.
  destruct (indent_loop 0 (split_lines raw) None) as [[|c]|];
    [exact H | apply strip_loop_free, H | exact H].
Qed.

(** Trimming leaves nothing, or lines whose first and last are not
    blank. *)
Lemma trim_blank_lines_ends lines :
  trim_blank_lines lines = []
  \/ exists first final,
      head (trim_blank_lines lines) = Some first
      /\ last (trim_blank_lines lines) = Some final
      /\ is_blank first = false /\ is_blank final = false.
Proof.
  unfold trim_blank_lines.
  destruct (drop_while is_blank lines) as [|x m] eqn:Em; [left; reflexivity|].
  pose proof (drop_while_head _ _ _ _ Em) as Hx.
  right. cbn [rev].
  destruct (drop_while_suffix is_blank (rev m ++ [x])) as [pre Hpre].
  destruct (drop_while is_blank (rev m ++ [x])) as [|y d] eqn:Ed.
  - apply drop_while_nil_forallb in Ed. rewrite forallb_app in Ed.
    apply andb_prop in Ed as [_ Ed]. simpl in Ed. rewrite Hx in Ed.
    discriminate.
  - pose proof (drop_while_head _ _ _ _ Ed) as Hy.
    assert (Hlast : last (y :: d) = Some x).
    { assert (H : last (pre ++ y :: d) = Some x)
        by (rewrite <- Hpre; apply last_snoc).
      rewrite last_app_cons in H. exact H. }
    exists x, y. repeat split; try assumption.
    + apply last_Some in Hlast as (d' & Hd). rewrite Hd, rev_app_distr.
      reflexivity.
    + cbn [rev]. apply last_snoc.
Qed.

Lemma joined_length_join ls : length (join_lines ls) = joined_length ls.
Proof.
  unfold joined_length. induction ls as [|l ls IH]; [reflexivity|].
  destruct ls as [|l2 ls]; [simpl; lia|].
  change (join_lines (l :: l2 :: ls)) with (l ++ LF :: join_lines (l2 :: ls)).
  rewrite length_app. cbn [length]. rewrite IH. simpl. lia.
Qed.

Lemma joined_length_split s : (joined_length (split_lines s) <= length s)%nat.
Proof.
  remember (length s) as n eqn:Hn. revert s Hn.
  induction n as [n IH] using lt_wf_ind. intros s Hn.
  destruct s as [|c rest]; [subst; unfold joined_length; simpl; lia|].
  rewrite split_lines_cons. destruct (is_terminator c).
  - set (tail := after_terminator c rest).
    pose proof (after_terminator_length c rest : (length tail <= _)%nat) as Hlen.
    assert (Hrec : (joined_length (split_lines tail) <= length tail)%nat)
      by (apply (IH (length tail)); [subst n; simpl; lia | reflexivity]).
    pose proof (split_lines_not_nil tail) as Hne.
    unfold joined_length in *. subst n. cbn [List.map list_sum length].
    destruct (split_lines tail); [congruence|]. simpl in *. lia.
  - assert (Hrec : (joined_length (split_lines rest) <= length rest)%nat)
      by (apply (IH (length rest)); [subst n; simpl; lia | reflexivity]).
    unfold joined_length in *. subst n.
    destruct (split_lines rest) as [|l ls]; simpl in *; lia.
Qed.

Lemma joined_length_drop_while (p : str -> bool) ls :
  (joined_length (drop_while p ls) <= joined_length ls)%nat.
Proof.
  unfold joined_length. induction ls as [|l ls IH]; [simpl; lia|].
  simpl. destruct (p l); [|simpl; lia]. lia.
Qed.

Lemma joined_length_rev ls : joined_length (rev ls) = joined_length ls.
Proof.
  unfold joined_length. rewrite length_rev. f_equal.
  induction ls as [|l ls IH]; [reflexivity|]. cbn [rev List.map list_sum].
  rewrite List.map_app, list_sum_app. unfold str in *. simpl. lia.
Qed.

Lemma joined_length_strip c ls : forall i,
  (joined_length (strip_loop c i ls) <= joined_length ls)%nat.
Proof.
  unfold joined_length. induction ls as [|l ls IH]; intros i; [simpl; lia|].
  cbn [strip_loop List.map list_sum length]. specialize (IH (S i)).
  assert (Hlen : length (strip_loop c (S i) ls) = length ls).
  { clear. generalize (S i). induction ls; intros; simpl; [|rewrite IHls];
      reflexivity. }
  rewrite Hlen in *.
  assert (Hl : (length (if (c <=? length l)%nat && (0 <? i)%nat
                        then skipn c l else l) <= length l)%nat)
    by (destruct (_ && _); [rewrite length_skipn|]; lia).
  unfold list_sum, str in *. cbn [fold_right]. lia.
Qed.

End MoreBlockStrings.

(** X5: the value of a block string is empty, or its first and its last
    line are not blank: no blank line is left at either end.  The lines
    are those of the value itself, since splitting the joined lines gives
    them back. *)
Theorem parse_block_string_no_blank_ends (raw : Py.str) :
  Utils.parse_block_string raw = []
  \/ exists first final,
      head (Utils.split_lines (Utils.parse_block_string raw)) = Some first
      /\ last (Utils.split_lines (Utils.parse_block_string raw)) = Some final
      /\ Utils.is_blank first = false /\ Utils.is_blank final = false.
Proof.
  rewrite parse_block_string_kept.
  pose proof (kept_lines_free raw) as Hfree.
  unfold Utils.kept_lines in *.
  destruct (trim_blank_lines_ends
              match Utils.indent_loop 0 (Utils.split_lines raw) None with
              | Some (S c) => Utils.strip_loop (S c) 0 (Utils.split_lines raw)
              | _ => Utils.split_lines raw
              end) as [Hnil | (first & final & Hh & Hl & Hf & Hfin)].
  - left. rewrite Hnil. reflexivity.
  - right. exists first, final.
    rewrite split_join_lines; [tauto | | exact Hfree].
    intros Hnil. rewrite Hnil in Hh. discriminate.
Qed.

(** X6: the value of a block string is never longer than its raw body. *)
Theorem parse_block_string_not_longer (raw : Py.str) :
  (length (Utils.parse_block_string raw) <= length raw)%nat.
Proof.
  rewrite parse_block_string_kept, joined_length_join.
  unfold Utils.kept_lines, Utils.trim_blank_lines.
  rewrite joined_length_rev.
  etransitivity; [apply joined_length_drop_while|].
  rewrite joined_length_rev.
  etransitivity; [apply joined_length_drop_while|].
  etransitivity; [|apply joined_length_split].
  destruct (Utils.indent_loop 0 (Utils.split_lines raw) None) as [[|c]|];
    [lia | apply joined_length_strip | lia].
Qed.

(** ** [execution/middleware.py] *)

(** X7: applying a concatenation of two lists of middlewares is applying
    the second list to the function and the first list to the result. *)
Theorem apply_middlewares_app (W A V : Type) (is_deferred : V -> bool)
  add_done_callback (func : @Middleware.fn W A V)
  (outer inner : list Middleware.middleware) :
  Middleware.apply_middlewares is_deferred add_done_callback func
    (outer ++ inner)
  = Middleware.apply_middlewares is_deferred add_done_callback
      (Middleware.apply_middlewares is_deferred add_done_callback func inner)
      outer.
Proof.
  rewrite !apply_middlewares_nested. unfold Middleware.nested.
  apply fold_right_app.
Qed.

(** X8: an instance of the base class [GraphQLMiddleware] changes nothing
    wherever it stands in the list. *)
Theorem base_middleware_neutral (W A V : Type) (is_deferred : V -> bool)
  add_done_callback (func : @Middleware.fn W A V)
  (outer inner : list Middleware.middleware) :
  Middleware.apply_middlewares is_deferred add_done_callback func
    (outer ++ Middleware.GraphQLMiddleware :: inner)
  = Middleware.apply_middlewares is_deferred add_done_callback func
      (outer ++ inner).
Proof.
  rewrite !apply_middlewares_nested. unfold Middleware.nested.
  rewrite !fold_right_app. reflexivity.
Qed.

(** X9: a middleware that returns without calling [next_] short-circuits
    the chain: the middlewares after it and the wrapped function play no
    part in the result. *)
Theorem middleware_short_circuit (W A V : Type) (is_deferred : V -> bool)
  add_done_callback (func func' answer : @Middleware.fn W A V)
  (outer inner inner' : list Middleware.middleware) :
  Middleware.apply_middlewares is_deferred add_done_callback func
    (outer ++ Middleware.Plain (fun _ => answer) :: inner)
  = Middleware.apply_middlewares is_deferred add_done_callback answer outer
  /\ Middleware.apply_middlewares is_deferred add_done_callback func
       (outer ++ Middleware.Plain (fun _ => answer) :: inner)
     = Middleware.apply_middlewares is_deferred add_done_callback func'
         (outer ++ Middleware.Plain (fun _ => answer) :: inner').
Proof.
  rewrite !apply_middlewares_nested. unfold Middleware.nested.
  rewrite !fold_right_app. split; reflexivity.
Qed.

(** X10: generator middlewares of the shape [before; yield next_(...);
    after], over results that are not deferred, run like the layers of an
    onion: the code before the [yield] runs in list order, then the wrapped
    function, then the code after the [yield] in the opposite order; when
    the wrapped function raises, the exception propagates and none of the
    code after a [yield] runs. *)
Theorem generator_middlewares_onion (W A V : Type)
  add_done_callback (func : @Middleware.fn W A V)
  (layers : list ((W -> W) * (W -> W))) (args : A) (w : W) :
  Middleware.apply_middlewares (fun _ => false) add_done_callback func
    (List.map (fun ba => Middleware.around (fst ba) (snd ba)) layers) args w
  = match func args (Middleware.befores layers w) with
    | (Ok v, w1) => (Ok v, Middleware.afters layers w1)
    | (Raise e, w1) => (Raise e, w1)
    end.
Proof.
  rewrite apply_middlewares_nested. unfold Middleware.nested. revert w.
  induction layers as [|[before after] layers IH]; intros w.
  - simpl. destruct (func args w) as [[v|e] w1]; reflexivity.
  - cbn [List.map fold_right].
    unfold Middleware.befores, Middleware.afters in *.
    cbn [fold_left fold_right fst snd].
    cbn [Middleware.as_callable Middleware.around].
    unfold Middleware.generator_middleware. cbn [Middleware.next].
    rewrite IH.
    destruct (func args _) as [[v|e] w1]; reflexivity.
Qed.

(** ** [lang/ast.py]: equality, item access and copies *)
Section MoreAst.
Import Ast.
Local Open Scope string_scope.

(** Induction on attribute values, through lists and attributes. *)
Lemma value_nested_ind (P : value -> Prop) :
  (forall p, P (VPrim p)) ->
  (forall l, Forall P l -> P (VList l)) ->
  (forall cls getattr, (forall attr, P (getattr attr)) ->
                       P (VNode cls getattr)) ->
  forall v, P v.
Proof.
  intros Hp Hl Hn. fix IH 1. intros [p|l|cls getattr].
  - apply Hp.
  - apply Hl. induction l as [|x l IHl]; constructor; [apply IH | exact IHl].
  - apply Hn. intros attr. apply IH.
Qed.

Lemma value_eq_list l1 l2 :
  value_eq (VList l1) (VList l2)
  = match l1, l2 with
    | [], [] => true
    | x :: l1', y :: l2' => value_eq x y && value_eq (VList l1') (VList l2')
    | _, _ => false
    end.
Proof. destruct l1, l2; reflexivity. Qed.

Lemma prim_eqb_sym p q : prim_eqb p q = prim_eqb q p.
Proof.
  destruct p, q; simpl; try reflexivity.
  - destruct b, b0; reflexivity.
  - apply String.eqb_sym.
  - apply Z.eqb_sym.
  - rewrite (Z.eqb_sym a), (Z.eqb_sym b). reflexivity.
Qed.

Lemma prim_eqb_trans p q r :
  prim_eqb p q = true -> prim_eqb q r = true -> prim_eqb p r = true.
Proof.
  destruct p, q, r; simpl; try discriminate; try reflexivity;
    rewrite ?andb_true_iff, ?Z.eqb_eq, ?String.eqb_eq, ?Bool.eqb_true_iff;
    try (intros; subst; tauto || congruence || lia).
  all: try (destruct b; intros; lia).
  all: try (destruct b, b0; simpl; intros; (reflexivity || lia)).
Qed.

Lemma node_class_eqb_sym c1 c2 : node_class_eqb c1 c2 = node_class_eqb c2 c1.
Proof. apply String.eqb_sym. Qed.

Lemma forallb_ext_in {X} (f g : X -> bool) l :
  (forall x, In x l -> f x = g x) -> forallb f l = forallb g l.
Proof.
  induction l as [|x l IH]; intros H; [reflexivity|]. simpl.
  rewrite (H x) by (left; reflexivity).
  rewrite IH by (intros y Hy; apply H; right; exact Hy). reflexivity.
Qed.

Lemma value_eq_sym : forall v w, value_eq v w = value_eq w v.
Proof.
  induction v as [p|l IH|cls getattr IH] using value_nested_ind;
    intros [q|l2|cls2 getattr2]; try reflexivity.
  - apply prim_eqb_sym.
  - revert l2. induction IH as [|x l Hx _ IHl]; intros [|y l2];
      try reflexivity.
    rewrite (value_eq_list (x :: l)), (value_eq_list (y :: l2)).
    rewrite Hx, IHl. reflexivity.
  - cbn [value_eq]. rewrite (node_class_eqb_sym cls2 cls).
    destruct (node_class_eqb cls cls2) eqn:E; [|reflexivity].
    apply node_class_eqb_eq in E. subst cls2. f_equal.
    apply forallb_ext_in. intros attr _. apply IH.
Qed.

Lemma value_eq_trans : forall u v w,
  value_eq u v = true -> value_eq v w = true -> value_eq u w = true.
Proof.
  induction u as [p|l IH|cls getattr IH] using value_nested_ind;
    intros [q|l2|cls2 getattr2] [r|l3|cls3 getattr3]; try discriminate.
  - apply prim_eqb_trans.
  - revert l2 l3. induction IH as [|x l Hx _ IHl]; intros [|y l2] [|z l3];
      try discriminate; try reflexivity.
    rewrite (value_eq_list (x :: l)), (value_eq_list (y :: l2)),
      (value_eq_list (x :: l) (z :: l3)), !andb_true_iff.
    intros [H1 H2] [H3 H4]. split; [exact (Hx _ _ H1 H3)|].
    exact (IHl _ _ H2 H4).
  - rewrite !node_eq_spec. intros [-> H1] [-> H2]. split; [reflexivity|].
    intros attr Hin Hne. exact (IH attr _ _ (H1 attr Hin Hne) (H2 attr Hin Hne)).
Qed.

Lemma map_ext_eq {X Y} (f g : X -> Y) l :
  List.map f l = List.map g l -> forall x, In x l -> f x = g x.
Proof.
  induction l as [|y l IH]; simpl; [tauto|]. intros H x [->|Hin].
  - congruence.
  - apply IH; [congruence | exact Hin].
Qed.

Lemma to_dict_eq : forall v w,
  _node_to_dict v = _node_to_dict w -> value_eq v w = true.
Proof.
  induction v as [p|l IH|cls getattr IH] using value_nested_ind;
    intros [q|l2|cls2 getattr2]; rewrite ?node_to_dict_items;
    cbn [_node_to_dict]; try discriminate.
  - intros [= ->]. apply prim_eqb_refl.
  - intros [= H]. revert l2 H.
    induction IH as [|x l Hx _ IHl]; intros [|y l2]; try discriminate;
      [reflexivity|].
    cbn [List.map]. intros [= H1 H2]. rewrite value_eq_list.
    rewrite (Hx _ H1), (IHl _ H2). reflexivity.
  - intros [= H]. apply app_inj_tail in H as [Hitems [= Hname]].
    apply class_name_inj in Hname. subst cls2.
    apply node_eq_spec. split; [reflexivity|].
    intros attr Hin Hne. apply IH.
    assert (Hp : In attr (_props cls)) by (apply props_spec; tauto).
    pose proof (map_ext_eq _ _ _ Hitems attr Hp) as Heq.
    congruence.
Qed.

Lemma member_In k l : member k l = true <-> In k l.
Proof.
  unfold member. rewrite existsb_exists. split.
  - intros (x & Hin & Heq). apply String.eqb_eq in Heq. subst. exact Hin.
  - intros Hin. exists k. split; [exact Hin | apply String.eqb_refl].
Qed.

Lemma dict_get_comprehension {B} (f : string -> B) ks a :
  In a ks -> dict_get a (List.map (fun k => (k, f k)) ks) = Some (f a).
Proof.
  induction ks as [|k ks IH]; simpl; [tauto|].
  destruct (String.eqb_spec a k) as [->|Hne]; [reflexivity|].
  intros [->|Hin]; [congruence | exact (IH Hin)].
Qed.

Lemma dict_in_keys {B} k (d : list (string * B)) :
  dict_in k d = member k (dict_keys d).
Proof.
  unfold dict_in, member, dict_keys.
  induction d as [|[k' v] d IH]; simpl; [reflexivity|].
  destruct (String.eqb k k'); [reflexivity | exact IH].
Qed.

Lemma slots_are_params cls :
  cls <> Field ->
  forallb (fun k => member k (init_params cls)) (slots_of cls) = true.
Proof. destruct cls; (reflexivity || congruence). Qed.

Lemma required_are_slots cls :
  forallb (fun p => member p (slots_of cls)) (required_params cls) = true.
Proof. destruct cls; reflexivity. Qed.

Lemma list_params_are_slots cls attr :
  In attr (list_params cls) -> In attr (slots_of cls).
Proof.
  assert (H : forallb (fun a => member a (slots_of cls)) (list_params cls)
              = true) by (destruct cls; reflexivity).
  rewrite forallb_forall in H. intros Hin. apply member_In, H, Hin.
Qed.

(** A [Field] cannot be built from its own slots: [response_name] is no
    parameter of [__init__]. *)
Lemma init_field_slots kwargs :
  dict_keys kwargs = slots_of Field -> __init__ Field kwargs = Raise TypeError.
Proof. unfold __init__. intros ->. reflexivity. Qed.

Lemma init_from_slots cls kwargs :
  cls <> Field -> dict_keys kwargs = slots_of cls ->
  exists getattr',
    __init__ cls kwargs = Ok (VNode cls getattr')
    /\ forall attr v, In attr (slots_of cls) ->
         dict_get attr kwargs = Some v ->
         getattr' attr
         = if member attr (list_params cls) && negb (truthy v)
           then VList [] else v.
Proof.
  intros Hcls Hkeys. unfold __init__.
  rewrite Hkeys, (slots_are_params cls Hcls). cbn [negb].
  assert (Hreq : forallb (fun p => dict_in p kwargs) (required_params cls)
                 = true).
  { rewrite <- (required_are_slots cls). apply forallb_ext_in.
    intros p _. rewrite dict_in_keys, Hkeys. reflexivity. }
  rewrite Hreq. cbn [negb].
  pose proof (slots_are_params cls Hcls) as Hpar.
  rewrite forallb_forall in Hpar.
  eexists. split.
  - destruct cls; try reflexivity. congruence.
  - intros attr v Hin Hget. cbv beta. rewrite (Hpar attr Hin), Hget.
    reflexivity.
Qed.

Lemma comprehension_cons {X Y} (f : X -> result Y) x l :
  comprehension f (x :: l)
  = (let* y := f x in
     let* rest' := comprehension f l in
     Ok (y :: rest'))%py.
Proof. reflexivity. Qed.

Lemma deepcopy_list l :
  deepcopy (VList l)
  = (let* l' := comprehension deepcopy l in Ok (VList l'))%py.
Proof. reflexivity. Qed.

Lemma deepcopy_node cls getattr :
  deepcopy (VNode cls getattr)
  = (let* kwargs :=
       comprehension (fun k => let* v' := deepcopy (getattr k) in Ok (k, v'))
         (slots_of cls) in
     __init__ cls kwargs)%py.
Proof. reflexivity. Qed.

Lemma class_is_field_dec cls : cls = Field \/ cls <> Field.
Proof.
  destruct (node_class_eqb cls Field) eqn:E.
  - left. apply node_class_eqb_eq, E.
  - right. intros H. apply node_class_eqb_eq in H. congruence.
Qed.

(** The keyword arguments that [__deepcopy__] builds. *)
Lemma deepcopy_kwargs getattr ks : forall kwargs,
  comprehension (fun k => let* v' := deepcopy (getattr k) in Ok (k, v'))%py ks
  = Ok kwargs ->
  dict_keys kwargs = ks
  /\ forall k, In k ks ->
       exists v, deepcopy (getattr k) = Ok v /\ dict_get k kwargs = Some v.
Proof.
  induction ks as [|k0 ks IH]; intros kwargs.
  - intros [= <-]. split; [reflexivity | intros k []].
  - rewrite comprehension_cons.
    destruct (deepcopy (getattr k0)) as [v0|e] eqn:E0; [|discriminate].
    cbn [bind].
    destruct (comprehension _ ks) as [rest|e] eqn:Er; [|discriminate].
    cbn [bind]. intros [= <-].
    destruct (IH rest eq_refl) as [Hkeys Hget]. split.
    + unfold dict_keys in *. simpl. rewrite Hkeys. reflexivity.
    + intros k Hin. cbn [dict_get].
      destruct (String.eqb_spec k k0) as [->|Hne]; [exists v0; auto|].
      destruct Hin as [->|Hin]; [congruence | exact (Hget k Hin)].
Qed.

(** [deepcopy] returns, or raises TypeError; it raises exactly on the
    values that contain a [Field]. *)
Lemma deepcopy_outcome : forall v,
  (exists v', deepcopy v = Ok v' /\ ~ contains_field v)
  \/ (deepcopy v = Raise TypeError /\ contains_field v).
Proof.
  induction v as [p|l IH|cls getattr IH] using value_nested_ind.
  - left. exists (VPrim p). split; [reflexivity | inversion 1].
  - assert (Hl : (exists l', comprehension deepcopy l = Ok l'
                             /\ forall x, In x l -> ~ contains_field x)
                 \/ (comprehension deepcopy l = Raise TypeError
                     /\ exists x, In x l /\ contains_field x)).
    { induction IH as [|x l Hx _ IHl]; [left; exists []; split; [reflexivity|]|].
      - intros x [].
      - rewrite comprehension_cons.
        destruct Hx as [(x' & Hx & Hnx) | (Hx & Hcx)]; rewrite Hx; cbn [bind].
        + destruct IHl as [(l' & Hl & Hnl) | (Hl & y & Hy & Hcy)];
            rewrite Hl; cbn [bind].
          * left. exists (x' :: l'). split; [reflexivity|].
            intros z [<-|Hz]; [exact Hnx | exact (Hnl z Hz)].
          * right. split; [reflexivity|]. exists y. split; [right|]; assumption.
        + right. split; [reflexivity|]. exists x. split; [left|]; auto. }
    rewrite deepcopy_list.
    destruct Hl as [(l' & Hl & Hnl) | (Hl & y & Hy & Hcy)]; rewrite Hl;
      cbn [bind].
    + left. exists (VList l'). split; [reflexivity|].
      inversion 1 as [| |? x Hin Hc]; subst. exact (Hnl x Hin Hc).
    + right. split; [reflexivity|]. exact (contains_field_elem _ _ Hy Hcy).
  - assert (Hk : forall ks,
               (exists kwargs,
                   comprehension
                     (fun k => let* v' := deepcopy (getattr k) in Ok (k, v'))%py
                     ks = Ok kwargs
                   /\ dict_keys kwargs = ks
                   /\ forall k, In k ks -> ~ contains_field (getattr k))
               \/ (comprehension
                     (fun k => let* v' := deepcopy (getattr k) in Ok (k, v'))%py
                     ks = Raise TypeError
                   /\ exists k, In k ks /\ contains_field (getattr k))).
    { induction ks as [|k ks IHks].
      - left. exists []. split; [reflexivity|]. split; [reflexivity|].
        intros k [].
      - rewrite comprehension_cons.
        destruct (IH k) as [(v' & Hv & Hnv) | (Hv & Hcv)]; rewrite Hv;
          cbn [bind].
        + destruct IHks as [(kw & Hkw & Hkeys & Hn) | (Hkw & y & Hy & Hcy)];
            rewrite Hkw; cbn [bind].
          * left. exists ((k, v') :: kw). split; [reflexivity|]. split.
            -- unfold dict_keys in *. simpl. rewrite Hkeys. reflexivity.
            -- intros z [<-|Hz]; [exact Hnv | exact (Hn z Hz)].
          * right. split; [reflexivity|]. exists y. split; [right|]; assumption.
        + right. split; [reflexivity|]. exists k. split; [left|]; auto. }
    rewrite deepcopy_node.
    destruct (Hk (slots_of cls)) as [(kw & Hkw & Hkeys & Hn) | (Hkw & y & Hy & Hcy)];
      rewrite Hkw; cbn [bind].
    + destruct (class_is_field_dec cls) as [->|Hcls].
      * right. split; [apply init_field_slots, Hkeys | constructor].
      * left. destruct (init_from_slots cls kw Hcls Hkeys) as (g' & Hinit & _).
        exists (VNode cls g'). split; [exact Hinit|].
        inversion 1 as [|? ? attr Hin Hc|]; subst; [congruence|].
        exact (Hn attr Hin Hc).
    + right. split; [reflexivity|]. exact (contains_field_attr _ _ _ Hy Hcy).
Qed.

(** What [__init__] stores for a list that was copied is the copy. *)
Lemma stored_list_copy (b : bool) l v :
  deepcopy (VList l) = Ok v ->
  (if b && negb (truthy v) then VList [] else v) = v.
Proof.
  rewrite deepcopy_list. destruct (comprehension deepcopy l) as [l'|e];
    [|discriminate].
  intros [= <-]. destruct b, l'; reflexivity.
Qed.

Lemma deepcopy_eq : forall v,
  lists_kept v -> forall v', deepcopy v = Ok v' -> value_eq v' v = true.
Proof.
  induction v as [p|l IH|cls getattr IH] using value_nested_ind;
    intros Hkept v' Hcopy.
  - injection Hcopy as <-. apply prim_eqb_refl.
  - rewrite deepcopy_list in Hcopy.
    destruct (comprehension deepcopy l) as [l'|e] eqn:E; [|discriminate].
    injection Hcopy as <-.
    inversion Hkept as [|? Helems|]; subst. clear Hkept.
    revert l' E. induction IH as [|x l Hx _ IHl]; intros l'.
    + intros [= <-]. reflexivity.
    + rewrite comprehension_cons.
      destruct (deepcopy x) as [x'|e] eqn:Ex; [|discriminate]. cbn [bind].
      destruct (comprehension deepcopy l) as [rest|e] eqn:Er; [|discriminate].
      intros [= <-]. rewrite value_eq_list.
      rewrite (Hx (Helems x (or_introl eq_refl)) x' eq_refl).
      rewrite (IHl (fun y Hy => Helems y (or_intror Hy)) rest eq_refl).
      reflexivity.
  - rewrite deepcopy_node in Hcopy.
    destruct (comprehension _ (slots_of cls)) as [kw|e] eqn:E; [|discriminate].
    cbn [bind] in Hcopy.
    destruct (deepcopy_kwargs _ _ _ E) as [Hkeys Hget].
    inversion Hkept as [| |? ? Hlists Hsub]; subst. clear Hkept.
    destruct (class_is_field_dec cls) as [->|Hcls];
      [rewrite (init_field_slots kw Hkeys) in Hcopy; discriminate|].
    destruct (init_from_slots cls kw Hcls Hkeys) as (g' & Hinit & Hg').
    rewrite Hinit in Hcopy. injection Hcopy as <-.
    apply node_eq_spec. split; [reflexivity|]. intros attr Hin _.
    destruct (Hget attr Hin) as (v & Hv & Hkw).
    rewrite (Hg' attr v Hin Hkw).
    destruct (member attr (list_params cls)) eqn:Em.
    + apply member_In in Em. destruct (Hlists attr Em) as [l Hl].
      rewrite Hl in Hv. rewrite (stored_list_copy true l v Hv).
      rewrite <- Hl in Hv. exact (IH attr (Hsub attr Hin) v Hv).
    + cbn [andb]. exact (IH attr (Hsub attr Hin) v Hv).
Qed.

Lemma copy_from_slots cls getattr :
  cls <> Field ->
  exists getattr',
    __copy__ cls getattr = Ok (VNode cls getattr')
    /\ forall attr, In attr (slots_of cls) ->
         getattr' attr
         = if member attr (list_params cls) && negb (truthy (getattr attr))
           then VList [] else getattr attr.
Proof.
  intros Hcls. unfold __copy__.
  destruct (init_from_slots cls
              (List.map (fun k => (k, getattr k)) (slots_of cls)) Hcls)
    as (g' & Hinit & Hg').
  { unfold dict_keys. rewrite List.map_map. apply List.map_id. }
  exists g'. split; [exact Hinit|]. intros attr Hin.
  apply Hg'; [exact Hin | apply dict_get_comprehension, Hin].
Qed.

End MoreAst.

(** X11: [copy.copy] of a node of any class but [Field], whose list
    attributes hold lists, returns a node of the same class that holds the
    same value in every slot and is equal to the original, on either side
    of [==]. *)
Theorem copy_equal (cls : Ast.node_class) (getattr : string -> Ast.value) :
  cls <> Ast.Field ->
  (forall attr, In attr (Ast.list_params cls) ->
                exists l, getattr attr = Ast.VList l) ->
  exists getattr',
    Ast.__copy__ cls getattr = Ok (Ast.VNode cls getattr')
    /\ (forall attr, In attr (Ast.slots_of cls) ->
                     getattr' attr = getattr attr)
    /\ Ast.value_eq (Ast.VNode cls getattr') (Ast.VNode cls getattr) = true
    /\ Ast.value_eq (Ast.VNode cls getattr) (Ast.VNode cls getattr') = true.
Proof.
  intros Hcls Hlists.
  destruct (copy_from_slots cls getattr Hcls) as (g' & Hcopy & Hg').
  assert (Hsame : forall attr, In attr (Ast.slots_of cls) ->
                               g' attr = getattr attr).
  { intros attr Hin. rewrite (Hg' attr Hin).
    destruct (Ast.member attr (Ast.list_params cls)) eqn:Em; [|reflexivity].
    apply member_In in Em. destruct (Hlists attr Em) as [l ->].
    destruct l; reflexivity. }
  assert (Heq : Ast.value_eq (Ast.VNode cls g') (Ast.VNode cls getattr) = true).
  { apply node_eq_spec. split; [reflexivity|]. intros attr Hin _.
    rewrite (Hsame attr Hin). apply value_eq_refl. }
  exists g'. split; [exact Hcopy|]. split; [exact Hsame|].
  split; [exact Heq|]. rewrite value_eq_sym. exact Heq.
Qed.

Lemma copy_equal_witness :
  exists getattr',
    Ast.__copy__ Ast.Directive
      (fun a => if String.eqb a "arguments" then Ast.VList []
                else Ast.VPrim Ast.PNone)
    = Ok (Ast.VNode Ast.Directive getattr')
    /\ (forall attr, In attr (Ast.slots_of Ast.Directive) ->
         getattr' attr
         = if String.eqb attr "arguments" then Ast.VList []
           else Ast.VPrim Ast.PNone)
    /\ Ast.value_eq (Ast.VNode Ast.Directive getattr')
         (Ast.VNode Ast.Directive
            (fun a => if String.eqb a "arguments" then Ast.VList []
                      else Ast.VPrim Ast.PNone)) = true
    /\ Ast.value_eq
         (Ast.VNode Ast.Directive
            (fun a => if String.eqb a "arguments" then Ast.VList []
                      else Ast.VPrim Ast.PNone))
         (Ast.VNode Ast.Directive getattr') = true.
Proof.
  apply (copy_equal Ast.Directive
           (fun a => if String.eqb a "arguments" then Ast.VList []
                     else Ast.VPrim Ast.PNone)).
  - discriminate.
  - intros attr [<-|[]]. exists []. reflexivity.
Defined.

(** X12: [copy.copy] raises TypeError exactly on the nodes of class
    [Field], whose slot [response_name] is no parameter of [__init__]; on
    every other class it returns, and the copy has the [source] of the
    original, except for a [FragmentDefinition], whose slots leave [source]
    out: its copy has [source] [None]. *)
Theorem copy_raises_iff_field (cls : Ast.node_class)
  (getattr : string -> Ast.value) :
  (Ast.__copy__ cls getattr = Raise TypeError <-> cls = Ast.Field)
  /\ (cls <> Ast.Field ->
      exists getattr',
        Ast.__copy__ cls getattr = Ok (Ast.VNode cls getattr')
        /\ getattr' "source"
           = if Ast.node_class_eqb cls Ast.FragmentDefinition
             then Ast.VPrim Ast.PNone else getattr "source").
Proof.
  split; [split|].
  - intros Hraise. destruct (class_is_field_dec cls) as [H|H]; [exact H|].
    destruct (copy_from_slots cls getattr H) as (g' & Hcopy & _). congruence.
  - intros ->. reflexivity.
  - intros Hcls. destruct cls; try congruence; eexists; split; reflexivity.
Qed.

(** X13: [copy.deepcopy] of an attribute value raises TypeError exactly
    when a [Field] node can be reached from it through slots and list
    elements; otherwise it returns. *)
Theorem deepcopy_raises_iff (v : Ast.value) :
  (Ast.deepcopy v = Raise TypeError <-> Ast.contains_field v)
  /\ (~ Ast.contains_field v <-> exists v', Ast.deepcopy v = Ok v').
Proof.
  destruct (deepcopy_outcome v) as [(v' & Hv & Hn) | (Hv & Hc)].
  - split; split.
    + congruence.
    + intros Hc. contradiction.
    + intros _. exists v'. exact Hv.
    + intros _. exact Hn.
  - split; split.
    + intros _. exact Hc.
    + intros _. exact Hv.
    + intros Hn. contradiction.
    + intros [v' Hv']. congruence.
Qed.

(** X14: [copy.deepcopy] of a value that contains no [Field] and whose
    nodes hold lists in their list attributes returns a value equal to the
    original, on either side of [==]. *)
Theorem deepcopy_equal (v : Ast.value) :
  Ast.lists_kept v -> ~ Ast.contains_field v ->
  exists v', Ast.deepcopy v = Ok v'
             /\ Ast.value_eq v' v = true /\ Ast.value_eq v v' = true.
Proof.
  intros Hkept Hn.
  destruct (deepcopy_outcome v) as [(v' & Hv & _) | (_ & Hc)];
    [|contradiction].
  exists v'. split; [exact Hv|].
  pose proof (deepcopy_eq v Hkept v' Hv) as Heq.
  split; [exact Heq|]. rewrite value_eq_sym. exact Heq.
Qed.

Lemma deepcopy_equal_witness :
  exists v',
    Ast.deepcopy (Ast.VList [Ast.mk_Name "id" Ast.PNone (Ast.PPair 1 3)])
    = Ok v'
    /\ Ast.value_eq v' (Ast.VList [Ast.mk_Name "id" Ast.PNone (Ast.PPair 1 3)])
       = true
    /\ Ast.value_eq (Ast.VList [Ast.mk_Name "id" Ast.PNone (Ast.PPair 1 3)]) v'
       = true.
Proof.
  apply (deepcopy_equal
           (Ast.VList [Ast.mk_Name "id" Ast.PNone (Ast.PPair 1 3)])).
  - constructor. intros x [<-|[]]. constructor.
    + intros attr [].
    + intros attr Hin. unfold Ast.mk_Name.
      repeat destruct (String.eqb attr _); constructor.
  - inversion 1 as [| |? x Hin Hc]; subst.
    destruct Hin as [<-|[]].
    inversion Hc as [|? ? attr Hin Hc'|]; subst.
    revert Hc'. unfold Ast.mk_Name.
    repeat destruct (String.eqb attr _); inversion 1.
Defined.

(** X15: [node[key]] raises KeyError exactly when the key is no slot of
    the class of the node, and it reads every item of [to_dict] other than
    [__kind__]: the item holds the conversion of what [node[key]]
    returns. *)
Theorem getitem_reads_to_dict (cls : Ast.node_class)
  (getattr : string -> Ast.value) :
  (forall key, Ast.__getitem__ cls getattr key = Raise KeyError
               <-> ~ In key (Ast.slots_of cls))
  /\ (forall key, In key (Ast.slots_of cls) ->
                  Ast.__getitem__ cls getattr key = Ok (getattr key))
  /\ (forall items key d,
        Ast.to_dict (Ast.VNode cls getattr) = Ast.DDict items ->
        In (key, d) items -> key <> "__kind__"%string ->
        exists v, Ast.__getitem__ cls getattr key = Ok v
                  /\ Ast.node_to_dict v = d).
Proof.
  assert (Hin : forall key, In key (Ast.slots_of cls) ->
                  Ast.__getitem__ cls getattr key = Ok (getattr key)).
  { intros key H. unfold Ast.__getitem__.
    apply member_In in H. rewrite H. reflexivity. }
  split; [|split; [exact Hin|]].
  - intros key. unfold Ast.__getitem__.
    destruct (Ast.member key (Ast.slots_of cls)) eqn:E; cbn [negb].
    + apply member_In in E. split; [discriminate | contradiction].
    + split; [|reflexivity]. intros _ H. apply member_In in H. congruence.
  - intros items key d Hdict Hitem Hkind.
    unfold Ast.to_dict, Ast.node_to_dict in *.
    rewrite node_to_dict_items in Hdict. injection Hdict as <-.
    apply in_app_or in Hitem as [Hitem | [Hitem | []]];
      [|congruence].
    apply in_map_iff in Hitem as (attr & [= <- <-] & Hattr).
    apply props_spec in Hattr as [Hslot _].
    exists (getattr attr). split; [exact (Hin attr Hslot) | reflexivity].
Qed.

(** X16: [==] on attribute values, and so [Node.__eq__], is an
    equivalence: reflexive, symmetric and transitive. *)
Theorem node_equality_equivalence :
  (forall v, Ast.value_eq v v = true)
  /\ (forall v w, Ast.value_eq v w = Ast.value_eq w v)
  /\ (forall u v w, Ast.value_eq u v = true -> Ast.value_eq v w = true ->
                    Ast.value_eq u w = true).
Proof.
  split; [exact value_eq_refl|]. split; [exact value_eq_sym|].
  exact value_eq_trans.
Qed.

(** X17: two values that [node_to_dict] converts to the same result are
    equal; the conversion loses nothing that [==] looks at. *)
Theorem to_dict_determines_equality (v w : Ast.value) :
  Ast.node_to_dict v = Ast.node_to_dict w -> Ast.value_eq v w = true.
Proof. apply to_dict_eq. Qed.

Lemma to_dict_determines_equality_witness :
  Ast.value_eq (Ast.mk_Name "id" (Ast.PStr "a.graphql") (Ast.PPair 1 3))
               (Ast.mk_Name "id" (Ast.PStr "b.graphql") (Ast.PPair 1 3))
  = true.
Proof.
  apply (to_dict_determines_equality
           (Ast.mk_Name "id" (Ast.PStr "a.graphql") (Ast.PPair 1 3))
           (Ast.mk_Name "id" (Ast.PStr "b.graphql") (Ast.PPair 1 3))).
  reflexivity.
Defined.

(** ** [schema/_schema_from_ast.py]: the type map builder *)
Section MoreBuilder.
Import SchemaFromAst.
Local Open Scope string_scope.

Context (tv : Ast.value -> _schema.type_ -> result Ast.dval).
Context (da : list _ast.Directive
              -> result (option (list (string * Ast.dval)))).
Context (tn : list (string * _ast.TypeDefinition)).
Context (exts : gmap string (list _ast.TypeExtension)).

Lemma build_type_spec rec node st :
  build_type tn rec node st
  = match _cache st !! named_type_of node with
    | Some t => Ok (wrap_like node t, st)
    | None =>
        match dict_get (named_type_of node) tn with
        | None =>
            Raise (SDLError ("Type " ++ named_type_of node
                             ++ " not found in document"))
        | Some _ =>
            Ok (wrap_like node (_schema.Ref (named_type_of node)),
                mkBuilder (_cache st) (named_type_of node :: _stack st))
        end
    end.
Proof.
  induction node as [n|node IH|node IH];
    cbn [build_type named_type_of wrap_like].
  - destruct (_cache st !! n); [reflexivity|].
    unfold mbind, push, raise. cbn [_stack _cache].
    destruct (dict_get n tn); [|reflexivity].
    cbn [_stack existsb]. rewrite String.eqb_refl. reflexivity.
  - unfold mbind, ret. rewrite IH.
    destruct (_cache st !! named_type_of node); [reflexivity|].
    destruct (dict_get (named_type_of node) tn); reflexivity.
  - unfold mbind, ret. rewrite IH.
    destruct (_cache st !! named_type_of node); [reflexivity|].
    destruct (dict_get (named_type_of node) tn); reflexivity.
Qed.

Lemma cache_all_spec ts : forall c c',
  cache_all ts c = Ok c' ->
  (forall k, (forall t, In t ts -> _schema.name_of t <> Ok k) ->
             c' !! k = c !! k)
  /\ (forall k t, c' !! k = Some t ->
                  (In t ts /\ _schema.name_of t = Ok k) \/ c !! k = Some t)
  /\ (forall t, In t ts -> exists k, _schema.name_of t = Ok k).
Proof.
  induction ts as [|t0 ts IH]; intros c c'; cbn [cache_all].
  - intros [= <-]. split; [reflexivity|]. split; [auto | intros t []].
  - destruct (_schema.name_of t0) as [n|e] eqn:En; [|discriminate].
    cbn [Py.bind]. intros H. destruct (IH _ _ H) as (Hout & Hin & Hnamed).
    split; [|split].
    + intros k Hk. rewrite Hout by (intros t Ht; apply Hk; right; exact Ht).
      apply lookup_insert_ne. intros ->. exact (Hk t0 (or_introl eq_refl) En).
    + intros k t Hkt. destruct (Hin k t Hkt) as [[Ht Hn] | Hc].
      * left. split; [right|]; assumption.
      * destruct (decide (n = k)) as [->|Hne].
        -- rewrite lookup_insert_eq in Hc. injection Hc as <-.
           left. split; [left; reflexivity | exact En].
        -- rewrite lookup_insert_ne in Hc by exact Hne. right. exact Hc.
    + intros t [<-|Ht]; [exists n; exact En | exact (Hnamed t Ht)].
Qed.

Lemma lookup_insert_cases {V} (m : gmap string V) n v k t :
  <[n := v]> m !! k = Some t -> (n = k /\ v = t) \/ m !! k = Some t.
Proof.
  destruct (decide (n = k)) as [->|Hne].
  - rewrite lookup_insert_eq. intros [= <-]. left. split; reflexivity.
  - rewrite lookup_insert_ne by exact Hne. intros H. right. exact H.
Qed.

Lemma cache_all_unnamed ts : forall c,
  (exists t, In t ts /\ _schema.name_of t = Raise AttributeError) ->
  cache_all ts c = Raise AttributeError.
Proof.
  induction ts as [|t0 ts IH]; intros c (t & Hin & Hn); [destruct Hin|].
  cbn [cache_all]. destruct (_schema.name_of t0) as [n|e] eqn:En.
  - cbn [Py.bind]. apply IH. destruct Hin as [<-|Hin]; [congruence|].
    exists t. split; assumption.
  - destruct t0; simpl in En; try discriminate; injection En as <-;
      reflexivity.
Qed.

Lemma cache_all_named ts : forall c,
  (forall t, In t ts -> _schema.name_of t <> Raise AttributeError) ->
  exists c', cache_all ts c = Ok c'.
Proof.
  induction ts as [|t0 ts IH]; intros c H; [exists c; reflexivity|].
  cbn [cache_all]. destruct (_schema.name_of t0) as [n|e] eqn:En.
  - cbn [Py.bind]. apply IH. intros t Ht. apply H. right. exact Ht.
  - exfalso. apply (H t0 (or_introl eq_refl)). rewrite En.
    destruct t0; simpl in En; congruence.
Qed.

Create HintDb keeps.

Lemma keeps_ret {A} (a : A) : keeps_cache (ret a).
Proof.
  intros st a' st' [= <- <-]. split; [reflexivity | exists []; reflexivity].
Qed.

Lemma keeps_raise {A} e : keeps_cache (@raise A e).
Proof. intros st a st' H. discriminate H. Qed.

Lemma keeps_lift {A} (r : result A) : keeps_cache (lift r).
Proof.
  intros st a st'. unfold lift. destruct r; [|discriminate].
  intros [= <- <-]. split; [reflexivity | exists []; reflexivity].
Qed.

Lemma keeps_bind {A B} (m : M A) (k : A -> M B) :
  keeps_cache m -> (forall a, keeps_cache (k a)) -> keeps_cache (mbind m k).
Proof.
  intros Hm Hk st b st'. unfold mbind.
  destruct (m st) as [[a st1]|e] eqn:E; [|discriminate]. intros H.
  destruct (Hm _ _ _ E) as [Hc1 [p1 Hs1]].
  destruct (Hk a _ _ _ H) as [Hc2 [p2 Hs2]].
  split; [congruence|]. exists (p2 ++ p1)%list.
  rewrite Hs2, Hs1. apply app_assoc.
Qed.

Lemma keeps_map_m {A B} (f : A -> M B) l :
  (forall x, keeps_cache (f x)) -> keeps_cache (map_m f l).
Proof.
  intros Hf. induction l as [|x l IH]; cbn [map_m]; [apply keeps_ret|].
  apply keeps_bind; [apply Hf|]. intros y.
  apply keeps_bind; [exact IH|]. intros ys. apply keeps_ret.
Qed.

Lemma keeps_build_type rec node : keeps_cache (build_type tn rec node).
Proof.
  intros st t st'. rewrite build_type_spec.
  destruct (_cache st !! named_type_of node).
  - intros [= <- <-]. split; [reflexivity | exists []; reflexivity].
  - destruct (dict_get (named_type_of node) tn); [|discriminate].
    intros [= <- <-]. split; [reflexivity|].
    exists [named_type_of node]. reflexivity.
Qed.

#[local] Hint Resolve keeps_ret keeps_raise keeps_lift keeps_build_type : keeps.

#[local] Ltac keeps :=
  repeat first
    [ apply keeps_bind; [|intros ?]
    | apply keeps_map_m; intros ?
    | solve [auto with keeps]
    | match goal with
      | |- keeps_cache (match ?x with _ => _ end) => destruct x
      end ].

Lemma keeps_argument rec node : keeps_cache (argument tv tn rec node).
Proof. unfold argument. keeps. Qed.

Lemma keeps_input_field rec node : keeps_cache (input_field tv tn rec node).
Proof. unfold input_field. keeps. Qed.

#[local] Hint Resolve keeps_argument keeps_input_field : keeps.

Lemma keeps_arguments_or_none rec args :
  keeps_cache (arguments_or_none tv tn rec args).
Proof. unfold arguments_or_none. keeps. Qed.

#[local] Hint Resolve keeps_arguments_or_none : keeps.

Lemma keeps_object_field rec node :
  keeps_cache (object_field tv da tn rec node).
Proof. unfold object_field. keeps. Qed.

Lemma keeps_enum_value node : keeps_cache (enum_value da node).
Proof. unfold enum_value. keeps. Qed.

#[local] Hint Resolve keeps_object_field keeps_enum_value : keeps.

Lemma keeps_object_type_extend rec name desc es : forall fields interfaces,
  keeps_cache (object_type_extend tv da tn rec name desc es fields interfaces).
Proof.
  induction es as [|e es IH]; intros fields interfaces;
    cbn [object_type_extend]; [apply keeps_ret|].
  destruct e; try apply keeps_raise.
  apply keeps_bind; [keeps|]. intros new_fields.
  destruct interfaces0; [apply keeps_raise|].
  apply keeps_bind; [keeps|]. intros. apply IH.
Qed.

Lemma keeps_interface_type_extend rec name desc es : forall fields,
  keeps_cache (interface_type_extend tv da tn rec name desc es fields).
Proof.
  induction es as [|e es IH]; intros fields;
    cbn [interface_type_extend]; [apply keeps_ret|].
  destruct e; try apply keeps_raise.
  apply keeps_bind; [keeps|]. intros. apply IH.
Qed.

Lemma keeps_union_type_extend rec name desc es : forall types,
  keeps_cache (union_type_extend tn rec name desc es types).
Proof.
  induction es as [|e es IH]; intros types;
    cbn [union_type_extend]; [apply keeps_ret|].
  destruct e; try apply keeps_raise.
  apply keeps_bind; [keeps|]. intros. apply IH.
Qed.

Lemma keeps_enum_type_extend name desc es values :
  keeps_cache (enum_type_extend name desc es values).
Proof.
  destruct es as [|e es]; cbn [enum_type_extend]; [apply keeps_ret|].
  destruct e; apply keeps_raise.
Qed.

#[local] Hint Resolve keeps_object_type_extend keeps_interface_type_extend
  keeps_union_type_extend keeps_enum_type_extend : keeps.

Lemma keeps_type_from_definition rec d :
  keeps_cache (type_from_definition tv da tn exts rec d).
Proof.
  destruct d; cbn [type_from_definition];
    unfold object_type, interface_type, enum_type, union_type, scalar_type,
      input_object_type; keeps.
Qed.

Lemma returns_ret {A} (P : A -> Prop) a : P a -> returns P (ret a).
Proof. intros H st a' st' [= <- <-]. exact H. Qed.

Lemma returns_raise {A} (P : A -> Prop) e : returns P (raise e).
Proof. intros st a st' H. discriminate H. Qed.

Lemma returns_bind {A B} (P : B -> Prop) (m : M A) (k : A -> M B) :
  (forall a, returns P (k a)) -> returns P (mbind m k).
Proof.
  intros Hk st b st'. unfold mbind.
  destruct (m st) as [[a st1]|e]; [|discriminate]. apply Hk.
Qed.

Lemma type_from_definition_name rec d :
  returns (fun t => _schema.name_of t = Ok (_ast.def_name d))
    (type_from_definition tv da tn exts rec d).
Proof.
  destruct d; cbn [type_from_definition _ast.def_name].
  - apply returns_ret. reflexivity.
  - unfold object_type. do 2 (apply returns_bind; intros ?).
    generalize (exts !!! name) a a0.
    induction l as [|e es IH]; intros fs ifs; cbn [object_type_extend];
      [apply returns_ret; reflexivity|].
    destruct e; try apply returns_raise.
    apply returns_bind; intros ?. destruct interfaces0; [apply returns_raise|].
    apply returns_bind; intros ?. apply IH.
  - unfold interface_type. apply returns_bind; intros ?.
    generalize (exts !!! name) a.
    induction l as [|e es IH]; intros fs; cbn [interface_type_extend];
      [apply returns_ret; reflexivity|].
    destruct e; try apply returns_raise.
    apply returns_bind; intros ?. apply IH.
  - unfold union_type. apply returns_bind; intros ?.
    generalize (exts !!! name) a.
    induction l as [|e es IH]; intros ts; cbn [union_type_extend];
      [apply returns_ret; reflexivity|].
    destruct e; try apply returns_raise.
    apply returns_bind; intros ?. apply IH.
  - unfold enum_type. apply returns_bind; intros ?.
    destruct (exts !!! name) as [|e es]; cbn [enum_type_extend];
      [apply returns_ret; reflexivity|].
    destruct e; apply returns_raise.
  - unfold input_object_type. apply returns_bind; intros ?.
    apply returns_ret. reflexivity.
Qed.

(** Building a definition: a cached name gives the cached type; otherwise
    the type built from the definition is cached under the name of the
    definition, and nothing else is. *)
Lemma build_type_at_spec n d st t st' :
  build_type_at tv da tn exts (S n) d st = Ok (t, st') ->
  match _cache st !! _ast.def_name d with
  | Some t0 => t = t0 /\ st' = st
  | None =>
      _cache st' = <[_ast.def_name d := t]> (_cache st)
      /\ _schema.name_of t = Ok (_ast.def_name d)
      /\ exists pushed, _stack st' = (pushed ++ _stack st)%list
  end.
Proof.
  cbn [build_type_at]. unfold build_type_definition.
  destruct (_cache st !! _ast.def_name d) as [t0|] eqn:Ec.
  - intros [= <- <-]. split; reflexivity.
  - unfold mbind at 1. unfold push. unfold mbind at 1.
    destruct (type_from_definition tv da tn exts _ d _) as [[t1 st1]|e] eqn:E;
      [|discriminate].
    pose proof (type_from_definition_name _ _ _ _ _ E) as Hname.
    destruct (keeps_type_from_definition _ _ _ _ _ E) as [Hc [pushed Hs]].
    cbn [_cache _stack] in Hc, Hs.
    unfold mbind, cache_set, pop, cache_get. cbn [_cache _stack].
    rewrite Hs. destruct pushed as [|x pushed]; cbn [app _cache];
      rewrite lookup_insert_eq; intros [= <- <-]; cbn [_cache _stack];
      (split; [congruence|]); (split; [exact Hname|]).
    + exists []. reflexivity.
    + exists (pushed ++ [_ast.def_name d])%list. rewrite <- app_assoc.
      reflexivity.
Qed.

Lemma build_types_spec n ds : forall st ts st',
  named_cache st ->
  map_m (build_type_at tv da tn exts (S n)) ds st = Ok (ts, st') ->
  named_cache st'
  /\ (forall k t0, _cache st !! k = Some t0 -> _cache st' !! k = Some t0)
  /\ Forall2 (fun d t =>
                _schema.name_of t = Ok (_ast.def_name d)
                /\ forall t0, _cache st !! _ast.def_name d = Some t0 -> t = t0)
       ds ts.
Proof.
  induction ds as [|d ds IH]; intros st ts st' Hnamed.
  - intros [= <- <-]. split; [exact Hnamed|]. split; [auto | constructor].
  - cbn [map_m]. unfold mbind at 1.
    destruct (build_type_at tv da tn exts (S n) d st) as [[t st1]|e] eqn:Ed;
      [|discriminate].
    unfold mbind at 1.
    destruct (map_m _ ds st1) as [[ts1 st2]|e] eqn:Eds; [|discriminate].
    intros [= <- <-].
    pose proof (build_type_at_spec _ _ _ _ _ Ed) as Hd.
    assert (Hstep : named_cache st1
                    /\ (forall k t0, _cache st !! k = Some t0 ->
                                     _cache st1 !! k = Some t0)
                    /\ _schema.name_of t = Ok (_ast.def_name d)
                    /\ forall t0, _cache st !! _ast.def_name d = Some t0 ->
                                  t = t0).
    { destruct (_cache st !! _ast.def_name d) as [t0|] eqn:Ec.
      - destruct Hd as [-> ->]. split; [exact Hnamed|]. split; [auto|].
        split; [exact (Hnamed _ _ Ec) | intros ? [= <-]; reflexivity].
      - destruct Hd as (Hc & Hname & _). split; [|split; [|split]].
        + intros k t1. rewrite Hc. intros Hk.
          apply lookup_insert_cases in Hk as [[<- <-] | Hk];
            [exact Hname | exact (Hnamed _ _ Hk)].
        + intros k t1 Hk. rewrite Hc. rewrite lookup_insert_ne; [exact Hk|].
          intros <-. congruence.
        + exact Hname.
        + discriminate. }
    destruct Hstep as (Hn1 & Hmono1 & Hname & Hover).
    destruct (IH _ _ _ Hn1 Eds) as (Hn2 & Hmono2 & Hall).
    split; [exact Hn2|]. split; [auto|].
    constructor; [split; assumption|].
    eapply Forall2_impl; [exact Hall|]. cbv beta.
    intros d' t' [Hn' Ho']. split; [exact Hn'|].
    intros t0 Ht0. apply Ho', Hmono1, Ht0.
Qed.

Lemma by_name_spec ts : forall names acc,
  Forall2 (fun n t => _schema.name_of t = Ok n) names ts ->
  NoDup (dict_keys acc ++ names) ->
  by_name ts acc = Ok (acc ++ combine names ts)%list.
Proof.
  induction ts as [|t ts IH]; intros names acc Hall Hnd.
  - inversion Hall; subst. cbn [by_name combine]. rewrite app_nil_r.
    reflexivity.
  - inversion Hall as [|n ? names' ? Hn Hrest]; subst.
    cbn [by_name]. rewrite Hn. cbn [Py.bind].
    assert (Hfresh : ~ In n (dict_keys acc)).
    { intros Hin. apply NoDup_app in Hnd as (_ & Hdisj & _).
      apply (Hdisj n); [apply list_elem_of_In, Hin | left]. }
    rewrite (dict_set_new n t acc Hfresh).
    rewrite (IH names' (acc ++ [(n, t)])%list Hrest).
    + rewrite <- app_assoc. reflexivity.
    + rewrite dict_keys_app, <- app_assoc. exact Hnd.
Qed.

Lemma map_m_app {A B} (f : A -> M B) l1 l2 :
  same_run (map_m f (l1 ++ l2))
    (let! a := map_m f l1 in
     let! b := map_m f l2 in
     ret (a ++ b)%list).
Proof.
  induction l1 as [|x l1 IH]; intros st; cbn [map_m app].
  - unfold mbind, ret. destruct (map_m f l2 st) as [[b st']|e]; reflexivity.
  - unfold mbind, ret in *. destruct (f x st) as [[y st1]|e]; [|reflexivity].
    rewrite IH. destruct (map_m f l1 st1) as [[a st2]|e]; [|reflexivity].
    destruct (map_m f l2 st2) as [[b st3]|e]; reflexivity.
Qed.

Lemma interface_type_extend_merge rec name desc es : forall acc st,
  forallb is_interface_extension es = true ->
  interface_type_extend tv da tn rec name desc es acc st
  = (let! more :=
       map_m (object_field tv da tn rec)
         (concat (List.map interface_extension_fields es)) in
     ret (_schema.InterfaceType name desc (acc ++ more)%list)) st.
Proof.
  induction es as [|e es IH]; intros acc st Hall.
  - cbn. unfold mbind, ret. rewrite app_nil_r. reflexivity.
  - cbn [forallb] in Hall. apply andb_prop in Hall as [He Hall].
    destruct e; try discriminate He.
    cbn [interface_type_extend List.map concat interface_extension_fields].
    unfold mbind, ret. rewrite (map_m_app _ fields _ st). unfold mbind, ret.
    destruct (map_m _ fields st) as [[nf st1]|err]; [|reflexivity].
    rewrite (IH _ _ Hall). unfold mbind, ret.
    destruct (map_m _ _ st1) as [[more st2]|err]; [|reflexivity].
    rewrite app_assoc. reflexivity.
Qed.

Lemma interface_type_extend_reject rec name desc good bad rest : forall acc st,
  forallb is_interface_extension good = true ->
  is_interface_extension bad = false ->
  interface_type_extend tv da tn rec name desc (good ++ bad :: rest) acc st
  = (let! more :=
       map_m (object_field tv da tn rec)
         (concat (List.map interface_extension_fields good)) in
     raise (SDLError
              ("Expected an InterfaceTypeExtension node for InterfaceType "
               ++ name))) st.
Proof.
  induction good as [|e es IH]; intros acc st Hall Hbad.
  - cbn [app List.map concat map_m]. unfold mbind, ret.
    destruct bad; try discriminate Hbad; reflexivity.
  - cbn [forallb] in Hall. apply andb_prop in Hall as [He Hall].
    destruct e; try discriminate He.
    cbn [app interface_type_extend List.map concat interface_extension_fields].
    unfold mbind, ret. rewrite (map_m_app _ fields _ st). unfold mbind, ret.
    destruct (map_m _ fields st) as [[nf st1]|err]; [|reflexivity].
    rewrite (IH _ _ Hall Hbad). unfold mbind, ret.
    destruct (map_m _ _ st1) as [[more st2]|err]; reflexivity.
Qed.

Lemma union_type_extend_merge rec name desc es : forall acc st,
  forallb is_union_extension es = true ->
  union_type_extend tn rec name desc es acc st
  = (let! more :=
       map_m (build_type tn rec)
         (concat (List.map union_extension_types es)) in
     ret (_schema.UnionType name desc (acc ++ more)%list)) st.
Proof.
  induction es as [|e es IH]; intros acc st Hall.
  - cbn. unfold mbind, ret. rewrite app_nil_r. reflexivity.
  - cbn [forallb] in Hall. apply andb_prop in Hall as [He Hall].
    destruct e; try discriminate He.
    cbn [union_type_extend List.map concat union_extension_types].
    unfold mbind, ret. rewrite (map_m_app _ types0 _ st). unfold mbind, ret.
    destruct (map_m _ types0 st) as [[nf st1]|err]; [|reflexivity].
    rewrite (IH _ _ Hall). unfold mbind, ret.
    destruct (map_m _ _ st1) as [[more st2]|err]; [|reflexivity].
    rewrite app_assoc. reflexivity.
Qed.

Lemma union_type_extend_reject rec name desc good bad rest : forall acc st,
  forallb is_union_extension good = true ->
  is_union_extension bad = false ->
  union_type_extend tn rec name desc (good ++ bad :: rest) acc st
  = (let! more :=
       map_m (build_type tn rec)
         (concat (List.map union_extension_types good)) in
     raise (SDLError
              ("Expected an UnionTypeExtension node for UnionType "
               ++ name))) st.
Proof.
  induction good as [|e es IH]; intros acc st Hall Hbad.
  - cbn [app List.map concat map_m]. unfold mbind, ret.
    destruct bad; try discriminate Hbad; reflexivity.
  - cbn [forallb] in Hall. apply andb_prop in Hall as [He Hall].
    destruct e; try discriminate He.
    cbn [app union_type_extend List.map concat union_extension_types].
    unfold mbind, ret. rewrite (map_m_app _ types0 _ st). unfold mbind, ret.
    destruct (map_m _ types0 st) as [[nf st1]|err]; [|reflexivity].
    rewrite (IH _ _ Hall Hbad). unfold mbind, ret.
    destruct (map_m _ _ st1) as [[more st2]|err]; reflexivity.
Qed.

End MoreBuilder.

(** X18: [build_type] on a type reference never builds a definition.
    Below the list and non-null wrappers, a cached name gives the cached
    type and leaves the builder as it was; a name that is not cached but
    defined in the document gives the thunk returned by [ref], and the
    name stays on the stack; any other name raises the SDLError
    [Type ... not found in document]. *)
Theorem build_type_reference
  (tn : list (string * SchemaFromAst._ast.TypeDefinition))
  (rec : SchemaFromAst._ast.TypeDefinition
         -> SchemaFromAst.M SchemaFromAst._schema.type_)
  (node : SchemaFromAst._ast.type_node) (st : SchemaFromAst.builder) :
  SchemaFromAst.build_type tn rec node st
  = match SchemaFromAst._cache st !! SchemaFromAst.named_type_of node with
    | Some t => Ok (SchemaFromAst.wrap_like node t, st)
    | None =>
        match dict_get (SchemaFromAst.named_type_of node) tn with
        | None =>
            Raise (SDLError ("Type " ++ SchemaFromAst.named_type_of node
                             ++ " not found in document"))
        | Some _ =>
            Ok (SchemaFromAst.wrap_like node
                  (SchemaFromAst._schema.Ref
                     (SchemaFromAst.named_type_of node)),
                SchemaFromAst.mkBuilder (SchemaFromAst._cache st)
                  (SchemaFromAst.named_type_of node
                   :: SchemaFromAst._stack st))
        end
    end.
Proof. apply build_type_spec. Qed.

Lemma init_spec (known_types : list SchemaFromAst._schema.type_)
  (b : SchemaFromAst.builder) :
  SchemaFromAst.init known_types = Ok b ->
  SchemaFromAst._stack b = []
  /\ (forall s, In s SchemaFromAst._schema.SPECIFIED_SCALAR_TYPES ->
        exists n, SchemaFromAst._schema.name_of s = Ok n
                  /\ SchemaFromAst._cache b !! n = Some s)
  /\ (forall k t, SchemaFromAst._cache b !! k = Some t ->
        SchemaFromAst._schema.name_of t = Ok k
        /\ (In t known_types
            \/ In t SchemaFromAst._schema.SPECIFIED_SCALAR_TYPES))
  /\ (forall t, In t known_types ->
        SchemaFromAst._schema.name_of t <> Raise AttributeError).
Proof.
  unfold SchemaFromAst.init. intros H.
  destruct (SchemaFromAst.cache_all known_types ∅) as [c|e] eqn:Ec;
    [|discriminate].
  cbn [Py.bind] in H. injection H as <-.
  cbn [SchemaFromAst._stack SchemaFromAst._cache].
  destruct (cache_all_spec _ _ _ Ec) as (_ & Hin & Hnamed).
  split; [reflexivity|]. split; [|split].
  - intros s Hs. simpl in Hs.
    destruct Hs as [<-|[<-|[<-|[<-|[<-|[]]]]]]; eexists;
      (split; [reflexivity|]); cbn [SchemaFromAst._cache];
      repeat (rewrite lookup_insert_ne by discriminate);
      apply lookup_insert_eq.
  - intros k t Hkt.
    assert (Hcases :
      (In t SchemaFromAst._schema.SPECIFIED_SCALAR_TYPES
       /\ SchemaFromAst._schema.name_of t = Ok k) \/ c !! k = Some t).
    { simpl in Hkt.
      repeat (apply lookup_insert_cases in Hkt as [[<- <-] | Hkt];
              [left; split; [simpl; tauto | reflexivity]|]).
      right. exact Hkt. }
    destruct Hcases as [[Hs Hn] | Hc]; [split; [exact Hn | right; exact Hs]|].
    destruct (Hin k t Hc) as [[Ht Hn] | Hempty].
    + split; [exact Hn | left; exact Ht].
    + rewrite lookup_empty in Hempty. discriminate.
  - intros t Ht. destruct (Hnamed t Ht) as [k ->]. discriminate.
Qed.

(** X19: when [_TypeMapBuilder.__init__] returns, the stack is empty,
    every specified scalar is cached under its name whatever the known
    types are, every cached type is a known type or a specified scalar
    stored under its own name, and every known type has a name. *)
Theorem init_cache (known_types : list SchemaFromAst._schema.type_)
  (b : SchemaFromAst.builder) :
  SchemaFromAst.init known_types = Ok b ->
  SchemaFromAst._stack b = []
  /\ (forall s, In s SchemaFromAst._schema.SPECIFIED_SCALAR_TYPES ->
        exists n, SchemaFromAst._schema.name_of s = Ok n
                  /\ SchemaFromAst._cache b !! n = Some s)
  /\ (forall k t, SchemaFromAst._cache b !! k = Some t ->
        SchemaFromAst._schema.name_of t = Ok k
        /\ (In t known_types
            \/ In t SchemaFromAst._schema.SPECIFIED_SCALAR_TYPES))
  /\ (forall t, In t known_types ->
        SchemaFromAst._schema.name_of t <> Raise AttributeError).
Proof. apply init_spec. Qed.

Lemma init_cache_witness :
  exists b, SchemaFromAst.init [SchemaFromAst._schema.ScalarType "Int" (Some "mine")]
            = Ok b
            /\ SchemaFromAst._cache b !! "Int"
               = Some (SchemaFromAst._schema.ScalarType "Int" None).
Proof.
  eexists. split; [reflexivity|].
  destruct (init_cache [SchemaFromAst._schema.ScalarType "Int" (Some "mine")]
              _ eq_refl) as (_ & Hs & _).
  destruct (Hs (SchemaFromAst._schema.ScalarType "Int" None))
    as (n & Hn & Hc); [left; reflexivity|].
  injection Hn as <-. exact Hc.
Defined.

Lemma named_or_not (ts : list SchemaFromAst._schema.type_) :
  (forall t, In t ts -> SchemaFromAst._schema.name_of t <> Raise AttributeError)
  \/ (exists t, In t ts
                /\ SchemaFromAst._schema.name_of t = Raise AttributeError).
Proof.
  induction ts as [|t0 ts [IH|(t & Hin & Hn)]].
  - left. intros t [].
  - destruct (SchemaFromAst._schema.name_of t0) as [n|e] eqn:En.
    + left. intros t [<-|Ht]; [congruence | exact (IH t Ht)].
    + right. exists t0. split; [left; reflexivity|].
      destruct t0; simpl in En |- *; congruence.
  - right. exists t. split; [right|]; assumption.
Qed.

(** X20: [_TypeMapBuilder.__init__] raises AttributeError exactly when a
    known type has no name (a list or non-null wrapper, or a thunk), and
    returns otherwise. *)
Theorem init_raises_iff (known_types : list SchemaFromAst._schema.type_) :
  (SchemaFromAst.init known_types = Raise AttributeError
   <-> exists t, In t known_types
                 /\ SchemaFromAst._schema.name_of t = Raise AttributeError)
  /\ (is_ok (SchemaFromAst.init known_types) = true
      <-> forall t, In t known_types ->
                    SchemaFromAst._schema.name_of t <> Raise AttributeError).
Proof.
  unfold SchemaFromAst.init.
  destruct (named_or_not known_types) as [Hall | Hex].
  - destruct (cache_all_named known_types ∅ Hall) as [c Hc]. rewrite Hc.
    cbn [Py.bind]. split; split.
    + discriminate.
    + intros (t & Hin & Hn). exfalso. exact (Hall t Hin Hn).
    + intros _. exact Hall.
    + reflexivity.
  - rewrite (cache_all_unnamed known_types ∅ Hex). cbn [Py.bind is_ok].
    split; split.
    + intros _. exact Hex.
    + reflexivity.
    + discriminate.
    + intros Hall. destruct Hex as (t & Hin & Hn). exfalso.
      exact (Hall t Hin Hn).
Qed.

(** X21: when [build_type] returns for a type definition, the returned
    type is cached under the name of the definition and no other entry of
    the cache has changed; a type built from the definition carries that
    name; building the same definition again returns the same type and
    changes nothing. *)
Theorem build_definition_cached
  (tv : Ast.value -> SchemaFromAst._schema.type_ -> result Ast.dval)
  (da : list SchemaFromAst._ast.Directive
        -> result (option (list (string * Ast.dval))))
  (tn : list (string * SchemaFromAst._ast.TypeDefinition))
  (exts : gmap string (list SchemaFromAst._ast.TypeExtension))
  (n : nat) (d : SchemaFromAst._ast.TypeDefinition)
  (st : SchemaFromAst.builder) (t : SchemaFromAst._schema.type_)
  (st' : SchemaFromAst.builder) :
  SchemaFromAst.build_type_at tv da tn exts (S n) d st = Ok (t, st') ->
  SchemaFromAst._cache st' !! SchemaFromAst._ast.def_name d = Some t
  /\ (forall k, k <> SchemaFromAst._ast.def_name d ->
                SchemaFromAst._cache st' !! k = SchemaFromAst._cache st !! k)
  /\ (SchemaFromAst._cache st !! SchemaFromAst._ast.def_name d = None ->
      SchemaFromAst._schema.name_of t = Ok (SchemaFromAst._ast.def_name d))
  /\ (forall m, SchemaFromAst.build_type_at tv da tn exts (S m) d st'
                = Ok (t, st')).
Proof.
  intros H. pose proof (build_type_at_spec _ _ _ _ _ _ _ _ _ H) as Hspec.
  assert (Hcached : SchemaFromAst._cache st' !! SchemaFromAst._ast.def_name d
                    = Some t).
  { destruct (SchemaFromAst._cache st !! SchemaFromAst._ast.def_name d)
      as [t0|] eqn:Ec.
    - destruct Hspec as [-> ->]. exact Ec.
    - destruct Hspec as (-> & _). apply lookup_insert_eq. }
  split; [exact Hcached|]. split; [|split].
  - intros k Hk.
    destruct (SchemaFromAst._cache st !! SchemaFromAst._ast.def_name d).
    + destruct Hspec as [_ ->]. reflexivity.
    + destruct Hspec as (-> & _). apply lookup_insert_ne.
      intros Heq. apply Hk. symmetry. exact Heq.
  - intros Hnone. rewrite Hnone in Hspec. tauto.
  - intros m. cbn [SchemaFromAst.build_type_at].
    unfold SchemaFromAst.build_type_definition. rewrite Hcached. reflexivity.
Qed.

Lemma build_definition_cached_witness :
  SchemaFromAst._cache
    (SchemaFromAst.mkBuilder
       (<["Date"%string := SchemaFromAst._schema.ScalarType "Date" None]> ∅) [])
    !! "Date"%string
  = Some (SchemaFromAst._schema.ScalarType "Date" None).
Proof.
  apply (build_definition_cached SchemaFromAst.no_default
           SchemaFromAst.no_directive [] ∅ 0
           (SchemaFromAst._ast.ScalarTypeDefinition None "Date" [])
           (SchemaFromAst.mkBuilder ∅ [])).
  reflexivity.
Defined.

Lemma Forall2_names {A B} (f : A -> string) (P : A -> B -> Prop)
  (g : B -> result string) ds ts :
  Forall2 (fun d t => g t = Ok (f d) /\ P d t) ds ts ->
  Forall2 (fun n t => g t = Ok n) (List.map f ds) ts.
Proof.
  induction 1 as [|d t ds ts [Hn _] _ IH]; constructor; assumption.
Qed.

Lemma dict_values_combine {B} (names : list string) (ts : list B) :
  length names = length ts -> dict_values (combine names ts) = ts.
Proof.
  unfold dict_values. revert ts.
  induction names as [|n names IH]; intros [|t ts]; simpl;
    try discriminate; [reflexivity|].
  intros [= H]. rewrite (IH ts H). reflexivity.
Qed.

(** X22: when [schema_from_ast] returns a schema, the type names of the
    document are pairwise distinct and the types of the schema follow the
    type definitions of the document, one for one and in document order,
    each carrying the name of its definition; where a known type or a
    specified scalar of that name was in the cache of the builder, that
    type stands for the definition. *)
Theorem schema_types_follow_document
  (tv : Ast.value -> SchemaFromAst._schema.type_ -> result Ast.dval)
  (da : list SchemaFromAst._ast.Directive
        -> result (option (list (string * Ast.dval))))
  (defs : list SchemaFromAst._ast.definition)
  (known_types : list SchemaFromAst._schema.type_)
  (s : SchemaFromAst._schema.Schema) :
  SchemaFromAst.schema_from_ast tv da defs known_types = Ok s ->
  NoDup (List.map SchemaFromAst._ast.def_name
           (SchemaFromAst.type_definitions defs))
  /\ exists b,
      SchemaFromAst.init known_types = Ok b
      /\ Forall2
           (fun d t =>
              SchemaFromAst._schema.name_of t
              = Ok (SchemaFromAst._ast.def_name d)
              /\ forall t0,
                  SchemaFromAst._cache b !! SchemaFromAst._ast.def_name d
                  = Some t0 -> t = t0)
           (SchemaFromAst.type_definitions defs)
           (SchemaFromAst._schema.types s).
Proof.
  unfold SchemaFromAst.schema_from_ast. intros H.
  destruct (extract_type_spec defs) as [(Hnd & x & Ex & Hpart) | (_ & Herr)];
    [|destruct (SchemaFromAst._extract_type defs); discriminate].
  rewrite Ex in H. cbn [Py.bind] in H.
  destruct Hnd as (_ & Hnd & _). cbn [SchemaFromAst.types dict_keys List.map app]
    in Hnd.
  destruct Hpart as (_ & Htypes & _). cbn [SchemaFromAst.types app] in Htypes.
  split; [exact Hnd|].
  destruct (SchemaFromAst.init known_types) as [b|e] eqn:Eb; [|discriminate].
  cbn [Py.bind] in H. exists b. split; [reflexivity|].
  destruct (init_spec known_types b Eb) as (_ & _ & Hnamed & _).
  unfold SchemaFromAst.call, SchemaFromAst.build_types, SchemaFromAst.mbind
    in H.
  rewrite Htypes, dict_values_keyed in H.
  destruct (SchemaFromAst.map_m _ (SchemaFromAst.type_definitions defs) b)
    as [[ts b1]|e] eqn:Ets; [|discriminate].
  assert (Hb : SchemaFromAst.named_cache b)
    by (intros k t Hkt; apply (Hnamed k t Hkt)).
  destruct (build_types_spec tv da
              (SchemaFromAst.keyed SchemaFromAst._ast.def_name
                 (SchemaFromAst.type_definitions defs))
              (SchemaFromAst.extensions x) 999
              (SchemaFromAst.type_definitions defs) b ts b1 Hb Ets)
    as (_ & _ & Hall).
  pose proof (Forall2_names _ _ _ _ _ Hall) as Hnames.
  unfold SchemaFromAst.lift in H.
  rewrite (by_name_spec ts _ [] Hnames) in H by exact Hnd.
  cbn [app Py.bind] in H.
  destruct (SchemaFromAst.build_directives _ _ _ _ _ b1) as [[dm b2]|e];
    [|discriminate].
  cbn [Py.bind] in H.
  destruct (SchemaFromAst._operation_types _ _) as [ops|e]; [|discriminate].
  cbn [Py.bind] in H. injection H as <-. cbn [SchemaFromAst._schema.types].
  rewrite dict_values_combine; [exact Hall|].
  rewrite length_map. eapply Forall2_length, Hall.
Qed.

Lemma schema_types_follow_document_witness :
  NoDup (List.map SchemaFromAst._ast.def_name
           (SchemaFromAst.type_definitions
              [SchemaFromAst.interface_I; SchemaFromAst.extend_interface_I])).
Proof.
  apply (schema_types_follow_document SchemaFromAst.no_default
           SchemaFromAst.no_directive
           [SchemaFromAst.interface_I; SchemaFromAst.extend_interface_I] []
           (SchemaFromAst._schema.mkSchema None None None
              [SchemaFromAst._schema.InterfaceType "I" None
                 [SchemaFromAst._schema.mkField "id"
                    (SchemaFromAst._schema.ScalarType "ID" None)
                    None None None;
                  SchemaFromAst._schema.mkField "name"
                    (SchemaFromAst._schema.ScalarType "String" None)
                    None None None]]
              [])).
  vm_compute. reflexivity.
Defined.

(** X23: [interface_type] applies the extensions recorded for the name
    of the interface in order.  As long as they are interface extensions,
    their fields are built after the fields of the definition, as if the
    definition had listed them all; the first extension of another kind
    makes the call raise the SDLError [Expected an InterfaceTypeExtension
    node ...], once the fields before it are built. *)
Theorem interface_type_extensions
  (tv : Ast.value -> SchemaFromAst._schema.type_ -> result Ast.dval)
  (da : list SchemaFromAst._ast.Directive
        -> result (option (list (string * Ast.dval))))
  (tn : list (string * SchemaFromAst._ast.TypeDefinition))
  (exts : gmap string (list SchemaFromAst._ast.TypeExtension))
  (rec : SchemaFromAst._ast.TypeDefinition
         -> SchemaFromAst.M SchemaFromAst._schema.type_)
  (description : option string) (name : string)
  (fields : list SchemaFromAst._ast.FieldDefinition)
  (good rest : list SchemaFromAst._ast.TypeExtension)
  (st : SchemaFromAst.builder) :
  exts !!! name = (good ++ rest)%list ->
  forallb SchemaFromAst.is_interface_extension good = true ->
  match rest with
  | [] => True
  | e :: _ => SchemaFromAst.is_interface_extension e = false
  end ->
  SchemaFromAst.interface_type tv da tn exts rec description name fields st
  = match SchemaFromAst.map_m (SchemaFromAst.object_field tv da tn rec)
            (fields
             ++ concat (List.map SchemaFromAst.interface_extension_fields
                          good))%list st with
    | Ok (built, st') =>
        match rest with
        | [] => Ok (SchemaFromAst._schema.InterfaceType name description built,
                    st')
        | _ :: _ =>
            Raise (SDLError
                     ("Expected an InterfaceTypeExtension node for "
                      ++ "InterfaceType " ++ name))
        end
    | Raise e => Raise e
    end.
Proof.
  intros Hexts Hgood Hrest. unfold SchemaFromAst.interface_type.
  rewrite Hexts. unfold SchemaFromAst.mbind.
  rewrite (map_m_app _ fields _ st). unfold SchemaFromAst.mbind, SchemaFromAst.ret.
  destruct (SchemaFromAst.map_m _ fields st) as [[a st1]|e]; [|reflexivity].
  destruct rest as [|bad rest].
  - rewrite app_nil_r, (interface_type_extend_merge _ _ _ _ _ _ _ _ _ Hgood).
    unfold SchemaFromAst.mbind, SchemaFromAst.ret.
    destruct (SchemaFromAst.map_m _ _ st1) as [[more st2]|e]; reflexivity.
  - rewrite (interface_type_extend_reject _ _ _ _ _ _ _ _ _ _ _ Hgood Hrest).
    unfold SchemaFromAst.mbind, SchemaFromAst.raise.
    destruct (SchemaFromAst.map_m _ _ st1) as [[more st2]|e]; reflexivity.
Qed.

Lemma interface_type_extensions_witness :
  SchemaFromAst.interface_type SchemaFromAst.no_default
    SchemaFromAst.no_directive []
    {[ "I"%string :=
         [SchemaFromAst._ast.InterfaceTypeExtension "I" []
            [SchemaFromAst._ast.mkFieldDefinition None "name" []
               (SchemaFromAst._ast.NamedType "String") []];
          SchemaFromAst._ast.UnionTypeExtension "I" [] []] ]}
    (fun _ => SchemaFromAst.raise RecursionError) None "I" []
    (SchemaFromAst.mkBuilder
       {[ "String"%string := SchemaFromAst._schema.ScalarType "String" None ]}
       [])
  = Raise (SDLError
             "Expected an InterfaceTypeExtension node for InterfaceType I").
Proof.
  rewrite (interface_type_extensions SchemaFromAst.no_default
             SchemaFromAst.no_directive []
             {[ "I"%string :=
                  [SchemaFromAst._ast.InterfaceTypeExtension "I" []
                     [SchemaFromAst._ast.mkFieldDefinition None "name" []
                        (SchemaFromAst._ast.NamedType "String") []];
                   SchemaFromAst._ast.UnionTypeExtension "I" [] []] ]}
             (fun _ => SchemaFromAst.raise RecursionError) None "I" []
             [SchemaFromAst._ast.InterfaceTypeExtension "I" []
                [SchemaFromAst._ast.mkFieldDefinition None "name" []
                   (SchemaFromAst._ast.NamedType "String") []]]
             [SchemaFromAst._ast.UnionTypeExtension "I" [] []]).
  - reflexivity.
  - reflexivity.
  - reflexivity.
  - reflexivity.
Defined.

(** X24: [union_type] applies the extensions recorded for the name of
    the union in order.  As long as they are union extensions, their member
    types are built after those of the definition, as if the definition had
    listed them all; the first extension of another kind makes the call
    raise the SDLError [Expected an UnionTypeExtension node ...], once the
    members before it are built. *)
Theorem union_type_extensions
  (tn : list (string * SchemaFromAst._ast.TypeDefinition))
  (exts : gmap string (list SchemaFromAst._ast.TypeExtension))
  (rec : SchemaFromAst._ast.TypeDefinition
         -> SchemaFromAst.M SchemaFromAst._schema.type_)
  (description : option string) (name : string)
  (types : list SchemaFromAst._ast.type_node)
  (good rest : list SchemaFromAst._ast.TypeExtension)
  (st : SchemaFromAst.builder) :
  exts !!! name = (good ++ rest)%list ->
  forallb SchemaFromAst.is_union_extension good = true ->
  match rest with
  | [] => True
  | e :: _ => SchemaFromAst.is_union_extension e = false
  end ->
  SchemaFromAst.union_type tn exts rec description name types st
  = match SchemaFromAst.map_m (SchemaFromAst.build_type tn rec)
            (types
             ++ concat (List.map SchemaFromAst.union_extension_types good))%list
            st with
    | Ok (built, st') =>
        match rest with
        | [] => Ok (SchemaFromAst._schema.UnionType name description built, st')
        | _ :: _ =>
            Raise (SDLError
                     ("Expected an UnionTypeExtension node for UnionType "
                      ++ name))
        end
    | Raise e => Raise e
    end.
Proof.
  intros Hexts Hgood Hrest. unfold SchemaFromAst.union_type.
  rewrite Hexts. unfold SchemaFromAst.mbind.
  rewrite (map_m_app _ types _ st). unfold SchemaFromAst.mbind, SchemaFromAst.ret.
  destruct (SchemaFromAst.map_m _ types st) as [[a st1]|e]; [|reflexivity].
  destruct rest as [|bad rest].
  - rewrite app_nil_r, (union_type_extend_merge _ _ _ _ _ _ _ Hgood).
    unfold SchemaFromAst.mbind, SchemaFromAst.ret.
    destruct (SchemaFromAst.map_m _ _ st1) as [[more st2]|e]; reflexivity.
  - rewrite (union_type_extend_reject _ _ _ _ _ _ _ _ _ Hgood Hrest).
    unfold SchemaFromAst.mbind, SchemaFromAst.raise.
    destruct (SchemaFromAst.map_m _ _ st1) as [[more st2]|e]; reflexivity.
Qed.

Lemma union_type_extensions_witness :
  SchemaFromAst.union_type
    [("Query"%string,
      SchemaFromAst._ast.ObjectTypeDefinition None "Query" [] [] [])]
    {[ "U"%string :=
         [SchemaFromAst._ast.UnionTypeExtension "U" []
            [SchemaFromAst._ast.NamedType "Query"]] ]}
    (fun _ => SchemaFromAst.raise RecursionError) None "U" []
    (SchemaFromAst.mkBuilder ∅ [])
  = Ok (SchemaFromAst._schema.UnionType "U" None
          [SchemaFromAst._schema.Ref "Query"],
        SchemaFromAst.mkBuilder ∅ ["Query"%string]).
Proof.
  rewrite (union_type_extensions
             [("Query"%string,
               SchemaFromAst._ast.ObjectTypeDefinition None "Query" [] [] [])]
             {[ "U"%string :=
                  [SchemaFromAst._ast.UnionTypeExtension "U" []
                     [SchemaFromAst._ast.NamedType "Query"]] ]}
             (fun _ => SchemaFromAst.raise RecursionError) None "U" []
             [SchemaFromAst._ast.UnionTypeExtension "U" []
                [SchemaFromAst._ast.NamedType "Query"]]
             []).
  - reflexivity.
  - reflexivity.
  - reflexivity.
  - exact I.
Defined.

(** ** [utilities/type_info.py]: the state of the visitor along a walk *)
Section MoreTypeInfo.
Import TypeInfo.
Context (schema : Schema).

#[local] Ltac unfold_visitor :=
  unfold enter_operation_definition, enter_selection_set, enter_field,
    enter_directive, enter_fragment_definition, enter_inline_fragment,
    enter_variable_definition, enter_argument, enter_list_value,
    enter_object_field, enter_enum_value,
    leave_operation_definition, leave_selection_set, leave_field,
    leave_directive, leave_fragment_definition, leave_inline_fragment,
    leave_variable_definition, leave_argument, leave_list_value,
    leave_object_field, leave_enum_value, _leave_input_value,
    pop_type, pop_parent_type, pop_input_type, pop_field,
    pop_input_value_def in *.

(** Each [enter] handler leaves alone the attributes that belong to the
    other classes of nodes. *)
Lemma enter_attributes k v :
  (is_directive k = false -> directive (enter schema k v) = directive v)
  /\ (is_argument k = false -> argument (enter schema k v) = argument v)
  /\ (is_enum_value k = false -> enum_value (enter schema k v) = enum_value v).
Proof.
  destruct k; cbn [enter is_directive is_argument is_enum_value];
    unfold_visitor;
    repeat match goal with
           | |- context [match ?x with _ => _ end] => destruct x
           end;
    repeat split; intros; (reflexivity || discriminate).
Qed.

(** Each [leave] handler undoes the pushes of its [enter] handler and
    unsets the attribute of its class of nodes. *)
Lemma leave_attributes k v v1 :
  stacks v1 = stacks (enter schema k v) ->
  exists v2, leave k v1 = Ok v2 /\ stacks v2 = stacks v
             /\ directive v2 = (if is_directive k then None else directive v1)
             /\ argument v2 = (if is_argument k then None else argument v1)
             /\ enum_value v2
                = (if is_enum_value k then None else enum_value v1).
Proof.
  unfold stacks. intros H.
  destruct k; cbn [enter leave is_directive is_argument is_enum_value] in *;
    unfold_visitor;
    repeat match type of H with
           | context [match ?x with _ => _ end] => destruct x
           end;
    cbn in H; injection H as H1 H2 H3 H4 H5; cbn;
    rewrite ?H1, ?H2, ?H3, ?H4, ?H5; cbn;
    eexists; (split; [reflexivity|]); cbn;
    rewrite ?H1, ?H2, ?H3, ?H4, ?H5; repeat split; reflexivity.
Qed.

(** After the walk of a node, each attribute is unset or as it was. *)
Lemma visit_attributes : forall n v,
  exists v', visit schema n v = Ok v' /\ stacks v' = stacks v
    /\ (directive v' = None \/ directive v' = directive v)
    /\ (argument v' = None \/ argument v' = argument v)
    /\ (enum_value v' = None \/ enum_value v' = enum_value v).
Proof.
  fix IH 1. intros [k children] v. rewrite visit_node.
  assert (Hall : forall v0, exists v1,
             visit_all schema children v0 = Ok v1 /\ stacks v1 = stacks v0
             /\ (directive v1 = None \/ directive v1 = directive v0)
             /\ (argument v1 = None \/ argument v1 = argument v0)
             /\ (enum_value v1 = None \/ enum_value v1 = enum_value v0)).
  { induction children as [|child rest IHrest]; intros v0.
    - exists v0. repeat split; auto.
    - cbn [visit_all].
      destruct (IH child v0) as (v1 & -> & H1 & Hd1 & Ha1 & He1).
      destruct (IHrest v1) as (v2 & H2 & H3 & Hd2 & Ha2 & He2). exists v2.
      split; [exact H2|]. split; [congruence|].
      repeat split;
        [destruct Hd2 as [->| ->] | destruct Ha2 as [->| ->]
         | destruct He2 as [->| ->]]; auto. }
  destruct (Hall (enter schema k v)) as (v1 & -> & H1 & Hd & Ha & He).
  cbn [Py.bind].
  destruct (leave_attributes k v v1 H1) as (v2 & H2 & H3 & Hd2 & Ha2 & He2).
  destruct (enter_attributes k v) as (Hd0 & Ha0 & He0).
  exists v2. split; [exact H2|]. split; [exact H3|].
  rewrite Hd2, Ha2, He2. repeat split.
  - destruct (is_directive k); [left; reflexivity|].
    rewrite <- (Hd0 eq_refl). exact Hd.
  - destruct (is_argument k); [left; reflexivity|].
    rewrite <- (Ha0 eq_refl). exact Ha.
  - destruct (is_enum_value k); [left; reflexivity|].
    rewrite <- (He0 eq_refl). exact He.
Qed.

Lemma output_type_or_none t :
  is_output_type t = true -> output_or_none t = true.
Proof. destruct t; [intros H; exact H | reflexivity]. Qed.

Lemma input_type_or_none t :
  is_input_type t = true -> input_or_none t = true.
Proof. destruct t; [intros H; exact H | reflexivity]. Qed.

Lemma enter_well_kinded k v :
  well_kinded v -> well_kinded (enter schema k v).
Proof.
  unfold well_kinded. intros (H1 & H2 & H3).
  destruct k; cbn [enter]; unfold_visitor;
    repeat match goal with
           | |- context [match ?x with _ => _ end] => destruct x eqn:?
           end;
    cbn; rewrite ?H1, ?H2, ?H3;
    repeat match goal with
           | H : is_output_type ?t = true |- _ =>
               rewrite (output_type_or_none t H); clear H
           | H : is_input_type ?t = true |- _ =>
               rewrite (input_type_or_none t H); clear H
           | H : _ = true |- _ => rewrite H
           end;
    cbn; auto.
Qed.

Lemma well_kinded_stacks v v' :
  stacks v' = stacks v -> well_kinded v -> well_kinded v'.
Proof.
  unfold stacks, well_kinded. intros [= -> -> -> _ _] H. exact H.
Qed.

Lemma observe_well_kinded : forall n v,
  well_kinded v ->
  Forall (fun kv => well_kinded (snd kv)) (observe schema n v).
Proof.
  fix IH 1. intros [k children] v Hv. rewrite observe_node.
  pose proof (enter_well_kinded k v Hv) as Hentered.
  constructor; [exact Hentered|].
  generalize (enter schema k v) Hentered. clear Hentered.
  induction children as [|child rest IHrest]; intros v0 Hv0; [constructor|].
  cbn [observe_all]. apply Forall_app. split; [apply IH, Hv0|].
  apply IHrest.
  destruct (visit_restores schema child v0) as (v1 & -> & Hst).
  cbn [after]. exact (well_kinded_stacks _ _ Hst Hv0).
Qed.

End MoreTypeInfo.

(** X25: a visitor whose three attributes are unset, a new one for
    instance, is exactly as it was after the walk of any tree: the walk
    returns, the five stacks are restored and [directive], [argument] and
    [enum_value] are unset again, so the visitor can serve another walk. *)
Theorem visitor_reusable (schema : TypeInfo.Schema) (n : TypeInfo.nodes.node)
  (v : TypeInfo.TypeInfoVisitor) :
  TypeInfo.directive v = None -> TypeInfo.argument v = None ->
  TypeInfo.enum_value v = None ->
  TypeInfo.visit schema n v = Ok v.
Proof.
  intros Hd Ha He.
  destruct (visit_attributes schema n v) as (v' & -> & Hst & Hd' & Ha' & He').
  rewrite Hd in Hd'. rewrite Ha in Ha'. rewrite He in He'.
  f_equal. destruct v, v'. unfold TypeInfo.stacks in Hst. cbn in *.
  injection Hst as -> -> -> -> ->.
  destruct Hd' as [->| ->], Ha' as [->| ->], He' as [->| ->]; subst;
    reflexivity.
Qed.

Lemma visitor_reusable_witness :
  TypeInfo.visit TypeInfo.sample_schema TypeInfo.malformed_document
    TypeInfo.init
  = Ok TypeInfo.init.
Proof.
  apply (visitor_reusable TypeInfo.sample_schema TypeInfo.malformed_document
           TypeInfo.init); reflexivity.
Defined.

(** X26: along the walk of any tree, started from a visitor whose stacks
    hold what they are meant to hold (a new visitor for instance), every
    state a later visitor sees keeps that: [_type_stack] holds output types
    or [None], [_parent_type_stack] composite types or [None], and
    [_input_type_stack] input types or [None]. *)
Theorem stacks_well_kinded (schema : TypeInfo.Schema)
  (n : TypeInfo.nodes.node) (v : TypeInfo.TypeInfoVisitor) :
  TypeInfo.well_kinded v ->
  Forall (fun kv => TypeInfo.well_kinded (snd kv))
         (TypeInfo.observe schema n v).
Proof. apply observe_well_kinded. Qed.

Lemma stacks_well_kinded_witness :
  Forall (fun kv => TypeInfo.well_kinded (snd kv))
         (TypeInfo.observe TypeInfo.sample_schema TypeInfo.malformed_document
            TypeInfo.init).
Proof.
  apply (stacks_well_kinded TypeInfo.sample_schema
           TypeInfo.malformed_document TypeInfo.init).
  repeat split.
Defined.

(** ** [lang/utils.py]: [highlight_location] *)
Section MoreHighlight.
Import Utils.

Lemma length_of_string s : length (of_string s) = String.length s.
Proof.
  unfold of_string. rewrite length_map.
  induction s as [|c s IH]; [reflexivity|]. simpl. rewrite IH. reflexivity.
Qed.

Lemma length_string_of_uint d :
  String.length (DecimalString.NilEmpty.string_of_uint d)
  = Decimal.nb_digits d.
Proof. induction d; simpl; congruence. Qed.

Lemma nb_digits_succ d :
  (Decimal.nb_digits d <= Decimal.nb_digits (Decimal.Little.succ d))%nat.
Proof. induction d; simpl; lia. Qed.

Lemma nb_digits_to_lu n :
  (1 <= Decimal.nb_digits (DecimalNat.Unsigned.to_lu n))%nat.
Proof.
  induction n as [|n IH]; [simpl; lia|].
  rewrite DecimalNat.Unsigned.to_lu_succ.
  pose proof (nb_digits_succ (DecimalNat.Unsigned.to_lu n)). lia.
Qed.

(** The length of [str(n)] is the number of decimal digits of [n]. *)
Lemma length_str_of_nat n :
  length (str_of_nat n) = Decimal.nb_digits (DecimalNat.Unsigned.to_lu n).
Proof.
  unfold str_of_nat. rewrite length_of_string.
  pose proof (nb_digits_to_lu n) as Hpos.
  rewrite DecimalNat.Unsigned.to_lu_equiv in *. unfold Nat.to_uint.
  rewrite <- (DecimalFacts.nb_digits_rev (Nat.to_little_uint n Decimal.zero))
    in *.
  destruct (Decimal.rev (Nat.to_little_uint n Decimal.zero)) eqn:E;
    try (apply length_string_of_uint).
  simpl in Hpos. lia.
Qed.

Lemma length_str_of_nat_mono a b :
  (a <= b)%nat -> (length (str_of_nat a) <= length (str_of_nat b))%nat.
Proof.
  rewrite !length_str_of_nat. induction 1 as [|b _ IH]; [lia|].
  rewrite DecimalNat.Unsigned.to_lu_succ.
  pose proof (nb_digits_succ (DecimalNat.Unsigned.to_lu b)). lia.
Qed.

Lemma index_to_loc_loop_upper body : forall offset position lines cols,
  (fst (index_to_loc_loop body offset position lines cols)
   <= lines + count_lf body + 1)%nat.
Proof.
  induction body as [|c body IH]; intros offset position lines cols;
    cbn [index_to_loc_loop].
  - simpl. lia.
  - rewrite count_lf_cons. unfold is_lf.
    destruct (Z.of_nat offset =? position); [simpl; lia|].
    destruct (c =? LF)%N.
    + specialize (IH (S offset) position (lines + 1)%nat 0%nat). lia.
    + specialize (IH (S offset) position lines (cols + 1)%nat). lia.
Qed.

Lemma index_to_loc_line_bound body position line col :
  index_to_loc body position = Ok (line, col) ->
  (1 <= line <= count_lf body + 1)%nat.
Proof.
  intros H. destruct body as [|c body].
  - unfold index_to_loc in H.
    destruct position; simpl in H; try discriminate;
      injection H as <- <-; simpl; lia.
  - rewrite index_to_loc_nonempty in H by discriminate.
    destruct (Z.of_nat (length (c :: body)) <? position); [discriminate|].
    pose proof (index_to_loc_loop_line (c :: body) 0 position 0 0) as [Hlo _].
    pose proof (index_to_loc_loop_upper (c :: body) 0 position 0 0) as Hup.
    remember (index_to_loc_loop (c :: body) 0 position 0 0) as r eqn:Hr.
    injection H as ->. cbn [fst] in Hlo, Hup. lia.
Qed.

Lemma split_lines_count s :
  (count_lf s + 1 <= length (split_lines s))%nat.
Proof.
  remember (length s) as n eqn:Hn. revert s Hn.
  induction n as [n IH] using lt_wf_ind. intros s Hn.
  destruct s as [|c rest]; [simpl; lia|].
  rewrite split_lines_cons, count_lf_cons.
  unfold is_terminator, after_terminator, is_lf.
  destruct (N.eqb_spec c LF) as [->|Hlf]; cbn [orb].
  - cbn [N.eqb LF CR Pos.eqb]. cbn [length].
    pose proof (IH (length rest) ltac:(subst; simpl; lia) rest eq_refl). lia.
  - destruct (c =? CR)%N; cbn [length].
    + destruct rest as [|d rest'].
      * simpl. lia.
      * rewrite count_lf_cons. unfold is_lf. destruct (d =? LF)%N.
        -- pose proof (IH (length rest') ltac:(subst; simpl; lia) rest'
                         eq_refl). lia.
        -- pose proof (IH (length (d :: rest')) ltac:(subst; simpl; lia)
                         (d :: rest') eq_refl) as H.
           rewrite count_lf_cons in H. unfold is_lf in H. lia.
    + pose proof (IH (length rest) ltac:(subst; simpl; lia) rest eq_refl) as H.
      destruct (split_lines rest); simpl in *; lia.
Qed.

Lemma comprehension_all_ok {X Y} (f : X -> result Y) l :
  (forall x, In x l -> exists y, f x = Ok y) ->
  exists ys, comprehension f l = Ok ys.
Proof.
  induction l as [|x l IH]; intros H; [exists []; reflexivity|].
  destruct (H x (or_introl eq_refl)) as [y Hy].
  destruct IH as [ys Hys]; [intros z Hz; apply H; right; exact Hz|].
  exists (y :: ys). cbn [comprehension]. rewrite Hy. cbn [Py.bind].
  change (Py.bind (comprehension f l) (fun r => Ok (y :: r)) = Ok (y :: ys)).
  rewrite Hys. reflexivity.
Qed.

(** A displayed line is numbered when its number is as wide as the
    widest, and raises TypeError when it is narrower. *)
Lemma numbered_line_outcome lines pad l :
  (l < length lines)%nat ->
  (length (str_of_nat (l + 1)) <= pad)%nat ->
  (length (str_of_nat (l + 1)) < pad)%nat
  /\ numbered_line lines pad l = Raise TypeError
  \/ length (str_of_nat (l + 1)) = pad
     /\ exists text, numbered_line lines pad l = Ok text.
Proof.
  intros Hl Hw. unfold numbered_line, lineno.
  destruct (Nat.ltb_spec 0 (pad - length (str_of_nat (l + 1)))) as [Hlt|Hge].
  - left. split; [lia | reflexivity].
  - right. split; [lia|]. cbn [Py.bind].
    destruct (nth_error lines l) as [text|] eqn:E; [eexists; reflexivity|].
    apply nth_error_None in E. lia.
Qed.

End MoreHighlight.

(** X27: for a position that [index_to_loc] accepts, [highlight_location]
    either returns the excerpt or raises TypeError, and it raises exactly
    when the first displayed line number has fewer digits than the last:
    padding a line number joins the integers of a range as if they were
    strings.  The displayed lines run from [min_line] to [max_line], which
    are in this order. *)
Theorem highlight_location_outcome (body : Py.str) (position : Z)
  (delta line col : nat) :
  Utils.index_to_loc body position = Ok (line, col) ->
  (Utils.min_line line delta
   <= Utils.max_line (Utils.split_lines body) line delta)%nat
  /\ (Utils.highlight_location body position delta = Raise TypeError
      <-> (length (Utils.str_of_nat (Utils.min_line line delta + 1))
           < length (Utils.str_of_nat
                       (Utils.max_line (Utils.split_lines body) line delta
                        + 1)))%nat)
  /\ (is_ok (Utils.highlight_location body position delta) = true
      <-> length (Utils.str_of_nat (Utils.min_line line delta + 1))
          = length (Utils.str_of_nat
                      (Utils.max_line (Utils.split_lines body) line delta
                       + 1))).
Proof.
  intros Hloc. unfold Utils.highlight_location. rewrite Hloc.
  cbn [Py.bind fst snd].
  pose proof (index_to_loc_line_bound _ _ _ _ Hloc) as Hline.
  pose proof (split_lines_count body) as Hcount.
  set (lines := Utils.split_lines body) in *.
  set (mn := Utils.min_line line delta).
  set (mx := Utils.max_line lines line delta).
  set (pad := length (Utils.str_of_nat (mx + 1))).
  assert (Hmn : (mn <= line - 1)%nat) by (unfold mn, Utils.min_line; lia).
  assert (Hmx : (line - 1 <= mx /\ mx < length lines)%nat)
    by (unfold mx, Utils.max_line; lia).
  assert (Hwidth : forall l, (l <= mx)%nat ->
            (length (Utils.str_of_nat (l + 1)) <= pad)%nat)
    by (intros l Hl; apply length_str_of_nat_mono; lia).
  split; [lia|].
  destruct (Nat.lt_ge_cases (length (Utils.str_of_nat (mn + 1))) pad)
    as [Hlt|Hge].
  - assert (Hraise :
      Py.bind
        (comprehension (Utils.numbered_line lines pad)
           (seq mn (line - 1 - mn)))
        (fun before =>
           Py.bind (Utils.numbered_line lines pad (line - 1))
             (fun current =>
                Py.bind
                  (comprehension (Utils.numbered_line lines pad)
                     (seq (line - 1 + 1) (mx - (line - 1))))
                  (fun after =>
                     Ok (Utils.join_lines
                           ((Py.of_string "(" ++ Utils.str_of_nat line
                             ++ Py.of_string ":" ++ Utils.str_of_nat col
                             ++ Py.of_string "):")
                            :: before
                            ++ [current;
                                Utils.ws 2 ++ Utils.ws (pad + col)
                                ++ Py.of_string "^"]
                            ++ after)%list))))
      = Raise TypeError).
    { destruct (numbered_line_outcome lines pad mn ltac:(lia) (Hwidth mn ltac:(lia)))
        as [[_ Hr] | [Heq _]]; [|lia].
      destruct (line - 1 - mn)%nat as [|k] eqn:Ek.
      - assert (mn = line - 1)%nat as Hsame by lia. rewrite <- Hsame.
        cbn [seq comprehension Py.bind]. rewrite Hr. reflexivity.
      - cbn [seq comprehension]. rewrite Hr. reflexivity. }
    rewrite Hraise. split; split; intros H;
      try reflexivity; try exact Hlt; try discriminate; lia.
  - assert (Hok : forall l, (mn <= l <= mx)%nat ->
              exists text, Utils.numbered_line lines pad l = Ok text).
    { intros l Hl.
      destruct (numbered_line_outcome lines pad l ltac:(lia) (Hwidth l ltac:(lia)))
        as [[Hnarrow _] | [_ Htext]]; [|exact Htext].
      pose proof (length_str_of_nat_mono (mn + 1) (l + 1) ltac:(lia)). lia. }
    destruct (comprehension_all_ok (Utils.numbered_line lines pad)
                (seq mn (line - 1 - mn))) as [before ->].
    { intros l Hl. apply in_seq in Hl. apply Hok. lia. }
    destruct (Hok (line - 1)%nat ltac:(lia)) as [current ->].
    destruct (comprehension_all_ok (Utils.numbered_line lines pad)
                (seq (line - 1 + 1) (mx - (line - 1)))) as [after ->].
    { intros l Hl. apply in_seq in Hl. apply Hok. lia. }
    cbn [Py.bind is_ok].
    pose proof (Hwidth mn ltac:(lia)) as Hle.
    split; split; intros H; try reflexivity; try discriminate; lia.
Qed.

Lemma highlight_location_outcome_witness :
  Utils.highlight_location (repeat Utils.LF 9) 8 2 = Raise TypeError.
Proof.
  apply (highlight_location_outcome (repeat Utils.LF 9) 8 2 9 1).
  - reflexivity.
  - vm_compute. lia.
Defined.

(** ** [schema/_schema_from_ast.py]: extensions that are not applied *)

Lemma type_definitions_In d defs :
  In d (SchemaFromAst.type_definitions defs) ->
  In (SchemaFromAst._ast.IsTypeDefinition d) defs.
Proof.
  induction defs as [|x defs IH]; [intros []|].
  destruct x; cbn [SchemaFromAst.type_definitions];
    try (intros H; right; exact (IH H)).
  intros [->|H]; [left; reflexivity | right; exact (IH H)].
Qed.

(** X28: a type extension has no effect on [schema_from_ast] unless the
    document defines an object, interface, union or enum type of its name:
    an extension of a scalar or of an input object type, and an extension
    that names no type of the document, are dropped without an error; the
    schema (or the error) is the one of the document without it. *)
Theorem unread_extension_ignored
  (tv : Ast.value -> SchemaFromAst._schema.type_ -> result Ast.dval)
  (da : list SchemaFromAst._ast.Directive
        -> result (option (list (string * Ast.dval))))
  (defs1 defs2 : list SchemaFromAst._ast.definition)
  (known_types : list SchemaFromAst._schema.type_)
  (e : SchemaFromAst._ast.TypeExtension) :
  (forall d, In (SchemaFromAst._ast.IsTypeDefinition d) (defs1 ++ defs2) ->
             SchemaFromAst._ast.def_name d = SchemaFromAst._ast.ext_name e ->
             SchemaFromAst.reads_extensions d = false) ->
  SchemaFromAst.schema_from_ast tv da
    (defs1 ++ SchemaFromAst._ast.IsTypeExtension e :: defs2) known_types
  = SchemaFromAst.schema_from_ast tv da (defs1 ++ defs2) known_types.
Proof.
  intros Hunread. unfold SchemaFromAst.schema_from_ast.
  pose proof (extract_with_extension defs1 defs2 e) as Hx.
  pose proof (extract_type_spec (defs1 ++ defs2)) as Hspec.
  destruct (SchemaFromAst._extract_type (defs1 ++ defs2)) as [x|err];
    [|rewrite Hx; reflexivity].
  destruct Hx as (x' & -> & H1 & H2 & H3 & H4). cbn [Py.bind].
  destruct Hspec as [[_ (x0 & Hx0 & (_ & Ht & _))] | [_ Herr]];
    [|discriminate Herr].
  injection Hx0 as <-. simpl in Ht.
  destruct (SchemaFromAst.init known_types) as [b|err]; [|reflexivity].
  cbn [Py.bind]. rewrite H1, H2, H3.
  rewrite (call_ext tv da (SchemaFromAst.types x)
             (SchemaFromAst.extensions x') (SchemaFromAst.extensions x)).
  - apply bind_ext. intros [type_map b1].
    rewrite (build_directives_ext tv da (SchemaFromAst.types x)
               (SchemaFromAst.extensions x') (SchemaFromAst.extensions x)).
    reflexivity.
  - intros d Hd Hreads. apply H4. intros Hname.
    rewrite Ht, dict_values_keyed in Hd. apply type_definitions_In in Hd.
    rewrite (Hunread d Hd Hname) in Hreads. discriminate Hreads.
Qed.

Lemma unread_extension_ignored_witness :
  SchemaFromAst.schema_from_ast SchemaFromAst.no_default
    SchemaFromAst.no_directive
    ([SchemaFromAst.input_Point]
     ++ SchemaFromAst.extend_input_Point :: [SchemaFromAst.extend_union_U]) []
  = SchemaFromAst.schema_from_ast SchemaFromAst.no_default
      SchemaFromAst.no_directive
      ([SchemaFromAst.input_Point] ++ [SchemaFromAst.extend_union_U]) [].
Proof.
  apply (unread_extension_ignored SchemaFromAst.no_default
           SchemaFromAst.no_directive [SchemaFromAst.input_Point]
           [SchemaFromAst.extend_union_U] []
           (SchemaFromAst._ast.InputObjectTypeExtension "Point" []
              [SchemaFromAst._ast.mkInputValueDefinition None "y"
                 (SchemaFromAst._ast.NamedType "Int") None []])).
  intros d [[= <-] | [[=] | []]] _. reflexivity.
Defined.

Lemma object_type_extend_returns
  (tv : Ast.value -> SchemaFromAst._schema.type_ -> result Ast.dval)
  (da : list SchemaFromAst._ast.Directive
        -> result (option (list (string * Ast.dval))))
  (tn : list (string * SchemaFromAst._ast.TypeDefinition))
  rec name desc es : forall fields interfaces st t st',
  SchemaFromAst.object_type_extend tv da tn rec name desc es fields interfaces
    st = Ok (t, st') ->
  forallb SchemaFromAst.is_object_extension_with_interfaces es = true
  /\ exists fs ifs, t = SchemaFromAst._schema.ObjectType name desc fs ifs.
Proof.
  induction es as [|e es IH]; intros fields interfaces st t st'.
  - intros [= <- <-]. split; [reflexivity | eauto].
  - destruct e as [| n [|i ifs'] d f | | | |];
      cbn [SchemaFromAst.object_type_extend]; try discriminate.
    + unfold SchemaFromAst.mbind, SchemaFromAst.raise.
      destruct (SchemaFromAst.map_m _ f st) as [[? ?]|?]; discriminate.
    + unfold SchemaFromAst.mbind at 1.
      destruct (SchemaFromAst.map_m _ f st) as [[nf st1]|?]; [|discriminate].
      unfold SchemaFromAst.mbind at 1.
      destruct (SchemaFromAst.map_m _ (i :: ifs') st1) as [[ni st2]|?];
        [|discriminate].
      intros H. destruct (IH _ _ _ _ _ H) as [Hall Ht].
      split; [exact Hall | exact Ht].
Qed.

(** X29: [object_type] returns only if every extension recorded for the
    name of the type is an object extension that lists at least one
    interface; an extension of another kind raises SDLError and an object
    extension without interfaces raises TypeError.  What it returns is an
    object type of that name. *)
Theorem object_type_returns_only_if
  (tv : Ast.value -> SchemaFromAst._schema.type_ -> result Ast.dval)
  (da : list SchemaFromAst._ast.Directive
        -> result (option (list (string * Ast.dval))))
  (tn : list (string * SchemaFromAst._ast.TypeDefinition))
  (exts : gmap string (list SchemaFromAst._ast.TypeExtension))
  (rec : SchemaFromAst._ast.TypeDefinition
         -> SchemaFromAst.M SchemaFromAst._schema.type_)
  (description : option string) (name : string)
  (interfaces : list SchemaFromAst._ast.type_node)
  (fields : list SchemaFromAst._ast.FieldDefinition)
  (st : SchemaFromAst.builder) (t : SchemaFromAst._schema.type_)
  (st' : SchemaFromAst.builder) :
  SchemaFromAst.object_type tv da tn exts rec description name interfaces
    fields st = Ok (t, st') ->
  forallb SchemaFromAst.is_object_extension_with_interfaces (exts !!! name)
  = true
  /\ exists fs ifs,
      t = SchemaFromAst._schema.ObjectType name description fs ifs.
Proof.
  unfold SchemaFromAst.object_type. unfold SchemaFromAst.mbind at 1.
  destruct (SchemaFromAst.map_m _ fields st) as [[fs st1]|?]; [|discriminate].
  unfold SchemaFromAst.mbind at 1.
  destruct (SchemaFromAst.map_m _ interfaces st1) as [[ifs st2]|?];
    [|discriminate].
  apply object_type_extend_returns.
Qed.

Lemma object_type_returns_only_if_witness :
  forallb SchemaFromAst.is_object_extension_with_interfaces
    (({[ "Query"%string :=
           [SchemaFromAst._ast.ObjectTypeExtension "Query"
              [SchemaFromAst._ast.NamedType "ID"] [] []] ]}
      : gmap string (list SchemaFromAst._ast.TypeExtension))
     !!! "Query"%string)
  = true
  /\ exists fs ifs,
      SchemaFromAst._schema.ObjectType "Query" None []
        [SchemaFromAst._schema.ScalarType "ID" None]
      = SchemaFromAst._schema.ObjectType "Query" None fs ifs.
Proof.
  apply (object_type_returns_only_if SchemaFromAst.no_default
           SchemaFromAst.no_directive []
           {[ "Query"%string :=
                [SchemaFromAst._ast.ObjectTypeExtension "Query"
                   [SchemaFromAst._ast.NamedType "ID"] [] []] ]}
           (fun _ => SchemaFromAst.raise RecursionError) None "Query" [] []
           (SchemaFromAst.mkBuilder
              {[ "ID"%string := SchemaFromAst._schema.ScalarType "ID" None ]}
              [])
           _
           (SchemaFromAst.mkBuilder
              {[ "ID"%string := SchemaFromAst._schema.ScalarType "ID" None ]}
              [])).
  reflexivity.
Defined.

(** X30: [leading_whitespace] counts the whitespace a string starts
    with: it never exceeds the length of the string, equals it exactly for
    the strings [is_blank] accepts, and is the length of a run of
    whitespace that is followed by another character. *)
Theorem leading_whitespace_counts :
  (forall s, (Utils.leading_whitespace s <= length s)%nat)
  /\ (forall s, Utils.leading_whitespace s = length s
                <-> Utils.is_blank s = true)
  /\ (forall spaces c rest,
        forallb Utils.is_space spaces = true -> Utils.is_space c = false ->
        Utils.leading_whitespace (spaces ++ c :: rest)%list = length spaces).
Proof.
  split; [|split].
  - intros s. unfold Utils.leading_whitespace. lia.
  - intros s. pose proof (indent_lt_length_not_blank s) as H.
    assert (Hle : (Utils.leading_whitespace s <= length s)%nat)
      by (unfold Utils.leading_whitespace; lia).
    destruct (Utils.is_blank s); cbn [negb] in H.
    + apply Nat.ltb_ge in H. split; [reflexivity | lia].
    + apply Nat.ltb_lt in H. split; [lia | discriminate].
  - intros spaces c rest Hs Hc.
    unfold Utils.leading_whitespace, Utils.strip_leading_ws.
    assert (Hdrop : Utils.drop_while Utils.is_space (spaces ++ c :: rest)%list
                    = c :: rest).
    { induction spaces as [|x spaces IH]; simpl in *.
      - rewrite Hc. reflexivity.
      - apply andb_prop in Hs as [-> Hs]. exact (IH Hs). }
    rewrite Hdrop, length_app. simpl. lia.
Qed.

(** ** [schema/_schema_from_ast.py]: scalar extensions *)
Section ScalarExtensions.
Import SchemaFromAst.
Local Open Scope string_scope.

Context (tv : Ast.value -> _schema.type_ -> result Ast.dval).
Context (da : list _ast.Directive
              -> result (option (list (string * Ast.dval)))).









End ScalarExtensions.



